(** * lsl-view: the streaming sample ring buffer and the windowed chart

    A shallow embedding of [src/hooks/useLslStreams.ts] (the [useStreamData]
    hook: circular sample buffer, statistics, marker log, render scheduler;
    the [useWebSocket] hook under it; the [useLslStreams] discovery hook), of
    [src/components/TimeSeriesChart.tsx] ([fitTextToWidth], [draw], the
    controls and the two effects), of [App] as far as it selects a stream and
    puts the chart under the hook, of [src/components/EventMarkerTimeline.tsx]
    and of the backend addresses of [src/lib/utils.ts]; followed by the
    properties of the written specification that concern them, and by
    further properties read off the code.

    Numbers.  A JavaScript number is a binary64 value: real-valued quantities
    (sample values, timestamps, clock readings, pixel coordinates) are Rocq's
    primitive [float]s, whose operations are the IEEE-754 ones the engine
    runs.  Quantities that only ever hold small integers (array indices,
    lengths, counters) are [Z] or [nat]; [%] is [Z.rem], the truncating
    remainder of JavaScript, and where the code divides by a length that can
    be 0 the NaN it then yields is kept apart ([js_rem]). *)

From Stdlib Require Import ZArith Lia Bool String Ascii Floats.
From Stdlib Require Import DecimalString DecimalNat DecimalFacts.
From stdpp Require Import base list list_numbers sorting.
From Equations Require Import Equations.

Set Warnings "-inexact-float".

Local Open Scope string_scope.
Local Open Scope list_scope.
Local Open Scope Z_scope.

(** ** Float64 helpers (JavaScript built-ins) *)

(** [Number(n)] for an integer below 2^63 (exact below 2^53). *)
Definition f64_of_Z (z : Z) : float :=
  if z <? 0 then (- of_uint63 (Uint63.of_Z (- z)))%float
  else of_uint63 (Uint63.of_Z z).

Definition f64_of_nat (n : nat) : float := f64_of_Z (Z.of_nat n).

(** [isFinite(x)] *)
Definition isFinite (x : float) : bool := is_finite x.

(** [a > b], [a >= b] are the mirrored primitive comparisons. *)
Definition f64_gtb (a b : float) : bool := (b <? a)%float.

(** [Math.max(a, b)] and [Math.min(a, b)]: NaN if either is NaN, and
    [-0] below [+0]. *)
Definition Math_max (a b : float) : float :=
  if is_nan a || is_nan b then nan
  else if (a <? b)%float then b
  else if (b <? a)%float then a
  else if get_sign a then b else a.

Definition Math_min (a b : float) : float :=
  if is_nan a || is_nan b then nan
  else if (a <? b)%float then a
  else if (b <? a)%float then b
  else if get_sign a then a else b.

(** [Math.ceil(x)].  A finite binary64 with a negative exponent has
    magnitude below 2^53, so its integer ceiling converts back exactly. *)
Definition Math_ceil (x : float) : float :=
  match Prim2SF x with
  | S754_finite s m e =>
      if 0 <=? e then x
      else
        let d := 2 ^ (- e) in
        let q := Z.pos m / d in
        let exact := Z.pos m mod d =? 0 in
        if s then (- f64_of_Z q)%float
        else f64_of_Z (if exact then q else q + 1)
  | _ => x
  end.

(** A [Float64Array] element read [a[i]] used as a number: an index outside
    the array yields [undefined], which every comparison and arithmetic
    operation of the callers treats as NaN. *)
Definition f64_get (a : list float) (i : Z) : float :=
  if i <? 0 then nan else default nan (a !! Z.to_nat i).

(** A [Float64Array] element write [a[i] = v]: silently ignored outside
    the array. *)
Definition f64_set (a : list float) (i : Z) (v : float) : list float :=
  if i <? 0 then a else <[Z.to_nat i := v]> a.

(** [a % b] on integers, where [b] can be 0: NaN, here [None], when it is. *)
Definition js_rem (a b : Z) : option Z :=
  if b =? 0 then None else Some (Z.rem a b).

(** [a[i]] where [i] is the result of such a [%]: NaN is no index, and the
    read yields [undefined] as one outside the array does. *)
Definition f64_at (a : list float) (i : option Z) : float :=
  match i with
  | Some i => f64_get a i
  | None => nan
  end.

(** [new Float64Array(n)] for a length that is not negative: [n] zeros.  A
    negative length makes the constructor throw; what is proved of an
    allocation below is proved for a capacity that is not negative. *)
Definition Float64Array (n : Z) : list float := replicate (Z.to_nat n) 0%float.

(** [`${n}`] for a non-negative integer. *)
Definition decimal (n : nat) : string := NilZero.string_of_uint (Nat.to_uint n).

(** [xs.slice(-n)]: the last [n] elements. *)
Definition slice_last {A} (n : nat) (xs : list A) : list A :=
  drop (length xs - n) xs.

(** [strs.join(sep)] *)
Definition join (sep : string) (strs : list string) : string :=
  String.concat sep strs.


(** ** The [useStreamData] hook ([src/hooks/useLslStreams.ts]) *)

Module Hook.

(** [WsState] of [src/lib/types.ts]. *)
Inductive WsState := connecting | open | closed | error.

(** [LslSample]: [d] is [number[] | string[]]; a field absent from the parsed
    message is [None] ([undefined]). *)
Inductive SampleData :=
| Numbers (channels : list float)
| Strings (values : list string).

Record LslSample := {
  t : option float;
  d : option SampleData
}.

(** [StreamStatistics] of [src/lib/types.ts]. *)
Record StreamStatistics := {
  actualSampleRate : Z;
  totalSamples : Z;
  latestTimestamp : float;
  connectionUptime : float
}.

Record Marker := { timestamp : float; value : string }.

(** The conversions the engine applies where [onMessage] uses the payload as
    the other variant than it is: [Number(s)] when a string is stored into a
    [Float64Array], [String(x)] when a number is joined into a string. *)
Record Engine := {
  toNumber : string -> float;
  toText : float -> string
}.

(** [sample.d as number[]], as its elements are stored. *)
Definition asNumbers (js : Engine) (payload : SampleData) : list float :=
  match payload with
  | Numbers channels => channels
  | Strings values => toNumber js <$> values
  end.

(** [sample.d as string[]], as its elements are joined. *)
Definition asStrings (js : Engine) (payload : SampleData) : list string :=
  match payload with
  | Strings values => values
  | Numbers channels => toText js <$> channels
  end.

(** The options of the hook that the modelled code reads:
    [stream?.channelCount ?? 0], [bufferSize], and
    [stream?.channelFormat === "string"]. *)
Record Options := {
  channelCount : Z;
  bufferSize : Z;
  isStringStream : bool
}.

(** The mutable cells of one hook instance: the [useRef] cells and the two
    [useState] cells ([tick], [markers]). *)
Record State := {
  buffersRef : list (list float);
  tsRef : list float;
  writeHeadRef : Z;
  sampleCountRef : Z;
  tick : Z;
  rafRef : option Z;
  dirtyRef : bool;
  statsRef : StreamStatistics;
  connectTimeRef : float;
  rateWindowRef : list float;
  markersState : list Marker
}.

(** The browser's animation-frame machinery: the handles of the callbacks
    registered by [requestAnimationFrame] and not yet run or cancelled, and
    the next handle to hand out.  Every registered callback is the one arrow
    function of [scheduleRender]. *)
Record World := {
  hook : State;
  rafPending : list Z;
  rafNext : Z
}.

(** What [useStreamData] returns at a render. *)
Record UseStreamDataReturn := {
  channelBuffers : list (list float);
  timestamps : list float;
  sampleCount : Z;
  writeHead : Z;
  stats : StreamStatistics;
  wsState : WsState;
  markers : list Marker
}.

Definition WsState_eqb (a b : WsState) : bool :=
  match a, b with
  | connecting, connecting | open, open | closed, closed | error, error => true
  | _, _ => false
  end.

(** The cells as the first render finds them. *)
Definition initialStats : StreamStatistics :=
  {| actualSampleRate := 0; totalSamples := 0;
     latestTimestamp := 0; connectionUptime := 0 |}.

Definition initialState : State :=
  {| buffersRef := []; tsRef := Float64Array 0;
     writeHeadRef := 0; sampleCountRef := 0;
     tick := 0; rafRef := None; dirtyRef := false;
     statsRef := initialStats; connectTimeRef := 0;
     rateWindowRef := []; markersState := [] |}.

Definition mount : World :=
  {| hook := initialState; rafPending := []; rafNext := 1 |}.

Definition with_hook (w : World) (s : State) : World :=
  {| hook := s; rafPending := rafPending w; rafNext := rafNext w |}.

(** "Ensure buffers match current stream" *)
Definition ensureBuffers (o : Options) (s : State) : State :=
  if (0 <? channelCount o) && negb (Z.of_nat (length (buffersRef s)) =? channelCount o)
  then
    {| buffersRef := replicate (Z.to_nat (channelCount o)) (Float64Array (bufferSize o));
       tsRef := Float64Array (bufferSize o);
       writeHeadRef := 0; sampleCountRef := 0;
       tick := tick s; rafRef := rafRef s; dirtyRef := dirtyRef s;
       statsRef := statsRef s; connectTimeRef := connectTimeRef s;
       rateWindowRef := rateWindowRef s; markersState := markersState s |}
  else s.

Definition set_connectTime (s : State) (c : float) : State :=
  {| buffersRef := buffersRef s; tsRef := tsRef s;
     writeHeadRef := writeHeadRef s; sampleCountRef := sampleCountRef s;
     tick := tick s; rafRef := rafRef s; dirtyRef := dirtyRef s;
     statsRef := statsRef s; connectTimeRef := c;
     rateWindowRef := rateWindowRef s; markersState := markersState s |}.

(** "Track connect time"; [perfNow] is what [performance.now()] reads at
    this render. *)
Definition trackConnectTime (ws : WsState) (perfNow : float) (s : State) : State :=
  let s1 :=
    if WsState_eqb ws open && (connectTimeRef s =? 0)%float
    then set_connectTime s (perfNow / 1000)%float
    else s in
  if WsState_eqb ws closed then set_connectTime s1 0%float else s1.

Definition result (ws : WsState) (s : State) : UseStreamDataReturn :=
  {| channelBuffers := buffersRef s; timestamps := tsRef s;
     sampleCount := sampleCountRef s; writeHead := writeHeadRef s;
     stats := statsRef s; wsState := ws; markers := markersState s |}.

(** One evaluation of the body of [useStreamData] with the connection state
    that [useWebSocket] reports: the cells afterwards and the value returned. *)
Definition render (o : Options) (ws : WsState) (perfNow : float) (s : State)
  : State * UseStreamDataReturn :=
  let s' := trackConnectTime ws perfNow (ensureBuffers o s) in
  (s', result ws s').

(** [scheduleRender] *)
Definition scheduleRender (w : World) : World :=
  match dirtyRef (hook w), rafRef (hook w) with
  | true, None =>
      let s := hook w in
      let id := rafNext w in
      {| hook :=
           {| buffersRef := buffersRef s; tsRef := tsRef s;
              writeHeadRef := writeHeadRef s; sampleCountRef := sampleCountRef s;
              tick := tick s; rafRef := Some id; dirtyRef := dirtyRef s;
              statsRef := statsRef s; connectTimeRef := connectTimeRef s;
              rateWindowRef := rateWindowRef s; markersState := markersState s |};
         rafPending := rafPending w ++ [id];
         rafNext := id + 1 |}
  | _, _ => w
  end.

(** The callback registered by [scheduleRender]: clear both flags and force
    a re-render ([setTick]). *)
Definition frameCallback (s : State) : State :=
  {| buffersRef := buffersRef s; tsRef := tsRef s;
     writeHeadRef := writeHeadRef s; sampleCountRef := sampleCountRef s;
     tick := tick s + 1; rafRef := None; dirtyRef := false;
     statsRef := statsRef s; connectTimeRef := connectTimeRef s;
     rateWindowRef := rateWindowRef s; markersState := markersState s |}.

(** A display refresh: the browser runs every callback pending when the
    frame starts, once each, and forgets them. *)
Definition animationFrame (w : World) : World :=
  {| hook := fold_left (fun s _ => frameCallback s) (rafPending w) (hook w);
     rafPending := [];
     rafNext := rafNext w |}.

(** [disconnect]: [close()] belongs to [useWebSocket] and shows here only as
    the connection state of later renders; the pending frame is cancelled. *)
Definition disconnect (w : World) : World :=
  match rafRef (hook w) with
  | Some id =>
      let s := hook w in
      {| hook :=
           {| buffersRef := buffersRef s; tsRef := tsRef s;
              writeHeadRef := writeHeadRef s; sampleCountRef := sampleCountRef s;
              tick := tick s; rafRef := None; dirtyRef := dirtyRef s;
              statsRef := statsRef s; connectTimeRef := connectTimeRef s;
              rateWindowRef := rateWindowRef s; markersState := markersState s |};
         rafPending := filter (fun h => h <> id) (rafPending w);
         rafNext := rafNext w |}
  | None => w
  end.

(** The marker update passed to [setMarkers]. *)
Definition appendMarker (prev : list Marker) (m : Marker) : list Marker :=
  let next := prev ++ [m] in
  if (500 <? length next)%nat then slice_last 500 next else next.

(** The channel loop of [onMessage]:
    [for (ch = 0; ch < channels.length && ch < buffers.length; ch++)
       buffers[ch][head] = channels[ch]]. *)
Fixpoint writeChannels (buffers : list (list float)) (channels : list float)
    (head : Z) : list (list float) :=
  match buffers, channels with
  | buf :: buffers', v :: channels' =>
      f64_set buf head v :: writeChannels buffers' channels' head
  | _, _ => buffers
  end.

(** The eviction loop of [onMessage]:
    [while (q.length > 0 && q[0] < cutoff) q.shift()]. *)
Fixpoint evict (q : list float) (cutoff : float) : list float :=
  match q with
  | x :: q' => if (x <? cutoff)%float then evict q' cutoff else q
  | [] => []
  end.

(** The numeric branch of [onMessage] up to the scheduling of the render.
    The write head is [(head + 1) % bufferSize] for a capacity other than 0;
    what is proved of the head below is proved for a positive capacity. *)
Definition writeSample (o : Options) (perfNow : float) (ts : float)
    (channels : list float) (s : State) : State :=
  let head := writeHeadRef s in
  let now := (perfNow / 1000)%float in
  let st := statsRef s in
  let q := evict (rateWindowRef s ++ [now]) (now - 1)%float in
  {| buffersRef := writeChannels (buffersRef s) channels head;
     tsRef := f64_set (tsRef s) head ts;
     writeHeadRef := Z.rem (head + 1) (bufferSize o);
     sampleCountRef := Z.min (sampleCountRef s + 1) (bufferSize o);
     tick := tick s; rafRef := rafRef s;
     dirtyRef := true;
     statsRef :=
       {| actualSampleRate := Z.of_nat (length q);
          totalSamples := totalSamples st + 1;
          latestTimestamp := ts;
          connectionUptime :=
            if f64_gtb (connectTimeRef s) 0
            then (now - connectTimeRef s)%float
            else connectionUptime st |};
     connectTimeRef := connectTimeRef s;
     rateWindowRef := q;
     markersState := markersState s |}.

Definition set_markers (s : State) (ms : list Marker) : State :=
  {| buffersRef := buffersRef s; tsRef := tsRef s;
     writeHeadRef := writeHeadRef s; sampleCountRef := sampleCountRef s;
     tick := tick s; rafRef := rafRef s; dirtyRef := dirtyRef s;
     statsRef := statsRef s; connectTimeRef := connectTimeRef s;
     rateWindowRef := rateWindowRef s; markersState := ms |}.

(** [onMessage]; [perfNow] is what [performance.now()] reads when the message
    arrives. *)
Definition onMessage (js : Engine) (o : Options) (perfNow : float)
    (data : option LslSample) (w : World) : World :=
  match data with
  | None => w
  | Some sample =>
      match t sample, d sample with
      | Some ts, Some payload =>
          if isStringStream o then
            let values := asStrings js payload in
            with_hook w
              (set_markers (hook w)
                 (appendMarker (markersState (hook w))
                    {| timestamp := ts; value := join ", " values |}))
          else
            let channels := asNumbers js payload in
            scheduleRender (with_hook w (writeSample o perfNow ts channels (hook w)))
      | _, _ => w
      end
  end.

(** What can happen to a mounted hook.  [step] and [run] take the events of
    a stretch over which the hook is rendered with the same options;
    [Session], further down, follows the hook over a change of stream. *)
Inductive Event :=
| Message (perfNow : float) (data : option LslSample)
| Render (ws : WsState) (perfNow : float)
| AnimationFrame
| Disconnect.

Definition step (js : Engine) (o : Options) (w : World) (e : Event) : World :=
  match e with
  | Message perfNow data => onMessage js o perfNow data w
  | Render ws perfNow => with_hook w (fst (render o ws perfNow (hook w)))
  | AnimationFrame => animationFrame w
  | Disconnect => disconnect w
  end.

Definition run (js : Engine) (o : Options) (w : World) (es : list Event) : World :=
  fold_left (step js o) es w.

(** A message of numbers that [onMessage] accepts. *)
Definition numeric (ts : float) (channels : list float) : option LslSample :=
  Some {| t := Some ts; d := Some (Numbers channels) |}.

(** A message of strings that [onMessage] accepts. *)
Definition marker (ts : float) (values : list string) : option LslSample :=
  Some {| t := Some ts; d := Some (Strings values) |}.

End Hook.

(** ** The chart ([src/components/TimeSeriesChart.tsx]) *)

Module Chart.

(** [CHANNEL_COLORS] of [src/lib/types.ts]. *)
Definition CHANNEL_COLORS : list string :=
  [ "#22d3ee"; "#f472b6"; "#a78bfa"; "#34d399"; "#fbbf24"; "#fb923c";
    "#60a5fa"; "#e879f9"; "#4ade80"; "#f87171"; "#818cf8"; "#2dd4bf";
    "#facc15"; "#c084fc"; "#38bdf8"; "#fb7185" ].

(** The calls made on the 2D context, in order. *)
Inductive CanvasOp :=
| scale (x y : float)
| fillStyle (style : string)
| strokeStyle (style : string)
| lineWidth (w : float)
| font (f : string)
| textAlign (a : string)
| textBaseline (b : string)
| fillRect (x y w h : float)
| fillText (text : string) (x y : float)
| beginPath
| moveTo (x y : float)
| lineTo (x y : float)
| stroke.

(** [TimeSeriesChartProps] *)
Record Props := {
  channelBuffers : list (list float);
  timestamps : list float;
  sampleCount : Z;
  writeHead : Z;
  channelNames : list string;
  nominalSrate : float
}.

(** The [useState] cells of the chart; [visibleChannels] lists the members
    of the [Set] in insertion order. *)
Record View := {
  paused : bool;
  windowSeconds : float;
  stacked : bool;
  visibleChannels : list nat
}.

(** [window.devicePixelRatio || 1] and the container's bounding rectangle. *)
Record Viewport := {
  dpr : float;
  width : float;
  height : float
}.

(** An array or a [Set] as a dependency array holds it: the object itself,
    here the number that names it.  Two dependencies are the same object
    when the numbers are equal. *)
Definition Ref : Type := nat.

(** The objects among the props. *)
Record PropRefs := {
  channelBuffersRef : Ref;
  timestampsRef : Ref;
  channelNamesRef : Ref
}.

(** The dependencies of [draw]:
    [channelBuffers, timestamps, sampleCount, writeHead, channelNames,
     windowSeconds, stacked, visibleChannels]. *)
Record Deps := {
  dep_channelBuffers : Ref;
  dep_timestamps : Ref;
  dep_sampleCount : Z;
  dep_writeHead : Z;
  dep_channelNames : Ref;
  dep_windowSeconds : float;
  dep_stacked : bool;
  dep_visibleChannels : Ref
}.

(** The comparison of two dependency arrays, [Object.is] element by element:
    on numbers it tells [+0] from [-0] and takes NaN for itself. *)
Definition sameDeps (a b : Deps) : bool :=
  (dep_channelBuffers a =? dep_channelBuffers b)%nat
  && (dep_timestamps a =? dep_timestamps b)%nat
  && (dep_sampleCount a =? dep_sampleCount b)
  && (dep_writeHead a =? dep_writeHead b)
  && (dep_channelNames a =? dep_channelNames b)%nat
  && PrimFloat.Leibniz.eqb (dep_windowSeconds a) (dep_windowSeconds b)
  && Bool.eqb (dep_stacked a) (dep_stacked b)
  && (dep_visibleChannels a =? dep_visibleChannels b)%nat.

Definition depsOf (refs : PropRefs) (p : Props) (v : View) (visible : Ref) : Deps :=
  {| dep_channelBuffers := channelBuffersRef refs;
     dep_timestamps := timestampsRef refs;
     dep_sampleCount := sampleCount p;
     dep_writeHead := writeHead p;
     dep_channelNames := channelNamesRef refs;
     dep_windowSeconds := windowSeconds v;
     dep_stacked := stacked v;
     dep_visibleChannels := visible |}.

(** What one call of [draw] does: the context calls it makes and, for the
    record, the divisor of every evaluation of
    [plotH / activeChannels.length]. *)
Record Frame := {
  ops : list CanvasOp;
  laneDivisors : list nat
}.

(** [margin]: [{ top, right, bottom, left }] *)
Record Margin := {
  margin_top : float;
  margin_right : float;
  margin_bottom : float;
  margin_left : float
}.

Definition ellipsis : string := "...".

(** [text.slice(0, n)] for [0 <= n]. *)
Definition slice0 (text : string) (n : nat) : string := substring 0 n text.

Definition candidate (text : string) (n : nat) : string :=
  String.append (slice0 text n) ellipsis.

(** [Math.ceil((lo + hi) / 2)] on non-negative integers. *)
Definition midpoint (lo hi : nat) : nat := ((lo + hi + 1) / 2)%nat.

(** The default comparison of [Array.prototype.sort]: by the elements'
    string forms. *)
Definition sort_leb (a b : nat) : bool := String.leb (decimal a) (decimal b).

Fixpoint sort_insert (x : nat) (xs : list nat) : list nat :=
  match xs with
  | [] => [x]
  | y :: ys => if sort_leb x y then x :: xs else y :: sort_insert x ys
  end.

(** [xs.sort()]: a stable sort under [sort_leb]. *)
Definition sort (xs : list nat) : list nat := foldr sort_insert [] xs.

(** [xs.indexOf(x)] as used for an element that occurs. *)
Fixpoint indexOf (x : nat) (xs : list nat) : nat :=
  match xs with
  | [] => 0
  | y :: ys => if (x =? y)%nat then 0%nat else S (indexOf x ys)
  end.

(** The index of the [i]-th oldest valid sample:
    [(writeHead - sampleCount + i + bufLen) % bufLen]. *)
Definition sampleIndex (p : Props) (i : Z) : option Z :=
  let bufLen := Z.of_nat (length (timestamps p)) in
  js_rem (writeHead p - sampleCount p + i + bufLen) bufLen.

(** [latestIdx]: [(writeHead - 1 + bufLen) % bufLen]. *)
Definition latestIdx (p : Props) : option Z :=
  let bufLen := Z.of_nat (length (timestamps p)) in
  js_rem (writeHead p - 1 + bufLen) bufLen.

(** The sample positions of [for (let i = 0; i < sampleCount; i++)] that pass
    [if (timestamps[idx] < startTime) continue], as buffer indices. *)
Definition windowIndices (p : Props) (startTime : float) : list (option Z) :=
  filter (fun idx => (f64_at (timestamps p) idx <? startTime)%float = false)
    (sampleIndex p <$> seqZ 0 (sampleCount p)).

(** The min/max scan of one buffer over the window. *)
Definition scanStep (buf : list float) (acc : float * float) (idx : option Z)
  : float * float :=
  let v := f64_at buf idx in
  (if (v <? fst acc)%float then v else fst acc,
   if f64_gtb v (snd acc) then v else snd acc).

Definition scan (p : Props) (startTime : float) (buf : list float)
    (acc : float * float) : float * float :=
  fold_left (scanStep buf) (windowIndices p startTime) acc.

(** The vertical range of one stacked lane; [None] where the lane returns
    before drawing. *)
Definition laneRange (p : Props) (startTime : float) (buf : list float)
  : option (float * float) :=
  let '(min, max) := scan p startTime buf (infinity, neg_infinity) in
  let count := length (windowIndices p startTime) in
  if (count =? 0)%nat || negb (isFinite min) || negb (isFinite max) then None
  else
    let '(min, max) :=
      if (min =? max)%float then ((min - 1)%float, (max + 1)%float) else (min, max) in
    let range := (max - min)%float in
    let padding := (range * 0.1)%float in
    Some ((min - padding)%float, (max + padding)%float).

(** The shared vertical range of overlay mode; [None] where [draw] returns. *)
Definition overlayRange (p : Props) (startTime : float) (activeChannels : list nat)
  : option (float * float) :=
  let '(globalMin, globalMax) :=
    fold_left
      (fun acc chIdx => scan p startTime (default [] (channelBuffers p !! chIdx)) acc)
      activeChannels (infinity, neg_infinity) in
  if negb (isFinite globalMin) then None
  else
    let '(globalMin, globalMax) :=
      if (globalMin =? globalMax)%float
      then ((globalMin - 1)%float, (globalMax + 1)%float)
      else (globalMin, globalMax) in
    let range := (globalMax - globalMin)%float in
    Some ((globalMin - range * 0.05)%float, (globalMax + range * 0.05)%float).

(** [channelNames[chIdx] || `ch${chIdx}`] *)
Definition labelOf (p : Props) (chIdx : nat) : string :=
  match channelNames p !! chIdx with
  | Some name => if String.eqb name "" then String.append "ch" (decimal chIdx) else name
  | None => String.append "ch" (decimal chIdx)
  end.

Definition colorOf (chIdx : nat) : string :=
  default "" (CHANNEL_COLORS !! (chIdx mod length CHANNEL_COLORS)%nat).

(** A trace: [moveTo] the first point, [lineTo] the others. *)
Definition path (points : list (float * float)) : list CanvasOp :=
  match points with
  | [] => []
  | (x, y) :: rest => moveTo x y :: map (fun '(x, y) => lineTo x y) rest
  end.

Definition labelFont : string := "12px monospace".

Section Canvas.

(** [ctx.measureText(s).width]; every call is made under [labelFont]. *)
Variable measureText : string -> float.

(** [x.toFixed(1)] *)
Variable toFixed1 : float -> string.

Section FitText.
Variables (text : string) (maxWidth : float).

(** The binary search of [fitTextToWidth]; the result is the final [lo]. *)
Equations? fitLoop (lo hi : nat) : nat by wf (hi - lo)%nat lt :=
fitLoop lo hi with lt_dec lo hi := {
  | left _ =>
      let mid := midpoint lo hi in
      if (measureText (candidate text mid) <=? maxWidth)%float
      then fitLoop mid hi
      else fitLoop lo (mid - 1)%nat
  | right _ => lo }.
Proof.
  all: subst mid; unfold midpoint;
    pose proof (Nat.div_mod_eq (lo + hi + 1) 2);
    pose proof (Nat.mod_upper_bound (lo + hi + 1) 2); lia.
Defined.

Definition fitTextToWidth : string :=
  if (maxWidth <=? 0)%float then ""
  else if (measureText text <=? maxWidth)%float then text
  else if f64_gtb (measureText ellipsis) maxWidth then ""
  else candidate text (fitLoop 0 (String.length text)).

End FitText.

(** [Array.from(visibleChannels).filter((i) => i < numChannels).sort()] *)
Definition activeChannels (p : Props) (v : View) : list nat :=
  sort (filter (fun i => (i < length (channelBuffers p))%nat) (visibleChannels v)).

(** "Determine time range": [latestTime - windowSeconds]. *)
Definition startTimeOf (p : Props) (v : View) : float :=
  let latestTime := f64_at (timestamps p) (latestIdx p) in
  (latestTime - windowSeconds v)%float.

(** "Keep a readable left gutter for channel labels." *)
Definition leftGutter (p : Props) (active : list nat) : float :=
  let maxLabelW :=
    fold_left (fun acc chIdx => Math_max acc (measureText (labelOf p chIdx)))
      active 0%float in
  Math_min 240 (Math_max 90 (Math_ceil (maxLabelW + 18))).

Definition marginOf (p : Props) (active : list nat) : Margin :=
  {| margin_top := 8; margin_right := 12; margin_bottom := 24;
     margin_left := leftGutter p active |}.

Definition background (vp : Viewport) : list CanvasOp :=
  [ scale (dpr vp) (dpr vp);
    fillStyle "var(--color-surface, #1a1a2e)";
    fillStyle "#12121f";
    fillRect 0 0 (width vp) (height vp) ].

Definition placeholder (vp : Viewport) : list CanvasOp :=
  [ fillStyle "#555"; font "14px monospace"; textAlign "center";
    fillText "Waiting for data..." (width vp / 2) (height vp / 2) ].

(** "Divider between label gutter and plot." *)
Definition divider (vp : Viewport) (m : Margin) : list CanvasOp :=
  [ strokeStyle "#26263a"; lineWidth 1; beginPath;
    moveTo (margin_left m + 0.5) (margin_top m);
    lineTo (margin_left m + 0.5) (height vp - margin_bottom m);
    stroke ].

Section Plot.
Variables (p : Props) (v : View) (vp : Viewport).
Variables (m : Margin) (plotW plotH startTime : float).

Definition xOf (idx : option Z) : float :=
  (margin_left m
   + ((f64_at (timestamps p) idx - startTime) / windowSeconds v) * plotW)%float.

Definition channelLabel (chIdx : nat) : string :=
  fitTextToWidth (labelOf p chIdx) (margin_left m - 14).

(** One lane of stacked mode: the body of [activeChannels.forEach]. *)
Definition drawLane (laneH : float) (laneIdx chIdx : nat) : list CanvasOp :=
  let laneTop := (margin_top m + f64_of_nat laneIdx * laneH)%float in
  let buf := default [] (channelBuffers p !! chIdx) in
  [ fillStyle "#0d0d17"; fillRect 0 laneTop (margin_left m - 1) laneH ] ++
  match laneRange p startTime buf with
  | None => []
  | Some (min, max) =>
      (if (0 <? laneIdx)%nat
       then [ strokeStyle "#333"; lineWidth 0.5; beginPath;
              moveTo (margin_left m) laneTop;
              lineTo (width vp - margin_right m) laneTop;
              stroke ]
       else []) ++
      [ fillStyle (colorOf chIdx); font labelFont; textAlign "right";
        textBaseline "middle";
        fillText (channelLabel chIdx) (margin_left m - 10) (laneTop + laneH / 2);
        strokeStyle (colorOf chIdx); lineWidth 1.2; beginPath ] ++
      path
        (map
           (fun idx =>
              (xOf idx,
               (laneTop + laneH
                - ((f64_at buf idx - min) / (max - min)) * (laneH - 2))%float))
           (windowIndices p startTime)) ++
      [ stroke ]
  end.

(** Overlay mode once the shared range is known. *)
Definition drawOverlay (active : list nat) (globalMin globalMax : float)
  : list CanvasOp :=
  [ fillStyle "#0d0d17"; fillRect 0 (margin_top m) (margin_left m - 1) plotH;
    strokeStyle "#222"; lineWidth 0.5 ] ++
  flat_map
    (fun i =>
       let y := (margin_top m + (f64_of_nat i / 4) * plotH)%float in
       let val := (globalMax - (f64_of_nat i / 4) * (globalMax - globalMin))%float in
       [ beginPath; moveTo (margin_left m) y;
         lineTo (width vp - margin_right m) y; stroke;
         fillStyle "#555"; font "10px monospace"; textAlign "right";
         fillText (toFixed1 val) (margin_left m - 4) (y + 3) ])
    (seq 0 5) ++
  flat_map
    (fun chIdx =>
       let labelY :=
         (margin_top m + 12 + f64_of_nat (indexOf chIdx active) * 14)%float in
       let buf := default [] (channelBuffers p !! chIdx) in
       [ fillStyle (colorOf chIdx); font labelFont; textAlign "right";
         textBaseline "alphabetic" ] ++
       (if (labelY <? margin_top m + plotH - 2)%float
        then [ fillText (channelLabel chIdx) (margin_left m - 10) labelY ]
        else []) ++
       [ strokeStyle (colorOf chIdx); lineWidth 1.2; beginPath ] ++
       path
         (map
            (fun idx =>
               (xOf idx,
                (margin_top m
                 + (1 - (f64_at buf idx - globalMin) / (globalMax - globalMin))
                   * plotH)%float))
            (windowIndices p startTime)) ++
       [ stroke ])
    active.

(** The iterations of [for (let i = 0; i <= timeSteps; i++)]. *)
Fixpoint whileAtMost (timeSteps : float) (steps : list nat) : list nat :=
  match steps with
  | [] => []
  | i :: steps' =>
      if (f64_of_nat i <=? timeSteps)%float then i :: whileAtMost timeSteps steps'
      else []
  end.

(** "Time axis"; [Math.min(6, _)] is at most 6 or NaN, so the loop makes at
    most seven iterations. *)
Definition timeAxis : list CanvasOp :=
  let timeSteps := Math_min 6 (Math_ceil (windowSeconds v)) in
  [ fillStyle "#555"; font "10px monospace"; textAlign "center" ] ++
  map
    (fun i =>
       let t := ((f64_of_nat i / timeSteps) * windowSeconds v)%float in
       let x := (margin_left m + (t / windowSeconds v) * plotW)%float in
       fillText
         (String.append "-" (String.append (toFixed1 (windowSeconds v - t)) "s"))
         x (height vp - 4))
    (whileAtMost timeSteps (seq 0 7)).

End Plot.

(** [draw], for a mounted canvas with a 2D context.  The sizing of the canvas
    element that precedes [ctx.scale] makes no call on the context and is
    left out. *)
Definition draw (p : Props) (v : View) (vp : Viewport) : Frame :=
  if (sampleCount p =? 0) || (length (channelBuffers p) =? 0)%nat then
    {| ops := background vp ++ placeholder vp; laneDivisors := [] |}
  else
    let active := activeChannels p v in
    if (length active =? 0)%nat then
      {| ops := background vp; laneDivisors := [] |}
    else
      let startTime := startTimeOf p v in
      let m := marginOf p active in
      let plotW := (width vp - margin_left m - margin_right m)%float in
      let plotH := (height vp - margin_top m - margin_bottom m)%float in
      let layout := background vp ++ [ font labelFont ] ++ divider vp m in
      if stacked v then
        let laneH := (plotH / f64_of_nat (length active))%float in
        {| ops :=
             layout
             ++ concat (imap (drawLane p v vp m plotW startTime laneH) active)
             ++ timeAxis v vp m plotW;
           laneDivisors := [ length active ] |}
      else
        match overlayRange p startTime active with
        | None => {| ops := layout; laneDivisors := [] |}
        | Some (globalMin, globalMax) =>
            {| ops :=
                 layout
                 ++ drawOverlay p v vp m plotW plotH startTime active
                      globalMin globalMax
                 ++ timeAxis v vp m plotW;
               laneDivisors := [] |}
        end.

(** "Redraw on data changes": the effect runs after the first render of the
    chart ([previous] is [None]) and after every render in which [draw],
    [sampleCount] or [writeHead] is not what it was in the render before;
    [draw] is another function exactly when one of its dependencies is
    another.  The effect draws unless the chart is paused. *)
Definition redraw (previous : option Deps) (current : Deps)
    (p : Props) (v : View) (vp : Viewport) : option Frame :=
  let changed :=
    match previous with
    | Some before => negb (sameDeps before current)
    | None => true
    end in
  if changed && negb (paused v) then Some (draw p v vp) else None.

End Canvas.

(** The initial [visibleChannels], also restored when the number of names
    changes: [new Set(channelNames.map((_, i) => i))]. *)
Definition allChannels (channelNames : list string) : list nat :=
  seq 0 (length channelNames).

(** [toggleChannel]: the update it passes to [setVisibleChannels].  A [Set]
    keeps its members in insertion order: [delete] removes the member, [add]
    appends it. *)
Definition toggleChannel (idx : nat) (prev : list nat) : list nat :=
  if bool_decide (idx ∈ prev) then filter (fun i => i <> idx) prev
  else prev ++ [idx].

(** What the controls above the canvas do to the [useState] cells. *)
Inductive Control :=
| SelectWindow (seconds : float)
| SelectLayout (stackedLayout : bool)
| PauseResume
| LegendClick (idx : nat).

(** The cells at the first render; [initialWindow] is the [windowSeconds]
    prop, 5 by default. *)
Definition initialView (channelNames : list string) (initialWindow : float) : View :=
  {| paused := false; windowSeconds := initialWindow; stacked := true;
     visibleChannels := allChannels channelNames |}.

Definition control (v : View) (c : Control) : View :=
  match c with
  | SelectWindow seconds =>
      {| paused := paused v; windowSeconds := seconds; stacked := stacked v;
         visibleChannels := visibleChannels v |}
  | SelectLayout stackedLayout =>
      {| paused := paused v; windowSeconds := windowSeconds v; stacked := stackedLayout;
         visibleChannels := visibleChannels v |}
  | PauseResume =>
      {| paused := negb (paused v); windowSeconds := windowSeconds v;
         stacked := stacked v; visibleChannels := visibleChannels v |}
  | LegendClick idx =>
      {| paused := paused v; windowSeconds := windowSeconds v; stacked := stacked v;
         visibleChannels := toggleChannel idx (visibleChannels v) |}
  end.


(** A mounted chart between two renders: its [useState] cells; the [Set]
    that [visibleChannels] holds and the number the next [new Set] gets;
    and what its last render left to compare the next with,
    [channelNames.length] and the dependencies of [draw]. *)
Record Instance := {
  view : View;
  visibleRef : Ref;
  nextRef : Ref;
  namesLength : nat;
  rendered : Deps
}.

(** A control updates a cell before the chart renders again; a click on the
    legend stores a [Set] made for it. *)
Definition controlChart (c : Control) (chart : Instance) : Instance :=
  match c with
  | LegendClick _ =>
      {| view := control (view chart) c;
         visibleRef := nextRef chart; nextRef := S (nextRef chart);
         namesLength := namesLength chart; rendered := rendered chart |}
  | _ =>
      {| view := control (view chart) c;
         visibleRef := visibleRef chart; nextRef := nextRef chart;
         namesLength := namesLength chart; rendered := rendered chart |}
  end.

Section Component.

Variable measureText : string -> float.
Variable toFixed1 : float -> string.

(** One render of the chart, the first ([chart] is [None]) or a later one,
    with the effects that follow it in the order of the source.  "Update
    visible channels when channel count changes" runs after the first render
    and when [channelNames.length] is another: it stores a [Set] of all
    channels, which makes the chart render once more with the same props.
    "Redraw on data changes" follows each of the renders.  The result is the
    chart as the last render leaves it and the frames drawn. *)
Definition renderChart (refs : PropRefs) (p : Props) (vp : Viewport)
    (initialWindow : float) (chart : option Instance) : Instance * list Frame :=
  let v :=
    match chart with
    | Some c => view c
    | None => initialView (channelNames p) initialWindow
    end in
  let visible := from_option visibleRef 0%nat chart in
  let next := from_option nextRef 1%nat chart in
  let deps := depsOf refs p v visible in
  let frames :=
    option_list (redraw measureText toFixed1 (rendered <$> chart) deps p v vp) in
  let sameLength :=
    match chart with
    | Some c => (namesLength c =? length (channelNames p))%nat
    | None => false
    end in
  if sameLength then
    ({| view := v; visibleRef := visible; nextRef := next;
        namesLength := length (channelNames p); rendered := deps |},
     frames)
  else
    let v' :=
      {| paused := paused v; windowSeconds := windowSeconds v; stacked := stacked v;
         visibleChannels := allChannels (channelNames p) |} in
    let deps' := depsOf refs p v' next in
    ({| view := v'; visibleRef := next; nextRef := S next;
        namesLength := length (channelNames p); rendered := deps' |},
     frames ++ option_list (redraw measureText toFixed1 (Some deps) deps' p v' vp)).

End Component.

End Chart.


(** ** One hook over the streams selected in it *)

Module Session.

(** [App] keeps one instance of [useStreamData] and renders it with another
    stream when the selection changes.  An event of a session is an event of
    the hook with the options in force: for a render, the options it is
    rendered with; for a message, those of the render whose [onMessage] the
    socket calls.  The other events read no option. *)
Definition Event : Type := Hook.Options * Hook.Event.

Definition step (js : Hook.Engine) (w : Hook.World) (e : Event) : Hook.World :=
  Hook.step js (fst e) w (snd e).

Definition run (js : Hook.Engine) (w : Hook.World) (es : list Event) : Hook.World :=
  fold_left (step js) es w.

(** A stretch of a session over which one stream stays selected. *)
Definition under (o : Hook.Options) (es : list Hook.Event) : list Event :=
  (fun e => (o, e)) <$> es.

End Session.

(** ** The [useWebSocket] hook ([src/hooks/useLslStreams.ts]) *)

Module Socket.

(** [WebSocket.readyState] *)
Inductive ReadyState := CONNECTING | OPEN | CLOSING | CLOSED.

(** A [WebSocket] object made by [connect]: the URL it was given, its ready
    state, and whether [onclose] still holds the handler [connect] installed
    ([onopen], [onmessage] and [onerror] are never removed). *)
Record WebSocket := {
  url : string;
  readyState : ReadyState;
  onclose : bool
}.

(** The cells of one hook instance: the [useState] cell [state] and the
    [useRef] cells; sockets and timers are named by their handles. *)
Record State := {
  state : Hook.WsState;
  wsRef : option nat;
  reconnectTimer : option nat;
  urlRef : option string
}.

(** The hook and what the browser holds for it: the [url] of the commit whose
    effects ran last ([None] before the first), every socket made so far (a
    socket's handle is its position), the timeouts set and neither fired nor
    cleared, the next timer handle; and, for the record, the calls of
    [onMessage] and the data handed to [WebSocket.send], each with the
    handle of its socket. *)
Record World := {
  hook : State;
  committed : option (option string);
  sockets : list WebSocket;
  timers : list nat;
  timerNext : nat;
  received : list (nat * option Hook.LslSample);
  sent : list (nat * string)
}.

(** [if (url)]: neither [null] nor the empty string. *)
Definition truthy (url : option string) : bool :=
  match url with
  | Some u => negb (String.eqb u "")
  | None => false
  end.

(** Whether two values of the dependency [url] are the same. *)
Definition sameUrl (a b : option string) : bool :=
  match a, b with
  | Some u, Some v => String.eqb u v
  | None, None => true
  | _, _ => false
  end.

(** The hook as its first render leaves it, before any effect has run:
    [useState("closed")], [useRef(null)], [useRef()], [useRef(url)]. *)
Definition mount (url : option string) : World :=
  {| hook := {| state := Hook.closed; wsRef := None;
                reconnectTimer := None; urlRef := url |};
     committed := None; sockets := []; timers := []; timerNext := 0;
     received := []; sent := [] |}.

Definition with_hook (w : World) (s : State) : World :=
  {| hook := s; committed := committed w; sockets := sockets w;
     timers := timers w; timerNext := timerNext w;
     received := received w; sent := sent w |}.

Definition with_sockets (w : World) (sockets' : list WebSocket) : World :=
  {| hook := hook w; committed := committed w; sockets := sockets';
     timers := timers w; timerNext := timerNext w;
     received := received w; sent := sent w |}.

Definition with_timers (w : World) (timers' : list nat) : World :=
  {| hook := hook w; committed := committed w; sockets := sockets w;
     timers := timers'; timerNext := timerNext w;
     received := received w; sent := sent w |}.

(** [setState(st)] *)
Definition setState (st : Hook.WsState) (w : World) : World :=
  with_hook w
    {| state := st; wsRef := wsRef (hook w);
       reconnectTimer := reconnectTimer (hook w); urlRef := urlRef (hook w) |}.

Definition set_wsRef (ws : option nat) (w : World) : World :=
  with_hook w
    {| state := state (hook w); wsRef := ws;
       reconnectTimer := reconnectTimer (hook w); urlRef := urlRef (hook w) |}.

Definition set_urlRef (url : option string) (w : World) : World :=
  with_hook w
    {| state := state (hook w); wsRef := wsRef (hook w);
       reconnectTimer := reconnectTimer (hook w); urlRef := url |}.

(** [ws.readyState] after [ws.close()]: a socket that is connecting or open
    starts closing, another stays as it is. *)
Definition closing (r : ReadyState) : ReadyState :=
  match r with
  | CONNECTING | OPEN => CLOSING
  | CLOSING | CLOSED => r
  end.

(** [ws.onclose = null; ws.close()] *)
Definition abandon (ws : WebSocket) : WebSocket :=
  {| url := url ws; readyState := closing (readyState ws); onclose := false |}.

(** [if (wsRef.current) { wsRef.current.onclose = null; wsRef.current.close(); }] *)
Definition hangUp (w : World) : World :=
  match wsRef (hook w) with
  | Some id => with_sockets w (alter abandon id (sockets w))
  | None => w
  end.

(** [clearTimeout(reconnectTimer.current)] *)
Definition clearTimeout (w : World) : World :=
  match reconnectTimer (hook w) with
  | Some timer => with_timers w (filter (fun t => t <> timer) (timers w))
  | None => w
  end.

(** [connect], for a URL that the [WebSocket] constructor accepts. *)
Definition connect (w : World) : World :=
  match urlRef (hook w) with
  | Some currentUrl =>
      if String.eqb currentUrl "" then w
      else
        let w1 := setState Hook.connecting (hangUp w) in
        let id := length (sockets w1) in
        set_wsRef (Some id)
          (with_sockets w1
             (sockets w1
              ++ [ {| url := currentUrl; readyState := CONNECTING; onclose := true |} ]))
  | None => w
  end.

(** [ws.onopen] *)
Definition onopen (w : World) : World := setState Hook.open w.

(** [ws.onmessage]: [onMessage] receives the parsed message, or the raw one
    where it is no JSON. *)
Definition onmessage (id : nat) (data : option Hook.LslSample) (w : World) : World :=
  {| hook := hook w; committed := committed w; sockets := sockets w;
     timers := timers w; timerNext := timerNext w;
     received := received w ++ [(id, data)]; sent := sent w |}.

(** [ws.onerror] *)
Definition onerror (w : World) : World := setState Hook.error w.

(** [ws.onclose], as installed by [connect]. *)
Definition onclosed (reconnectDelay : Z) (w : World) : World :=
  let w1 := set_wsRef None (setState Hook.closed w) in
  if (0 <? reconnectDelay) && truthy (urlRef (hook w1)) then
    let timer := timerNext w1 in
    {| hook :=
         {| state := state (hook w1); wsRef := wsRef (hook w1);
            reconnectTimer := Some timer; urlRef := urlRef (hook w1) |};
       committed := committed w1; sockets := sockets w1;
       timers := timers w1 ++ [timer]; timerNext := S timer;
       received := received w1; sent := sent w1 |}
  else w1.

(** The cleanup of the effect "Connect when URL changes". *)
Definition cleanup (w : World) : World :=
  set_wsRef None (hangUp (clearTimeout w)).

(** The body of the effect "Connect when URL changes". *)
Definition connectEffect (url : option string) (w : World) : World :=
  if truthy url then connect w
  else setState Hook.closed (set_wsRef None (hangUp w)).

(** A render committed with the prop [url]: where [url] differs from the one
    of the last commit, the cleanup of the connect effect runs, then the
    effect that stores [url] in [urlRef], then the connect effect. *)
Definition commit (url : option string) (w : World) : World :=
  let w' :=
    {| hook := hook w; committed := Some url; sockets := sockets w;
       timers := timers w; timerNext := timerNext w;
       received := received w; sent := sent w |} in
  match committed w with
  | None => connectEffect url (set_urlRef url w')
  | Some last =>
      if sameUrl last url then w
      else connectEffect url (set_urlRef url (cleanup w'))
  end.

(** [send] *)
Definition send (data : string) (w : World) : World :=
  match wsRef (hook w) with
  | Some id =>
      match readyState <$> sockets w !! id with
      | Some OPEN =>
          {| hook := hook w; committed := committed w; sockets := sockets w;
             timers := timers w; timerNext := timerNext w;
             received := received w; sent := sent w ++ [(id, data)] |}
      | _ => w
      end
  | None => w
  end.

(** [close] *)
Definition close (w : World) : World :=
  setState Hook.closed (set_wsRef None (hangUp (clearTimeout w))).

Definition set_readyState (r : ReadyState) (ws : WebSocket) : WebSocket :=
  {| url := url ws; readyState := r; onclose := onclose ws |}.

(** What can happen to a mounted hook.  The browser delivers [open] to a
    socket that is connecting, messages to a socket that is open, [close]
    once to a socket, and runs a timeout once unless it was cleared; a socket
    may start closing by itself (the peer closes, the connection fails). *)
Inductive Event :=
| Commit (url : option string)
| Opened (id : nat)
| Received (id : nat) (data : option Hook.LslSample)
| Errored (id : nat)
| Closing (id : nat)
| Closed (id : nat)
| Timeout (timer : nat)
| Send (data : string)
| Close.

Definition step (reconnectDelay : Z) (w : World) (e : Event) : World :=
  match e with
  | Commit url => commit url w
  | Opened id =>
      match sockets w !! id with
      | Some {| readyState := CONNECTING |} =>
          onopen (with_sockets w (alter (set_readyState OPEN) id (sockets w)))
      | _ => w
      end
  | Received id data =>
      match sockets w !! id with
      | Some {| readyState := OPEN |} => onmessage id data w
      | _ => w
      end
  | Errored id =>
      match sockets w !! id with
      | Some _ => onerror w
      | None => w
      end
  | Closing id =>
      with_sockets w
        (alter (fun ws => set_readyState (closing (readyState ws)) ws) id (sockets w))
  | Closed id =>
      match sockets w !! id with
      | Some ws =>
          match readyState ws with
          | CLOSED => w
          | _ =>
              let w1 := with_sockets w (alter (set_readyState CLOSED) id (sockets w)) in
              if onclose ws then onclosed reconnectDelay w1 else w1
          end
      | None => w
      end
  | Timeout timer =>
      if bool_decide (timer ∈ timers w)
      then connect (with_timers w (filter (fun t => t <> timer) (timers w)))
      else w
  | Send data => send data w
  | Close => close w
  end.

Definition run (reconnectDelay : Z) (w : World) (es : list Event) : World :=
  fold_left (step reconnectDelay) es w.

End Socket.

(** ** Stream discovery ([useLslStreams], [src/hooks/useLslStreams.ts]) *)

Module Discovery.

(** [LslStream] of [src/lib/types.ts]. *)
Record LslStream := {
  uid : string;
  name : string;
  type : string;
  channelCount : Z;
  nominalSrate : float;
  channelFormat : string;
  sourceId : string;
  hostname : string;
  createdAt : float;
  xmlDesc : string;
  channelNames : list string
}.

(** The three [useState] cells. *)
Record State := {
  streams : list LslStream;
  loading : bool;
  error : option string
}.

(** How the request of one [resolve] ends: a response with [res.ok] whose
    body parsed, a response without [res.ok], or a rejection by [fetch] or
    by [res.json()], with the message of the [Error] thrown if it is one. *)
Inductive Outcome :=
| Ok (data : list LslStream)
| NotOk (status : nat) (statusText : string)
| Rejected (message : option string).

Definition initial : State := {| streams := []; loading := false; error := None |}.

(** [resolve] up to its [await]. *)
Definition resolveCalled (s : State) : State :=
  {| streams := streams s; loading := true; error := None |}.

(** [resolve] from the [await] on. *)
Definition resolveSettled (r : Outcome) (s : State) : State :=
  match r with
  | Ok data => {| streams := data; loading := false; error := error s |}
  | NotOk status statusText =>
      {| streams := streams s; loading := false;
         error :=
           Some (String.append "HTTP "
                   (String.append (decimal status) (String.append ": " statusText))) |}
  | Rejected (Some message) =>
      {| streams := streams s; loading := false; error := Some message |}
  | Rejected None =>
      {| streams := streams s; loading := false;
         error := Some "Failed to resolve streams" |}
  end.

Inductive Event :=
| Resolve
| Settled (r : Outcome).

Definition step (s : State) (e : Event) : State :=
  match e with
  | Resolve => resolveCalled s
  | Settled r => resolveSettled r s
  end.

Definition run (s : State) (es : list Event) : State := fold_left step es s.

End Discovery.

(** ** Backend addresses ([src/lib/utils.ts]) *)

Module Utils.

(** [window.location], where it is read. *)
Record Location := {
  hostname : string;
  port : string;
  protocol : string;
  host : string
}.

Definition isLocalhost (location : Location) : bool :=
  String.eqb (hostname location) "localhost"
  || String.eqb (hostname location) "127.0.0.1".

(** [getApiBase]; [window] is [None] where [typeof window] is
    ["undefined"]. *)
Definition getApiBase (window : option Location) : string :=
  match window with
  | Some location =>
      if isLocalhost location && String.eqb (port location) "4321"
      then "http://localhost:8765"
      else ""
  | None => ""
  end.

(** [getWsUrl]; without a [window] the last two lines throw a
    [ReferenceError], which is [None]. *)
Definition getWsUrl (window : option Location) (path : string) : option string :=
  match window with
  | Some location =>
      let proto :=
        if String.eqb (protocol location) "https:" then "wss:" else "ws:" in
      if isLocalhost location && String.eqb (port location) "4321"
      then Some (String.append proto (String.append "//localhost:8765" path))
      else
        Some (String.append proto
                (String.append "//" (String.append (host location) path)))
  | None => None
  end.

Section Formats.

(** [x.toFixed(1)] *)
Variable toFixed1 : float -> string.

(** [formatSampleRate] *)
Definition formatSampleRate (hz : float) : string :=
  if (hz =? 0)%float then "Irregular"
  else if (1000 <=? hz)%float then String.append (toFixed1 (hz / 1000)) " kHz"
  else String.append (toFixed1 hz) " Hz".

End Formats.

End Utils.

(** ** The statistics panel ([StreamStats], [src/components/RecordingControls.tsx]) *)

Module Stats.

(** [rateDeviation]; the sample count of the rate window is a number. *)
Definition rateDeviation (stats : Hook.StreamStatistics) (nominalSrate : float) : float :=
  if (0 <? nominalSrate)%float
  then (abs (f64_of_Z (Hook.actualSampleRate stats) - nominalSrate) / nominalSrate)%float
  else 0%float.

(** [rateClass] *)
Definition rateClass (stats : Hook.StreamStatistics) (nominalSrate : float) : string :=
  if (0.1 <? rateDeviation stats nominalSrate)%float then "stat-warning" else "stat-ok".

(** The text of "Actual Rate". *)
Definition actualRate (toFixed1 : float -> string) (stats : Hook.StreamStatistics)
  : string :=
  Utils.formatSampleRate toFixed1 (f64_of_Z (Hook.actualSampleRate stats)).

End Stats.

(** ** The marker timeline ([src/components/EventMarkerTimeline.tsx]) *)

Module Timeline.

(** One [marker-item]: its React key, the text of [marker-time] and of
    [marker-value]. *)
Record Item := {
  key : nat;
  time : string;
  value : string
}.

(** What the component renders: the empty state, or the heading's count and
    the list. *)
Inductive Element :=
| NoMarkers
| Markers (total : nat) (items : list Item).

Section Render.

(** [x.toFixed(3)] *)
Variable toFixed3 : float -> string.

Definition EventMarkerTimeline (markers : list Hook.Marker) : Element :=
  if (length markers =? 0)%nat then NoMarkers
  else
    let recent := reverse (slice_last 100 markers) in
    Markers (length markers)
      (imap
         (fun i m =>
            {| key := (length markers - i)%nat;
               time := toFixed3 (Hook.timestamp m);
               value := Hook.value m |})
         recent).

End Render.

End Timeline.
(** ** Vocabulary of the statements *)

(** A sample as the transport delivers it: the reading of
    [performance.now()] at its arrival, its LSL timestamp, its values. *)
Record Arrival (A : Type) := {
  arrivedAt : float;
  stamp : float;
  payload : list A
}.
Arguments arrivedAt {A} _.
Arguments stamp {A} _.
Arguments payload {A} _.

Definition numericEvent (a : Arrival float) : Hook.Event :=
  Hook.Message (arrivedAt a) (Hook.numeric (stamp a) (payload a)).

Definition markerEvent (a : Arrival string) : Hook.Event :=
  Hook.Message (arrivedAt a) (Hook.marker (stamp a) (payload a)).

(** The sample that [onMessage] takes from an event of a numeric stream,
    if any: a message with a timestamp and an array, whose elements are
    stored as numbers. *)
Definition acceptedWrite (js : Hook.Engine) (e : Hook.Event) : option (Arrival float) :=
  match e with
  | Hook.Message perfNow (Some {| Hook.t := Some ts; Hook.d := Some payload |}) =>
      Some {| arrivedAt := perfNow; stamp := ts; payload := Hook.asNumbers js payload |}
  | _ => None
  end.

(** The sample that [onMessage] takes from an event of a string stream, if
    any. *)
Definition acceptedMarker (js : Hook.Engine) (e : Hook.Event) : option (Arrival string) :=
  match e with
  | Hook.Message perfNow (Some {| Hook.t := Some ts; Hook.d := Some payload |}) =>
      Some {| arrivedAt := perfNow; stamp := ts; payload := Hook.asStrings js payload |}
  | _ => None
  end.

(** The accepted samples of a history, oldest first. *)
Definition writesOf (js : Hook.Engine) (es : list Hook.Event) : list (Arrival float) :=
  omap (acceptedWrite js) es.

Definition markersOf (js : Hook.Engine) (es : list Hook.Event) : list (Arrival string) :=
  omap (acceptedMarker js) es.

(** The log entry that [onMessage] builds from a marker sample. *)
Definition entryOf (a : Arrival string) : Hook.Marker :=
  {| Hook.timestamp := stamp a; Hook.value := join ", " (payload a) |}.

(** [now] as [onMessage] computes it from the clock reading. *)
Definition seconds (perfNow : float) : float := (perfNow / 1000)%float.

(** The arrival times, in seconds, of the accepted samples of a history. *)
Definition arrivalTimes (js : Hook.Engine) (es : list Hook.Event) : list float :=
  (fun a => seconds (arrivedAt a)) <$> writesOf js es.

(** [cutoff] as [onMessage] computes it. *)
Definition cutoffOf (now : float) : float := (now - 1)%float.

(** [x <= y] holds. *)
Definition f64_le (x y : float) : Prop := (x <=? y)%float = true.

(** Successive readings never decrease. *)
Fixpoint nondecreasing (xs : list float) : bool :=
  match xs with
  | x :: (y :: _) as rest => (x <=? y)%float && nondecreasing rest
  | _ => true
  end.

(** The worlds a mounted hook can be in. *)
Inductive reachable (js : Hook.Engine) (o : Hook.Options) : Hook.World -> Prop :=
| reachable_mount : reachable js o Hook.mount
| reachable_step w e : reachable js o w -> reachable js o (Hook.step js o w e).

(** Events that neither run nor cancel a requested frame: the messages and
    the renders between two display refreshes. *)
Definition betweenFrames (e : Hook.Event) : bool :=
  match e with
  | Hook.Message _ _ | Hook.Render _ _ => true
  | Hook.AnimationFrame | Hook.Disconnect => false
  end.

(** The circular store of a hook state: buffers, timestamps, write head,
    sample count. *)
Definition ring (s : Hook.State) : list (list float) * list float * Z * Z :=
  (Hook.buffersRef s, Hook.tsRef s, Hook.writeHeadRef s, Hook.sampleCountRef s).

(** The store as "Ensure buffers match current stream" allocates it. *)
Definition fresh (o : Hook.Options) (s : Hook.State) : Prop :=
  ring s =
  (replicate (Z.to_nat (Hook.channelCount o)) (Float64Array (Hook.bufferSize o)),
   Float64Array (Hook.bufferSize o), 0, 0).

(** The effect of one accepted write on the store. *)
Definition ringWrite (o : Hook.Options) (r : list (list float) * list float * Z * Z)
    (a : Arrival float) : list (list float) * list float * Z * Z :=
  let '(buffers, ts, head, count) := r in
  (Hook.writeChannels buffers (payload a) head,
   f64_set ts head (stamp a),
   Z.rem (head + 1) (Hook.bufferSize o),
   Z.min (count + 1) (Hook.bufferSize o)).


(** The props [App] hands to the chart: the buffers and counters the hook
    returned, the names and the rate of the selected stream. *)
Definition chartProps (r : Hook.UseStreamDataReturn) (names : list string)
    (srate : float) : Chart.Props :=
  {| Chart.channelBuffers := Hook.channelBuffers r;
     Chart.timestamps := Hook.timestamps r;
     Chart.sampleCount := Hook.sampleCount r;
     Chart.writeHead := Hook.writeHead r;
     Chart.channelNames := names;
     Chart.nominalSrate := srate |}.

(** The in-flight flag and the browser agree: the callbacks pending are
    exactly the one whose handle [rafRef] holds, if any. *)
Definition frame_in_flight (w : Hook.World) : Prop :=
  match Hook.rafRef (Hook.hook w) with
  | Some id => Hook.rafPending w = [id]
  | None => Hook.rafPending w = []
  end.

(** A frame has been requested and not yet run. *)
Definition frame_requested (w : Hook.World) : Prop :=
  exists id, Hook.rafRef (Hook.hook w) = Some id /\ Hook.rafPending w = [id].

(** [ctx.measureText(s).width <= maxWidth] *)
Definition fits (measureText : string -> float) (maxWidth : float) (s : string) : bool :=
  (measureText s <=? maxWidth)%float.

(** The store has the shape "Ensure buffers match current stream" gives it:
    one array for every channel, all of the capacity, and both counters
    within it. *)
Definition allocated (o : Hook.Options) (s : Hook.State) : Prop :=
  length (Hook.buffersRef s) = Z.to_nat (Hook.channelCount o)
  /\ Forall (fun buf => length buf = Z.to_nat (Hook.bufferSize o)) (Hook.buffersRef s)
  /\ length (Hook.tsRef s) = Z.to_nat (Hook.bufferSize o)
  /\ 0 <= Hook.writeHeadRef s < Hook.bufferSize o
  /\ 0 <= Hook.sampleCountRef s <= Hook.bufferSize o.

(** An index, and not NaN, at which every array of the props holds an
    element. *)
Definition inside (p : Chart.Props) (idx : option Z) : Prop :=
  exists i,
    idx = Some i
    /\ 0 <= i < Z.of_nat (length (Chart.timestamps p))
    /\ Forall (fun buf => i < Z.of_nat (length buf)) (Chart.channelBuffers p).

(** A message that [onMessage] returns from at once: no object, no
    timestamp, or no payload. *)
Definition malformed (e : Hook.Event) : bool :=
  match e with
  | Hook.Message _ (Some {| Hook.t := Some _; Hook.d := Some _ |}) => false
  | Hook.Message _ _ => true
  | _ => false
  end.

(** The cells that only the numeric branch of [onMessage] and the frame it
    requests ever change. *)
Definition untouched (w : Hook.World) : Prop :=
  Hook.statsRef (Hook.hook w) = Hook.initialStats
  /\ Hook.rateWindowRef (Hook.hook w) = []
  /\ Hook.sampleCountRef (Hook.hook w) = 0
  /\ Hook.writeHeadRef (Hook.hook w) = 0
  /\ Hook.dirtyRef (Hook.hook w) = false
  /\ Hook.rafRef (Hook.hook w) = None
  /\ Hook.rafPending w = []
  /\ Hook.tick (Hook.hook w) = 0.

(** The order [Array.prototype.sort] puts indices in: that of their decimal
    forms. *)
Definition before (a b : nat) : Prop := Chart.sort_leb a b = true.

(** What the timeline shows of an element. *)
Definition itemsOf (e : Timeline.Element) : list Timeline.Item :=
  match e with
  | Timeline.NoMarkers => []
  | Timeline.Markers _ items => items
  end.

(** The worlds a mounted [useWebSocket] can be in. *)
Inductive live (reconnectDelay : Z) : Socket.World -> Prop :=
| live_mount url : live reconnectDelay (Socket.mount url)
| live_step w e :
    live reconnectDelay w -> live reconnectDelay (Socket.step reconnectDelay w e).

(** A socket that can still open or deliver messages. *)
Definition active (ws : Socket.WebSocket) : Prop :=
  Socket.readyState ws = Socket.CONNECTING \/ Socket.readyState ws = Socket.OPEN.

(** A socket the hook is done with: it is closed, or the hook has taken its
    [onclose] handler off and called [close()] on it. *)
Definition retired (ws : Socket.WebSocket) : Prop :=
  Socket.readyState ws = Socket.CLOSED
  \/ (Socket.readyState ws = Socket.CLOSING /\ Socket.onclose ws = false).

(** The socket [wsRef] holds listens for [close], is not closed, and was
    made for the URL in [urlRef]; every other socket is retired. *)
Definition sockets_ok (current : option nat) (currentUrl : option string)
    (sockets : list Socket.WebSocket) : Prop :=
  forall id ws, sockets !! id = Some ws ->
    if bool_decide (current = Some id)
    then Socket.onclose ws = true /\ Socket.readyState ws <> Socket.CLOSED
         /\ currentUrl = Some (Socket.url ws)
    else retired ws.

(** What every event keeps true of a mounted [useWebSocket]. *)
Definition one_connection (w : Socket.World) : Prop :=
  sockets_ok (Socket.wsRef (Socket.hook w)) (Socket.urlRef (Socket.hook w))
    (Socket.sockets w)
  /\ (forall id, Socket.wsRef (Socket.hook w) = Some id ->
        (id < length (Socket.sockets w))%nat)
  /\ (forall u, Socket.committed w = Some u -> Socket.urlRef (Socket.hook w) = u)
  /\ (Socket.wsRef (Socket.hook w) <> None \/ Socket.timers w <> [] ->
      Socket.truthy (Socket.urlRef (Socket.hook w)) = true
      /\ Socket.committed w <> None)
  /\ (Socket.timers w = []
      \/ (Socket.wsRef (Socket.hook w) = None
          /\ exists t, Socket.timers w = [t]
                       /\ Socket.reconnectTimer (Socket.hook w) = Some t))
  /\ (forall t, t ∈ Socket.timers w -> (t < Socket.timerNext w)%nat).

(** Nothing is connected and nothing is scheduled. *)
Definition quiet (w : Socket.World) : Prop :=
  Socket.wsRef (Socket.hook w) = None
  /\ Socket.timers w = []
  /\ Forall retired (Socket.sockets w)
  /\ (Socket.state (Socket.hook w) = Hook.closed
      \/ Socket.state (Socket.hook w) = Hook.error).

Definition isCommit (e : Socket.Event) : bool :=
  match e with
  | Socket.Commit _ => true
  | _ => false
  end.

(** An event after which the hook is to stay disconnected: a call of the
    returned [close], or a commit that changes [url] to [null] or to the
    empty string. *)
Definition hangsUp (w : Socket.World) (e : Socket.Event) : Prop :=
  match e with
  | Socket.Close => True
  | Socket.Commit url =>
      Socket.truthy url = false
      /\ forall last, Socket.committed w = Some last -> Socket.sameUrl last url = false
  | _ => False
  end.

(** The stream list a discovery event delivers, if it is a successful
    response. *)
Definition fetched (e : Discovery.Event) : option (list Discovery.LslStream) :=
  match e with
  | Discovery.Settled (Discovery.Ok data) => Some data
  | _ => None
  end.

(** The maximum (or, below, the minimum) of a scan can move no further:
    it is infinite or no number, and nothing compares beyond it. *)
Definition stuck_above (x : float) : Prop :=
  is_finite x = false /\ forall y, (x <? y)%float = false.

Definition stuck_below (x : float) : Prop :=
  is_finite x = false /\ forall y, (y <? x)%float = false.

(** What the reported state says of the socket held: "open" only with a
    socket that has opened and is not closed, "connecting" only with a
    socket. *)
Definition state_has_socket (w : Socket.World) : Prop :=
  (Socket.state (Socket.hook w) = Hook.open ->
   exists id ws,
     Socket.wsRef (Socket.hook w) = Some id /\ Socket.sockets w !! id = Some ws
     /\ (Socket.readyState ws = Socket.OPEN \/ Socket.readyState ws = Socket.CLOSING))
  /\ (Socket.state (Socket.hook w) = Hook.connecting ->
      exists id, Socket.wsRef (Socket.hook w) = Some id).

(** The values a buffer holds at the samples inside the window, oldest
    first. *)
Definition windowValues (p : Chart.Props) (startTime : float) (buf : list float)
  : list float :=
  f64_at buf <$> Chart.windowIndices p startTime.

(** The values all active channels hold at the samples inside the window,
    channel after channel. *)
Definition overlayValues (p : Chart.Props) (startTime : float) (active : list nat)
  : list float :=
  active ≫= fun chIdx =>
    windowValues p startTime (default [] (Chart.channelBuffers p !! chIdx)).

(** A render that observes the connection closed. *)
Definition observedClosed (e : Hook.Event) : bool :=
  match e with
  | Hook.Render Hook.closed _ => true
  | _ => false
  end.

(** The clock reading of a render that observes the connection open. *)
Definition observedOpen (e : Hook.Event) : option float :=
  match e with
  | Hook.Render Hook.open perfNow => Some perfNow
  | _ => None
  end.

(** The events of a history that follow the last render that observed the
    connection closed: the whole history when there is none. *)
Fixpoint sinceClosed (es : list Hook.Event) : list Hook.Event :=
  match es with
  | [] => []
  | e :: es' => if existsb observedClosed (e :: es') then sinceClosed es' else e :: es'
  end.

(** The clock reading of the render that first observed the connection open
    since it was last observed closed, if there is one. *)
Definition firstObservedOpen (es : list Hook.Event) : option float :=
  head (omap observedOpen (sinceClosed es)).

(** [performance.now()] reads a positive time at a render. *)
Definition clockRuns (e : Hook.Event) : bool :=
  match e with
  | Hook.Render _ perfNow => (0 <? seconds perfNow)%float
  | _ => true
  end.

(** ** The page: the chart under the hook, as [App] composes them *)

Module Page.

(** A stream of the discovered list as [App] holds it in [selectedStream]:
    the parsed object, and the number that names its [channelNames] array
    among the objects of the page. *)
Record Selected := {
  stream : Discovery.LslStream;
  namesRef : Chart.Ref
}.

(** What stays the same while the page is up: the conversions of the
    engine, the [bufferSize] the hook is given (2048 in [App], which passes
    none), the widths the canvas measures and its [toFixed(1)]. *)
Record Setting := {
  js : Hook.Engine;
  bufferSize : Z;
  measureText : string -> float;
  toFixed1 : float -> string
}.

(** [stream?.channelCount ?? 0] and [stream?.channelFormat === "string"]. *)
Definition optionsOf (env : Setting) (selected : option Selected) : Hook.Options :=
  {| Hook.channelCount :=
       match selected with
       | Some sel => Discovery.channelCount (stream sel)
       | None => 0
       end;
     Hook.bufferSize := bufferSize env;
     Hook.isStringStream :=
       match selected with
       | Some sel => String.eqb (Discovery.channelFormat (stream sel)) "string"
       | None => false
       end |}.

(** The page between two events: [selectedStream]; the hook with the frames
    the browser holds for it; the options that the [onMessage] of the last
    render closed over; the arrays in [buffersRef] and [tsRef], which are
    made together, named by how many times they were made; the
    [sampleCount] and [writeHead] of the last render, which the chart keeps
    as props until [App] renders again; the chart while it is on the page;
    and, for the record, every frame drawn so far. *)
Record State := {
  selected : option Selected;
  world : Hook.World;
  handler : Hook.Options;
  storeRef : Chart.Ref;
  sampleCountProp : Z;
  writeHeadProp : Z;
  chart : option Chart.Instance;
  drawn : list Chart.Frame
}.

(** The page before the first render of [App]. *)
Definition mount (env : Setting) : State :=
  {| selected := None; world := Hook.mount; handler := optionsOf env None;
     storeRef := 0%nat; sampleCountProp := 0; writeHeadProp := 0;
     chart := None; drawn := [] |}.

(** The test of "Ensure buffers match current stream": whether a render
    makes new arrays. *)
Definition allocates (o : Hook.Options) (s : Hook.State) : bool :=
  (0 <? Hook.channelCount o)
  && negb (Z.of_nat (length (Hook.buffersRef s)) =? Hook.channelCount o).

(** The props of the chart: the arrays the hook holds, the counters of the
    last render, the names and the rate of the selected stream. *)
Definition propsOf (sel : Selected) (s : State) : Chart.Props :=
  {| Chart.channelBuffers := Hook.buffersRef (Hook.hook (world s));
     Chart.timestamps := Hook.tsRef (Hook.hook (world s));
     Chart.sampleCount := sampleCountProp s;
     Chart.writeHead := writeHeadProp s;
     Chart.channelNames := Discovery.channelNames (stream sel);
     Chart.nominalSrate := Discovery.nominalSrate (stream sel) |}.

Definition refsOf (sel : Selected) (s : State) : Chart.PropRefs :=
  {| Chart.channelBuffersRef := storeRef s;
     Chart.timestampsRef := storeRef s;
     Chart.channelNamesRef := namesRef sel |}.

(** The chart renders, for the first time if it is not on the page, and its
    effects run.  [App] passes no [windowSeconds]: the default 5 applies. *)
Definition renderChart (env : Setting) (sel : Selected) (vp : Chart.Viewport)
    (s : State) : State :=
  let '(c, frames) :=
    Chart.renderChart (measureText env) (toFixed1 env) (refsOf sel s) (propsOf sel s)
      vp 5 (chart s) in
  {| selected := selected s; world := world s; handler := handler s;
     storeRef := storeRef s;
     sampleCountProp := sampleCountProp s; writeHeadProp := writeHeadProp s;
     chart := Some c; drawn := drawn s ++ frames |}.

(** One render of [App]: the body of [useStreamData] with the options of the
    selected stream and the connection state [useWebSocket] reports, then
    the chart with what the hook returned, if a stream is selected and its
    format is not "string"; otherwise no chart is on the page.  The effects
    of the render run with it, before another event is handled. *)
Definition render (env : Setting) (ws : Hook.WsState) (perfNow : float)
    (vp : Chart.Viewport) (s : State) : State :=
  let o := optionsOf env (selected s) in
  let w := Hook.step (js env) o (world s) (Hook.Render ws perfNow) in
  let r := Hook.result ws (Hook.hook w) in
  let s1 :=
    {| selected := selected s; world := w; handler := o;
       storeRef :=
         if allocates o (Hook.hook (world s)) then S (storeRef s) else storeRef s;
       sampleCountProp := Hook.sampleCount r; writeHeadProp := Hook.writeHead r;
       chart := chart s; drawn := drawn s |} in
  match selected s with
  | Some sel =>
      if Hook.isStringStream o
      then {| selected := selected s1; world := world s1; handler := handler s1;
              storeRef := storeRef s1;
              sampleCountProp := sampleCountProp s1; writeHeadProp := writeHeadProp s1;
              chart := None; drawn := drawn s1 |}
      else renderChart env sel vp s1
  | None =>
      {| selected := selected s1; world := world s1; handler := handler s1;
         storeRef := storeRef s1;
         sampleCountProp := sampleCountProp s1; writeHeadProp := writeHeadProp s1;
         chart := None; drawn := drawn s1 |}
  end.

(** [handleSelectStream]: the new [selectedStream] after a click on a stream
    of the list. *)
Definition handleSelectStream (clicked : Selected) (current : option Selected)
  : option Selected :=
  match current with
  | Some sel =>
      if String.eqb (Discovery.uid (stream sel)) (Discovery.uid (stream clicked))
      then None
      else Some clicked
  | None => Some clicked
  end.

(** A click on a stream: [handleSelectStream] calls [disconnect], whose
    [close] sets the connection state to "closed", and stores the selection
    (and a downsampling factor, which enters the address of the socket
    only); [App] renders with both before anything else happens. *)
Definition select (env : Setting) (clicked : Selected) (perfNow : float)
    (vp : Chart.Viewport) (s : State) : State :=
  render env Hook.closed perfNow vp
    {| selected := handleSelectStream clicked (selected s);
       world := Hook.disconnect (world s); handler := handler s;
       storeRef := storeRef s;
       sampleCountProp := sampleCountProp s; writeHeadProp := writeHeadProp s;
       chart := chart s; drawn := drawn s |}.

(** A control of the chart: the cell is updated and the chart renders again
    with the props it has. *)
Definition control (env : Setting) (c : Chart.Control) (vp : Chart.Viewport)
    (s : State) : State :=
  match selected s, chart s with
  | Some sel, Some inst =>
      renderChart env sel vp
        {| selected := selected s; world := world s; handler := handler s;
           storeRef := storeRef s;
           sampleCountProp := sampleCountProp s; writeHeadProp := writeHeadProp s;
           chart := Some (Chart.controlChart c inst); drawn := drawn s |}
  | _, _ => s
  end.

Definition with_world (s : State) (w : Hook.World) : State :=
  {| selected := selected s; world := w; handler := handler s;
     storeRef := storeRef s;
     sampleCountProp := sampleCountProp s; writeHeadProp := writeHeadProp s;
     chart := chart s; drawn := drawn s |}.

(** What can happen on the page. *)
Inductive Event :=
| Select (clicked : Selected) (perfNow : float) (vp : Chart.Viewport)
| Render (ws : Hook.WsState) (perfNow : float) (vp : Chart.Viewport)
| Message (perfNow : float) (data : option Hook.LslSample)
| AnimationFrame
| Control (c : Chart.Control) (vp : Chart.Viewport).

Definition step (env : Setting) (s : State) (e : Event) : State :=
  match e with
  | Select clicked perfNow vp => select env clicked perfNow vp s
  | Render ws perfNow vp => render env ws perfNow vp s
  | Message perfNow data =>
      with_world s (Hook.onMessage (js env) (handler s) perfNow data (world s))
  | AnimationFrame => with_world s (Hook.animationFrame (world s))
  | Control c vp => control env c vp s
  end.

Definition run (env : Setting) (s : State) (es : list Event) : State :=
  fold_left (step env) es s.

End Page.

(** The pages a mounted [App] can show. *)
Inductive showing (env : Page.Setting) : Page.State -> Prop :=
| showing_mount : showing env (Page.mount env)
| showing_step s e : showing env s -> showing env (Page.step env s e).

(** The messages among the events of the page, as events of the hook. *)
Definition messagesOf (es : list Page.Event) : list Hook.Event :=
  omap (fun e => match e with
                 | Page.Message perfNow data => Some (Hook.Message perfNow data)
                 | _ => None
                 end) es.

(** Events that neither render [App] nor run a frame: the messages and the
    uses of the controls of the chart. *)
Definition betweenRenders (e : Page.Event) : bool :=
  match e with
  | Page.Message _ _ | Page.Control _ _ => true
  | _ => false
  end.

Definition isMessage (e : Page.Event) : bool :=
  match e with
  | Page.Message _ _ => true
  | _ => false
  end.

(** The chart was last rendered with the props and the cells the page
    holds: the dependencies it keeps are those of the counters it was given,
    of the arrays the hook holds, of the names of the selected stream and of
    its own cells. *)
Definition rendered_as_given (sel : Page.Selected) (s : Page.State)
    (chart : Chart.Instance) : Prop :=
  Chart.rendered chart
  = Chart.depsOf (Page.refsOf sel s) (Page.propsOf sel s) (Chart.view chart)
      (Chart.visibleRef chart)
  /\ Chart.namesLength chart = length (Discovery.channelNames (Page.stream sel)).

(** The store as the chart is given it: the arrays and the two counters
    among its props. *)
Definition shownRing (p : Chart.Props) : list (list float) * list float * Z * Z :=
  (Chart.channelBuffers p, Chart.timestamps p, Chart.writeHead p, Chart.sampleCount p).

(** ** Concrete inputs *)

(** Conversions for histories whose payloads are of the declared variant and
    never reach them. *)
Definition plain : Hook.Engine :=
  {| Hook.toNumber := fun _ => nan; Hook.toText := fun _ => "" |}.

Definition numeric_stream : Hook.Options :=
  {| Hook.channelCount := 1; Hook.bufferSize := 2048; Hook.isStringStream := false |}.

Definition string_stream : Hook.Options :=
  {| Hook.channelCount := 1; Hook.bufferSize := 2048; Hook.isStringStream := true |}.

(** Two channels over a store of three samples. *)
Definition two_channels : Hook.Options :=
  {| Hook.channelCount := 2; Hook.bufferSize := 3; Hook.isStringStream := false |}.

Definition two_channels_mounted : Hook.World :=
  Hook.step plain two_channels Hook.mount (Hook.Render Hook.connecting 0).

(** Five writes, with the renders and the display refresh that come between
    them in a running page. *)
Definition five_writes : list Hook.Event :=
  [ Hook.Render Hook.open 990;
    Hook.Message 1000 (Hook.numeric 10 [1; 2]%float);
    Hook.Message 1010 (Hook.numeric 11 [3; 4]%float);
    Hook.AnimationFrame;
    Hook.Render Hook.open 1016;
    Hook.Message 1020 (Hook.numeric 12 [5; 6]%float);
    Hook.Message 1030 (Hook.numeric 13 [7; 8]%float);
    Hook.Message 1040 (Hook.numeric 14 [9; 10]%float) ].

Definition after_five_writes : Hook.World :=
  Hook.run plain two_channels two_channels_mounted five_writes.

(** A write that carries one value for two channels. *)
Definition short_write : Arrival float :=
  {| arrivedAt := 1050; stamp := 15; payload := [11]%float |}.

Definition after_short_write : Hook.World :=
  Hook.step plain two_channels after_five_writes (numericEvent short_write).

(** Six hundred markers. *)
Definition six_hundred : list Hook.Event :=
  (fun i => Hook.Message 0 (Hook.marker (f64_of_nat i) ["m"; decimal i])) <$> seq 0 600.

(** Nine samples 50 ms apart, the first at [performance.now() = 1000], after
    the render that saw the connection open; the tenth follows at 1450. *)
Definition nine_arrivals : list Hook.Event :=
  Hook.Render Hook.open 900
  :: ((fun i =>
         Hook.Message (1000 + 50 * f64_of_nat i) (Hook.numeric (f64_of_nat i) [0%float]))
        <$> seq 0 9).

Definition tenth_arrival : Arrival float :=
  {| arrivedAt := 1450; stamp := 9; payload := [0%float] |}.

(** A hook that saw the connection open at 10 s and accepted a sample at
    12 s. *)
Definition connected_one_sample : Hook.World :=
  Hook.run plain numeric_stream Hook.mount
    [ Hook.Render Hook.open 10000;
      Hook.Message 12000 (Hook.numeric 100 [5%float]) ].

Definition second_sample : Arrival float :=
  {| arrivedAt := 13000; stamp := 101; payload := [5%float] |}.

(** The same hook after a second sample at 13 s. *)
Definition connected_two_samples : Hook.World :=
  Hook.step plain numeric_stream connected_one_sample (numericEvent second_sample).

(** The connection is then seen closed, or seen in error. *)
Definition seen_closed : Hook.World :=
  Hook.step plain numeric_stream connected_two_samples (Hook.Render Hook.closed 14000).

Definition seen_error : Hook.World :=
  Hook.step plain numeric_stream connected_two_samples (Hook.Render Hook.error 14000).

(** A fixed-pitch font: seven units a character. *)
Definition fixed_pitch (s : string) : float := (7 * f64_of_nat (String.length s))%float.

(** A font whose every text has width 0. *)
Definition zero_width (s : string) : float := 0%float.

(** [x.toFixed(1)] for inputs that never reach it. *)
Definition no_toFixed (x : float) : string := "".

(** One channel holding 5.0 in its three valid samples. *)
Definition constant_five : Chart.Props :=
  {| Chart.channelBuffers := [ [5; 5; 5; 0]%float ];
     Chart.timestamps := [100; 101; 102; 0]%float;
     Chart.sampleCount := 3;
     Chart.writeHead := 3;
     Chart.channelNames := ["Fz"];
     Chart.nominalSrate := 100 |}.


Definition five_second_lanes : Chart.View :=
  {| Chart.paused := false; Chart.windowSeconds := 5; Chart.stacked := true;
     Chart.visibleChannels := [0%nat] |}.


Definition small_canvas : Chart.Viewport :=
  {| Chart.dpr := 1; Chart.width := 800; Chart.height := 400 |}.





(** Both channels shown, the second one listed first. *)
Definition second_first : Chart.View :=
  {| Chart.paused := false; Chart.windowSeconds := 5; Chart.stacked := true;
     Chart.visibleChannels := [1%nat; 0%nat] |}.

(** What the chart is given after the five writes. *)
Definition five_writes_props : Chart.Props :=
  chartProps (Hook.result Hook.open (Hook.hook after_five_writes)) ["Fz"; "Cz"] 100.

(** Twelve channels, one sample each, all shown. *)
Definition twelve_channels : Chart.Props :=
  {| Chart.channelBuffers := replicate 12 [1%float];
     Chart.timestamps := [100%float];
     Chart.sampleCount := 1;
     Chart.writeHead := 0;
     Chart.channelNames := (fun i => String.append "E" (decimal i)) <$> seq 0 12;
     Chart.nominalSrate := 100 |}.

Definition twelve_shown : Chart.View :=
  Chart.initialView (Chart.channelNames twelve_channels) 5.


(** [x.toFixed(3)] for inputs whose time column is not looked at. *)
Definition no_toFixed3 (x : float) : string := "".

(** A hook that connected to one stream, saw the connection open, and was
    then given the address of another stream. *)
Definition switched_streams : Socket.World :=
  Socket.run 3000 (Socket.mount (Some "ws://localhost:8765/api/stream/a"))
    [ Socket.Commit (Some "ws://localhost:8765/api/stream/a");
      Socket.Opened 0;
      Socket.Commit (Some "ws://localhost:8765/api/stream/b");
      Socket.Opened 1 ].

(** What may follow a call of [close]: the old sockets report their end, a
    late timer, an attempt to send. *)
Definition aftermath : list Socket.Event :=
  [ Socket.Errored 0; Socket.Closed 1; Socket.Closed 0; Socket.Timeout 0;
    Socket.Send "ping"; Socket.Opened 1;
    Socket.Received 1 (Hook.numeric 1 [2%float]) ].

(** One channel whose second sample is infinite. *)
Definition one_infinite : Chart.Props :=
  {| Chart.channelBuffers := [ [1; infinity; 3]%float ];
     Chart.timestamps := [100; 101; 102]%float;
     Chart.sampleCount := 3;
     Chart.writeHead := 0;
     Chart.channelNames := ["Fz"];
     Chart.nominalSrate := 100 |}.

Definition plain_margin : Chart.Margin :=
  {| Chart.margin_top := 8; Chart.margin_right := 12; Chart.margin_bottom := 24;
     Chart.margin_left := 90 |}.

(** A page whose hook keeps two samples, with the fixed-pitch font. *)
Definition small_page : Page.Setting :=
  {| Page.js := plain; Page.bufferSize := 2;
     Page.measureText := fixed_pitch; Page.toFixed1 := no_toFixed |}.

(** A stream of one numeric channel, as the backend lists it. *)
Definition fz : Page.Selected :=
  {| Page.stream :=
       {| Discovery.uid := "fz-1"; Discovery.name := "EEG"; Discovery.type := "EEG";
          Discovery.channelCount := 1; Discovery.nominalSrate := 100;
          Discovery.channelFormat := "float32"; Discovery.sourceId := "amp";
          Discovery.hostname := "lab"; Discovery.createdAt := 0;
          Discovery.xmlDesc := ""; Discovery.channelNames := ["Fz"] |};
     Page.namesRef := 0%nat |}.

(** The page after [App] has rendered, the stream was clicked, and the
    connection was seen connecting and then open. *)
Definition fz_open : Page.State :=
  Page.run small_page (Page.mount small_page)
    [ Page.Render Hook.closed 0 small_canvas;
      Page.Select fz 100 small_canvas;
      Page.Render Hook.connecting 101 small_canvas;
      Page.Render Hook.open 150 small_canvas ].

(** A display refresh, two samples, and the next refresh with the render
    that follows it. *)
Definition two_samples_refreshed (perfNow stamp : float) : list Page.Event :=
  [ Page.AnimationFrame;
    Page.Message perfNow (Hook.numeric stamp [1%float]);
    Page.Message (perfNow + 4) (Hook.numeric (stamp + 1) [2%float]);
    Page.AnimationFrame;
    Page.Render Hook.open (perfNow + 16) small_canvas ].

(** The same page with its two slots filled and drawn. *)
Definition fz_full : Page.State :=
  Page.run small_page fz_open (two_samples_refreshed 200 10).

(** The same page paused by the button of the chart. *)
Definition fz_paused : Page.State :=
  Page.step small_page fz_open (Page.Control Chart.PauseResume small_canvas).

(** A display refresh, a sample, and then a click on the selected stream,
    which deselects it. *)
Definition sample_then_click : list Page.Event :=
  [ Page.AnimationFrame;
    Page.Message 200 (Hook.numeric 10 [1%float]);
    Page.Select fz 210 small_canvas ].

(** A display refresh and two samples, then a render of [App] for another
    reason (the connection state is reported again) before the next refresh
    and the render it forces. *)
Definition two_samples_rendered_early : list Page.Event :=
  [ Page.AnimationFrame;
    Page.Message 200 (Hook.numeric 10 [1%float]);
    Page.Message 204 (Hook.numeric 11 [2%float]);
    Page.Render Hook.open 206 small_canvas ].

Definition refresh_and_render : list Page.Event :=
  [ Page.AnimationFrame; Page.Render Hook.open 216 small_canvas ].

(** * Properties *)

(** ** Binary64 order facts *)

(** The comparisons of primitive floats are those of [SpecFloat]; on the
    specification side the order is lexicographic and the facts below follow
    by cases. *)
Ltac sf_cases :=
  repeat match goal with
  | |- context [Pos.compare_cont Eq ?a ?b] =>
      change (Pos.compare_cont Eq a b) with (Pos.compare a b)
  | H : context [Pos.compare_cont Eq ?a ?b] |- _ =>
      change (Pos.compare_cont Eq a b) with (Pos.compare a b) in H
  end;
  repeat match goal with
  | H : context [Z.compare ?a ?b] |- _ => destruct (Z.compare_spec a b); simpl in H
  | H : context [Pos.compare ?a ?b] |- _ => destruct (Pos.compare_spec a b); simpl in H
  | |- context [Z.compare ?a ?b] => destruct (Z.compare_spec a b); simpl
  | |- context [Pos.compare ?a ?b] => destruct (Pos.compare_spec a b); simpl
  end;
  try discriminate; try reflexivity; try lia.

Ltac sf_order :=
  unfold SFleb, SFltb, SFeqb, SFcompare;
  repeat match goal with
  | x : spec_float |- _ => destruct x as [[]|[]| |[] ? ?]
  end;
  simpl; intros; try discriminate; try reflexivity; sf_cases.

Lemma SF_leb_trans a b c : SFleb a b = true -> SFleb b c = true -> SFleb a c = true.
Proof. sf_order. Qed.

Lemma SF_leb_ltb_trans a b c : SFleb a b = true -> SFltb b c = true -> SFltb a c = true.
Proof. sf_order. Qed.

Lemma SF_ltb_leb_trans a b c : SFltb a b = true -> SFleb b c = true -> SFltb a c = true.
Proof. sf_order. Qed.

Lemma SF_ltb_not_leb a b : SFltb a b = true -> SFleb b a = false.
Proof. sf_order. Qed.

Lemma SF_leb_not_ltb a b : SFleb a b = true -> SFltb b a = false.
Proof. sf_order. Qed.

(** Two numbers (neither is NaN) are ordered one way or the other. *)
Lemma SF_not_leb_ltb a b c :
  SFleb a a = true -> SFltb c b = true -> SFleb a b = false -> SFltb b a = true.
Proof. sf_order. Qed.

Lemma SF_finite_order x :
  SFeqb x x = true -> SFeqb (SFabs x) (S754_infinity false) = false ->
  SFltb x (S754_infinity false) = true
  /\ SFltb (S754_infinity true) x = true
  /\ SFltb x x = false.
Proof.
  unfold SFeqb, SFltb, SFcompare.
  destruct x as [[]|[]| |[] m e]; simpl; intros; try discriminate; split_and!;
    try reflexivity; sf_cases.
Qed.

Module F64.

Lemma leb_trans (a b c : float) :
  (a <=? b)%float = true -> (b <=? c)%float = true -> (a <=? c)%float = true.
Proof. rewrite !leb_spec. apply SF_leb_trans. Qed.

Lemma leb_ltb_trans (a b c : float) :
  (a <=? b)%float = true -> (b <? c)%float = true -> (a <? c)%float = true.
Proof. rewrite !leb_spec, !ltb_spec. apply SF_leb_ltb_trans. Qed.

Lemma ltb_leb_trans (a b c : float) :
  (a <? b)%float = true -> (b <=? c)%float = true -> (a <? c)%float = true.
Proof. rewrite !leb_spec, !ltb_spec. apply SF_ltb_leb_trans. Qed.

Lemma ltb_not_leb (a b : float) :
  (a <? b)%float = true -> (b <=? a)%float = false.
Proof. rewrite ltb_spec, leb_spec. apply SF_ltb_not_leb. Qed.

Lemma leb_not_ltb (a b : float) :
  (a <=? b)%float = true -> (b <? a)%float = false.
Proof. rewrite ltb_spec, leb_spec. apply SF_leb_not_ltb. Qed.

Lemma not_leb_ltb (a b c : float) :
  (a <=? a)%float = true -> (c <? b)%float = true ->
  (a <=? b)%float = false -> (b <? a)%float = true.
Proof. rewrite !ltb_spec, !leb_spec. apply SF_not_leb_ltb. Qed.

(** A finite number lies strictly between the infinities and equals
    itself. *)
Lemma finite_order (v : float) :
  is_finite v = true ->
  (v <? infinity)%float = true /\ (neg_infinity <? v)%float = true
  /\ (v <? v)%float = false /\ (v =? v)%float = true.
Proof.
  unfold is_finite, is_nan, is_infinity. intros Hfin.
  apply negb_true_iff, orb_false_iff in Hfin as [Hnan Hinf].
  apply negb_false_iff in Hnan.
  pose proof Hnan as Heq.
  rewrite FloatAxioms.eqb_spec in Hnan, Hinf. rewrite FloatAxioms.abs_spec in Hinf.
  change (Prim2SF infinity) with (S754_infinity false) in Hinf.
  destruct (SF_finite_order _ Hnan Hinf) as (H1 & H2 & H3).
  rewrite !ltb_spec.
  change (Prim2SF infinity) with (S754_infinity false).
  change (Prim2SF neg_infinity) with (S754_infinity true).
  by split_and!.
Qed.

Lemma nondecreasing_sorted (xs : list float) :
  nondecreasing xs = true -> StronglySorted f64_le xs.
Proof.
  induction xs as [|x [|y rest] IH]; intros Hnd.
  - constructor.
  - repeat constructor.
  - simpl in Hnd. apply andb_prop in Hnd as [Hxy Hrest].
    specialize (IH Hrest). apply StronglySorted_cons. split; [|exact IH].
    apply StronglySorted_cons in IH as [Hy _].
    constructor; [exact Hxy|].
    eapply Forall_impl; [exact Hy|]. intros z Hyz. by eapply leb_trans.
Qed.

End F64.

Lemma SF_ltb_leb a b : SFltb a b = true -> SFleb a b = true.
Proof. sf_order. Qed.

Lemma SF_leb_refl a : SFeqb a a = true -> SFleb a a = true.
Proof. sf_order. Qed.

Lemma SF_not_ltb_leb a b :
  SFeqb a a = true -> SFeqb b b = true -> SFltb a b = false -> SFleb b a = true.
Proof. sf_order. Qed.

Lemma F64_ltb_leb (a b : float) : (a <? b)%float = true -> (a <=? b)%float = true.
Proof. rewrite ltb_spec, leb_spec. apply SF_ltb_leb. Qed.

Lemma F64_leb_refl (a : float) : is_nan a = false -> (a <=? a)%float = true.
Proof.
  unfold is_nan. intros Ha. apply negb_false_iff in Ha.
  rewrite FloatAxioms.eqb_spec in Ha. rewrite leb_spec. by apply SF_leb_refl.
Qed.

(** Two numbers of which the first is not below the second: the second
    is at most the first. *)
Lemma F64_not_ltb_leb (a b : float) :
  is_nan a = false -> is_nan b = false ->
  (a <? b)%float = false -> (b <=? a)%float = true.
Proof.
  unfold is_nan. intros Ha Hb. apply negb_false_iff in Ha, Hb.
  rewrite FloatAxioms.eqb_spec in Ha, Hb. rewrite ltb_spec, leb_spec.
  by apply SF_not_ltb_leb.
Qed.

(** A finite value is a number. *)
Lemma finite_not_nan (v : float) : is_finite v = true -> is_nan v = false.
Proof.
  unfold is_finite. intros H. apply negb_true_iff, orb_false_iff in H. tauto.
Qed.

(** ** Lists *)

Lemma filter_all {A} (P : A -> Prop) `{!forall x, Decision (P x)} (l : list A) :
  Forall P l -> filter P l = l.
Proof.
  induction 1 as [|x l Hx Hl IH]; [done|].
  rewrite filter_cons_True by done. by rewrite IH.
Qed.

Lemma StronglySorted_filter {A} (R : relation A) (P : A -> Prop)
    `{!forall x, Decision (P x)} (l : list A) :
  StronglySorted R l -> StronglySorted R (filter P l).
Proof.
  induction 1 as [|x l Hl IH Hx]; [constructor|].
  rewrite filter_cons. destruct (decide (P x)); [|exact IH].
  constructor; [exact IH|].
  apply Forall_forall. intros y Hy. apply list_elem_of_filter in Hy as [_ Hy].
  by eapply Forall_forall in Hx.
Qed.

Lemma slice_last_all {A} (n : nat) (xs : list A) :
  (length xs <= n)%nat -> slice_last n xs = xs.
Proof.
  intros Hle. unfold slice_last.
  replace (length xs - n)%nat with 0%nat by lia. reflexivity.
Qed.

Lemma slice_last_length {A} (n : nat) (xs : list A) :
  length (slice_last n xs) = Nat.min (length xs) n.
Proof. unfold slice_last. rewrite length_drop. lia. Qed.

Lemma slice_last_snoc {A} (n : nat) (xs : list A) (x : A) :
  (0 < n)%nat -> slice_last n (slice_last n xs ++ [x]) = slice_last n (xs ++ [x]).
Proof.
  intros Hn. unfold slice_last.
  rewrite !length_app, length_drop. simpl.
  destruct (decide (length xs <= n)%nat) as [Hle|Hgt].
  - replace (length xs - n)%nat with 0%nat by lia. rewrite drop_0.
    f_equal. lia.
  - rewrite (drop_app_le xs) by lia.
    rewrite (drop_app_le (drop _ xs)) by (rewrite length_drop; lia).
    rewrite drop_drop. do 2 f_equal. lia.
Qed.

Lemma omap_snoc {A B} (f : A -> option B) (l : list A) (x : A) :
  omap f (l ++ [x]) = omap f l ++ match f x with Some y => [y] | None => [] end.
Proof. rewrite omap_app. simpl. by destruct (f x). Qed.

(** ** Histories of a hook *)

Lemma run_snoc (js : Hook.Engine) (o : Hook.Options) (w : Hook.World)
    (es : list Hook.Event) (e : Hook.Event) :
  Hook.run js o w (es ++ [e]) = Hook.step js o (Hook.run js o w es) e.
Proof. unfold Hook.run. by rewrite fold_left_app. Qed.

Lemma run_app (js : Hook.Engine) (o : Hook.Options) (w : Hook.World)
    (es es' : list Hook.Event) :
  Hook.run js o w (es ++ es') = Hook.run js o (Hook.run js o w es) es'.
Proof. unfold Hook.run. by rewrite fold_left_app. Qed.

(** A stretch of a session under one stream is a history of the hook. *)
Lemma run_under (js : Hook.Engine) (o : Hook.Options) (w : Hook.World)
    (es : list Hook.Event) :
  Session.run js w (Session.under o es) = Hook.run js o w es.
Proof.
  revert w. induction es as [|e es IH]; intros w; [done|]. simpl. apply IH.
Qed.

Lemma reachable_run (js : Hook.Engine) (o : Hook.Options) (w : Hook.World)
    (es : list Hook.Event) :
  reachable js o w -> reachable js o (Hook.run js o w es).
Proof.
  revert w. induction es as [|e es IH]; intros w Hw; [exact Hw|].
  simpl. apply IH. by constructor.
Qed.

(** In a numeric stream an accepted event acts as the write it carries. *)
Lemma acceptedWrite_step (js : Hook.Engine) (o : Hook.Options) (w : Hook.World)
    (e : Hook.Event) (a : Arrival float) :
  Hook.isStringStream o = false ->
  acceptedWrite js e = Some a ->
  Hook.step js o w e = Hook.step js o w (numericEvent a).
Proof.
  intros Hs.
  destruct e as [perfNow [[[ts|] [payload|]]|]|ws perfNow| |]; simpl;
    intros [= <-]; simpl. by rewrite Hs.
Qed.

(** In a string stream an accepted event acts as the marker it carries. *)
Lemma acceptedMarker_step (js : Hook.Engine) (o : Hook.Options) (w : Hook.World)
    (e : Hook.Event) (a : Arrival string) :
  Hook.isStringStream o = true ->
  acceptedMarker js e = Some a ->
  Hook.step js o w e = Hook.step js o w (markerEvent a).
Proof.
  intros Hs.
  destruct e as [perfNow [[[ts|] [payload|]]|]|ws perfNow| |]; simpl;
    intros [= <-]; simpl. by rewrite Hs.
Qed.

Lemma frames_keep (s : Hook.State) (pending : list Z) :
  let s' := fold_left (fun s _ => Hook.frameCallback s) pending s in
  ring s' = ring s
  /\ Hook.statsRef s' = Hook.statsRef s
  /\ Hook.rateWindowRef s' = Hook.rateWindowRef s
  /\ Hook.connectTimeRef s' = Hook.connectTimeRef s
  /\ Hook.markersState s' = Hook.markersState s.
Proof.
  revert s. induction pending as [|id pending IH]; intros s; [done|].
  simpl. destruct (IH (Hook.frameCallback s)) as (-> & -> & -> & -> & ->). done.
Qed.

(** ** The sample ring buffer *)

Lemma f64_set_length (a : list float) (i : Z) (v : float) :
  length (f64_set a i v) = length a.
Proof. unfold f64_set. destruct (i <? 0); [done|]. apply length_insert. Qed.

Lemma f64_set_lookup_eq (a : list float) (i : Z) (v : float) :
  0 <= i < Z.of_nat (length a) -> f64_set a i v !! Z.to_nat i = Some v.
Proof.
  intros Hi. unfold f64_set.
  destruct (Z.ltb_spec i 0); [lia|]. apply list_lookup_insert_eq. lia.
Qed.

Lemma f64_set_lookup_ne (a : list float) (i : Z) (v : float) (n : nat) :
  Z.of_nat n <> i -> f64_set a i v !! n = a !! n.
Proof.
  intros Hne. unfold f64_set.
  destruct (Z.ltb_spec i 0); [done|]. apply list_lookup_insert_ne. lia.
Qed.

Lemma writeChannels_length (buffers : list (list float)) (channels : list float)
    (head : Z) :
  length (Hook.writeChannels buffers channels head) = length buffers.
Proof.
  revert channels. induction buffers as [|buf buffers IH]; intros [|v channels];
    simpl; auto.
Qed.

(** The channel loop writes channel [ch] exactly when the sample has a value
    for it and the store has a buffer for it. *)
Lemma writeChannels_lookup (buffers : list (list float)) (channels : list float)
    (head : Z) (ch : nat) :
  Hook.writeChannels buffers channels head !! ch
  = (fun buf => match channels !! ch with
                | Some v => f64_set buf head v
                | None => buf
                end) <$> buffers !! ch.
Proof.
  revert channels ch.
  induction buffers as [|buf buffers IH]; intros [|v channels] [|ch]; simpl; auto.
  by destruct (buffers !! ch).
Qed.

Lemma step_numeric_ring (js : Hook.Engine) (o : Hook.Options) (w : Hook.World)
    (a : Arrival float) :
  Hook.isStringStream o = false ->
  ring (Hook.hook (Hook.step js o w (numericEvent a))) = ringWrite o (ring (Hook.hook w)) a.
Proof.
  intros Hs. simpl. rewrite Hs. unfold Hook.scheduleRender. simpl.
  by destruct (Hook.rafRef (Hook.hook w)).
Qed.

(** Nothing but an accepted write touches an allocated store. *)
Lemma step_other_ring (js : Hook.Engine) (o : Hook.Options) (w : Hook.World)
    (e : Hook.Event) :
  Hook.isStringStream o = false ->
  acceptedWrite js e = None ->
  length (Hook.buffersRef (Hook.hook w)) = Z.to_nat (Hook.channelCount o) ->
  ring (Hook.hook (Hook.step js o w e)) = ring (Hook.hook w).
Proof.
  intros Hs Hrej Hlen.
  destruct e as [perfNow [[[ts|] [[channels|values]|]]|]|ws perfNow| |]; simpl;
    rewrite ?Hs; try done.
  - unfold Hook.ensureBuffers.
    destruct (Z.ltb_spec 0 (Hook.channelCount o)) as [Hpos|Hneg]; simpl.
    + rewrite Hlen, Z2Nat.id, Z.eqb_refl by lia. simpl.
      unfold Hook.trackConnectTime.
      by destruct (Hook.WsState_eqb ws Hook.open && _), (Hook.WsState_eqb ws Hook.closed).
    + unfold Hook.trackConnectTime.
      by destruct (Hook.WsState_eqb ws Hook.open && _), (Hook.WsState_eqb ws Hook.closed).
  - by destruct (frames_keep (Hook.hook w) (Hook.rafPending w)) as [-> _].
  - unfold Hook.disconnect. by destruct (Hook.rafRef (Hook.hook w)).
Qed.

Lemma ringWrite_channels (o : Hook.Options) (writes : list (Arrival float))
    (r : list (list float) * list float * Z * Z) :
  length (fold_left (ringWrite o) writes r).1.1.1 = length r.1.1.1.
Proof.
  revert r. induction writes as [|a writes IH]; intros [[[buffers ts] head] count];
    [done|].
  simpl. rewrite IH. simpl. apply writeChannels_length.
Qed.

(** The store of a numeric stream is the fold of the accepted writes over
    the store it started from. *)
Lemma run_ring (js : Hook.Engine) (o : Hook.Options) (w0 : Hook.World)
    (es : list Hook.Event) :
  Hook.isStringStream o = false ->
  length (Hook.buffersRef (Hook.hook w0)) = Z.to_nat (Hook.channelCount o) ->
  ring (Hook.hook (Hook.run js o w0 es))
  = fold_left (ringWrite o) (writesOf js es) (ring (Hook.hook w0)).
Proof.
  intros Hs Hlen. induction es as [|e es IH] using rev_ind; [done|].
  rewrite run_snoc. unfold writesOf in *. rewrite omap_snoc.
  destruct (acceptedWrite js e) as [a|] eqn:He.
  - rewrite (acceptedWrite_step js o _ e a Hs He).
    rewrite step_numeric_ring, IH by done. by rewrite fold_left_app.
  - rewrite app_nil_r, step_other_ring; [exact IH|done..|].
    change (Hook.buffersRef ?s) with (ring s).1.1.1.
    by rewrite IH, ringWrite_channels.
Qed.

Lemma mod_slots_differ (k W C : Z) :
  0 < W - k < C -> k mod C <> W mod C.
Proof.
  intros Hd Heq.
  assert ((W - k) mod C = 0) as H0.
  { rewrite Zminus_mod, Heq, Z.sub_diag. apply Z.mod_0_l. lia. }
  rewrite Z.mod_small in H0 by lia. lia.
Qed.

(** After [W] writes into a fresh store, write number [k] (from 0) sits at
    index [k mod C] for as long as fewer than [C] writes followed it. *)
Lemma ring_after_writes (o : Hook.Options) (writes : list (Arrival float))
    (buffers : list (list float)) (ts : list float) (head count : Z) :
  0 < Hook.bufferSize o ->
  fold_left (ringWrite o) writes
    (replicate (Z.to_nat (Hook.channelCount o)) (Float64Array (Hook.bufferSize o)),
     Float64Array (Hook.bufferSize o), 0, 0)
  = (buffers, ts, head, count) ->
  let W := Z.of_nat (length writes) in
  let C := Hook.bufferSize o in
  head = W mod C
  /\ count = Z.min W C
  /\ length ts = Z.to_nat C
  /\ length buffers = Z.to_nat (Hook.channelCount o)
  /\ (forall ch buf, buffers !! ch = Some buf -> length buf = Z.to_nat C)
  /\ forall (k : nat) (a : Arrival float),
       writes !! k = Some a -> W - Z.of_nat k <= C ->
       ts !! Z.to_nat (Z.of_nat k mod C) = Some (stamp a)
       /\ forall ch v buf,
            payload a !! ch = Some v -> buffers !! ch = Some buf ->
            buf !! Z.to_nat (Z.of_nat k mod C) = Some v.
Proof.
  intros HC. cbv zeta. revert buffers ts head count.
  induction writes as [|a writes IH] using rev_ind; intros buffers ts head count Hfold.
  - simpl in Hfold. injection Hfold as <- <- <- <-. unfold Float64Array.
    split_and!.
    + rewrite Z.mod_0_l; lia.
    + simpl. lia.
    + apply length_replicate.
    + apply length_replicate.
    + intros ch buf Hlk. apply lookup_replicate in Hlk as [-> _].
      apply length_replicate.
    + intros k a Hk. by rewrite lookup_nil in Hk.
  - rewrite fold_left_app in Hfold. simpl in Hfold.
    destruct (fold_left (ringWrite o) writes _) as [[[buffers0 ts0] head0] count0] eqn:Hprev.
    destruct (IH _ _ _ _ eq_refl) as (Hhead & Hcount & Hlen & Hchans & Hbufs & Hcells).
    simpl in Hfold. injection Hfold as <- <- <- <-.
    set (C := Hook.bufferSize o) in *.
    rewrite length_app. simpl length.
    set (W := Z.of_nat (length writes)) in *.
    replace (Z.of_nat (length writes + 1)) with (W + 1) by lia.
    assert (0 <= W mod C < C) as Hmod by (apply Z.mod_pos_bound; lia).
    assert (0 <= W) as HW by lia.
    assert (forall k : nat, 0 < W - Z.of_nat k < C ->
              Z.of_nat (Z.to_nat (Z.of_nat k mod C)) <> head0) as Hother.
    { intros k Hk. rewrite Hhead, Z2Nat.id by (apply Z.mod_pos_bound; lia).
      by apply mod_slots_differ. }
    split_and!.
    + rewrite Hhead, Z.rem_mod_nonneg by lia.
      by rewrite Zplus_mod_idemp_l.
    + rewrite Hcount. lia.
    + by rewrite f64_set_length.
    + by rewrite writeChannels_length.
    + intros ch buf. rewrite writeChannels_lookup.
      destruct (buffers0 !! ch) as [buf0|] eqn:Hb0; [|done].
      simpl. intros [= <-].
      destruct (payload a !! ch); [rewrite f64_set_length|]; by eapply Hbufs.
    + intros k a' Hk Hrecent.
      destruct (decide (k = length writes)) as [->|Hne].
      * rewrite list_lookup_middle in Hk by done. injection Hk as <-.
        fold W. split.
        { rewrite Hhead. apply f64_set_lookup_eq. lia. }
        intros ch v buf Hv. rewrite writeChannels_lookup.
        destruct (buffers0 !! ch) as [buf0|] eqn:Hb0; [|done].
        simpl. intros [= <-]. rewrite Hv, Hhead. apply f64_set_lookup_eq.
        rewrite (Hbufs ch buf0 Hb0). lia.
      * assert (k < length writes)%nat as Hlt.
        { apply lookup_lt_Some in Hk. rewrite length_app in Hk. simpl in Hk. lia. }
        rewrite lookup_app_l in Hk by done.
        destruct (Hcells k a' Hk ltac:(lia)) as [Hts Hvals].
        assert (0 < W - Z.of_nat k < C) as Hd by lia.
        split.
        { rewrite f64_set_lookup_ne; [done|]. by apply Hother. }
        intros ch v buf Hv. rewrite writeChannels_lookup.
        destruct (buffers0 !! ch) as [buf0|] eqn:Hb0; [|done].
        simpl. intros [= <-].
        specialize (Hvals ch v buf0 Hv Hb0).
        destruct (payload a !! ch); [rewrite f64_set_lookup_ne|]; try done.
        by apply Hother.
Qed.

(** The first render of a hook with a stream allocates the store. *)
Lemma first_render_fresh (js : Hook.Engine) (o : Hook.Options) (ws : Hook.WsState)
    (perfNow : float) :
  0 < Hook.channelCount o ->
  fresh o (Hook.hook (Hook.step js o Hook.mount (Hook.Render ws perfNow))).
Proof.
  intros Hn. unfold fresh, ring, Hook.step, Hook.render, Hook.with_hook.
  cbn [fst Hook.hook]. unfold Hook.ensureBuffers.
  change (Hook.buffersRef (Hook.hook Hook.mount)) with (@nil (list float)).
  rewrite (proj2 (Z.ltb_lt _ _) Hn).
  rewrite (proj2 (Z.eqb_neq (Z.of_nat (length (@nil (list float)))) _))
    by (simpl; lia).
  destruct ws; reflexivity.
Qed.

(** C1.  After any history over a freshly allocated store of capacity
    C > 0 in which W numeric writes were accepted: sampleCount = min(W, C),
    writeHead = W mod C, and for every i in [0, sampleCount) the index
    (writeHead - sampleCount + i) mod C, which is the index [draw] computes
    from what the hook returns, holds the timestamp and the channel values
    of write number W - sampleCount + 1 + i. *)
Theorem ring_buffer_holds_recent_writes (js : Hook.Engine) (o : Hook.Options)
    (w0 : Hook.World)
    (es : list Hook.Event) (ws : Hook.WsState) (names : list string) (srate : float) :
  0 < Hook.bufferSize o ->
  Hook.isStringStream o = false ->
  fresh o (Hook.hook w0) ->
  let s := Hook.hook (Hook.run js o w0 es) in
  let writes := writesOf js es in
  let W := Z.of_nat (length writes) in
  let C := Hook.bufferSize o in
  Hook.sampleCountRef s = Z.min W C
  /\ Hook.writeHeadRef s = W mod C
  /\ forall i : Z, 0 <= i < Hook.sampleCountRef s ->
       let idx := (Hook.writeHeadRef s - Hook.sampleCountRef s + i) mod C in
       Chart.sampleIndex (chartProps (Hook.result ws s) names srate) i = Some idx
       /\ exists a : Arrival float,
            writes !! Z.to_nat (W - Hook.sampleCountRef s + i) = Some a
            /\ Hook.tsRef s !! Z.to_nat idx = Some (stamp a)
            /\ forall (ch : nat) (v : float),
                 payload a !! ch = Some v -> Z.of_nat ch < Hook.channelCount o ->
                 Hook.buffersRef s !! ch ≫= (.!! Z.to_nat idx) = Some v.
Proof.
  intros HC Hs Hfresh s writes W C.
  assert (ring s = fold_left (ringWrite o) writes (ring (Hook.hook w0))) as Hring.
  { apply run_ring; [done|]. unfold fresh, ring in Hfresh.
    injection Hfresh as -> _ _ _. apply length_replicate. }
  rewrite Hfresh in Hring.
  destruct (ring_after_writes o writes _ _ _ _ HC (eq_sym Hring))
    as (Hhead & Hcount & Hlen & Hchans & Hbufs & Hcells).
  fold W C in Hhead, Hcount, Hlen, Hchans, Hbufs, Hcells.
  split_and!; [done..|].
  intros i Hi idx.
  assert (0 <= W) as HW by (subst W; lia).
  assert (0 <= W mod C < C) as Hmod by (apply Z.mod_pos_bound; lia).
  set (k := W - Hook.sampleCountRef s + i).
  assert (0 <= k < W) as Hk by (subst k; lia).
  assert (idx = k mod C) as Hidx.
  { subst idx k. rewrite Hhead.
    assert (W - Hook.sampleCountRef s + i
            = W mod C - Hook.sampleCountRef s + i + (W / C) * C) as ->
      by (pose proof (Z.div_mod W C); lia).
    by rewrite Z_mod_plus_full. }
  split.
  { unfold Chart.sampleIndex, chartProps, js_rem. simpl.
    rewrite Hlen, Z2Nat.id by lia. fold C.
    rewrite (proj2 (Z.eqb_neq C 0)) by lia. f_equal.
    rewrite Z.rem_mod_nonneg by lia.
    subst idx. rewrite <- (Z_mod_plus_full (_ - _ + i) 1 C). f_equal. lia. }
  destruct (lookup_lt_is_Some_2 writes (Z.to_nat k)) as [a Ha]; [lia|].
  exists a. split; [exact Ha|].
  destruct (Hcells (Z.to_nat k) a Ha ltac:(lia)) as [Hts Hvals].
  rewrite Z2Nat.id in Hts, Hvals by lia. rewrite Hidx.
  split; [exact Hts|].
  intros ch v Hv Hch.
  destruct (lookup_lt_is_Some_2 (Hook.buffersRef s) ch) as [buf Hbuf]; [lia|].
  rewrite Hbuf. simpl. by eapply Hvals.
Qed.

Lemma ring_buffer_holds_recent_writes_witness :
  Hook.sampleCountRef (Hook.hook after_five_writes) = 3
  /\ Hook.writeHeadRef (Hook.hook after_five_writes) = 2
  /\ Hook.tsRef (Hook.hook after_five_writes) = [13; 14; 12]%float
  /\ Hook.buffersRef (Hook.hook after_five_writes) = [ [7; 9; 5]; [8; 10; 6] ]%float.
Proof.
  pose proof (ring_buffer_holds_recent_writes plain two_channels two_channels_mounted
                five_writes Hook.open [] 0%float ltac:(reflexivity) eq_refl eq_refl) as H.
  split_and!; [exact (proj1 H) | exact (proj1 (proj2 H)) | reflexivity..].
Defined.

(** C9.  A write of L values stores the timestamp and the first
    min(L, channelCount) values at the write head; channels from L on, and
    every cell at another index, keep what they held; no channel is added
    for values beyond the channel count. *)
Theorem write_touches_only_head_slot (js : Hook.Engine) (o : Hook.Options)
    (w : Hook.World)
    (a : Arrival float) :
  Hook.isStringStream o = false ->
  let s := Hook.hook w in
  let s' := Hook.hook (Hook.step js o w (numericEvent a)) in
  let head := Hook.writeHeadRef s in
  (0 <= head < Z.of_nat (length (Hook.tsRef s)) ->
     Hook.tsRef s' !! Z.to_nat head = Some (stamp a))
  /\ (forall n : nat, Z.of_nat n <> head -> Hook.tsRef s' !! n = Hook.tsRef s !! n)
  /\ length (Hook.tsRef s') = length (Hook.tsRef s)
  /\ length (Hook.buffersRef s') = length (Hook.buffersRef s)
  /\ forall (ch : nat) (buf : list float),
       Hook.buffersRef s !! ch = Some buf ->
       exists buf' : list float,
         Hook.buffersRef s' !! ch = Some buf'
         /\ length buf' = length buf
         /\ (forall n : nat, Z.of_nat n <> head -> buf' !! n = buf !! n)
         /\ match payload a !! ch with
            | Some v =>
                0 <= head < Z.of_nat (length buf) -> buf' !! Z.to_nat head = Some v
            | None => buf' = buf
            end.
Proof.
  intros Hs s s' head.
  pose proof (step_numeric_ring js o w a Hs) as Hring.
  unfold ring, ringWrite in Hring. fold s s' head in Hring.
  assert (Hook.buffersRef s' = Hook.writeChannels (Hook.buffersRef s) (payload a) head)
    as -> by congruence.
  assert (Hook.tsRef s' = f64_set (Hook.tsRef s) head (stamp a)) as -> by congruence.
  split_and!.
  - apply f64_set_lookup_eq.
  - intros n Hn. by apply f64_set_lookup_ne.
  - apply f64_set_length.
  - apply writeChannels_length.
  - intros ch buf Hbuf. rewrite writeChannels_lookup, Hbuf. simpl.
    eexists. split; [reflexivity|].
    destruct (payload a !! ch) as [v|]; split_and!; try done.
    + apply f64_set_length.
    + intros n Hn. by apply f64_set_lookup_ne.
    + apply f64_set_lookup_eq.
Qed.

Lemma write_touches_only_head_slot_witness :
  Hook.tsRef (Hook.hook after_short_write) !! 2%nat = Some 15%float
  /\ Hook.buffersRef (Hook.hook after_short_write) = [ [7; 9; 11]; [8; 10; 6] ]%float.
Proof.
  pose proof (write_touches_only_head_slot plain two_channels after_five_writes
                short_write eq_refl) as H.
  split; [exact (proj1 H ltac:(vm_compute; split; congruence)) | reflexivity].
Defined.

(** ** The rate tracker *)

(** On readings in non-decreasing order, evicting from the front removes
    exactly the readings before the cutoff. *)
Lemma evict_sorted (q : list float) (cutoff : float) :
  StronglySorted f64_le q ->
  Hook.evict q cutoff = filter (fun t => (t <? cutoff)%float = false) q.
Proof.
  induction 1 as [|x q Hq IH Hx]; [done|].
  simpl. rewrite filter_cons.
  destruct (x <? cutoff)%float eqn:Hlt.
  - rewrite decide_False by done. exact IH.
  - rewrite decide_True by done. f_equal. symmetry.
    apply filter_all. eapply Forall_impl; [exact Hx|].
    intros y Hxy. destruct (y <? cutoff)%float eqn:Hy; [|done].
    by rewrite (F64.leb_ltb_trans x y cutoff Hxy Hy) in Hlt.
Qed.

Lemma step_numeric_rate (js : Hook.Engine) (o : Hook.Options) (w : Hook.World)
    (a : Arrival float) :
  Hook.isStringStream o = false ->
  let s := Hook.hook w in
  let s' := Hook.hook (Hook.step js o w (numericEvent a)) in
  let now := seconds (arrivedAt a) in
  Hook.rateWindowRef s' = Hook.evict (Hook.rateWindowRef s ++ [now]) (cutoffOf now)
  /\ Hook.actualSampleRate (Hook.statsRef s') = Z.of_nat (length (Hook.rateWindowRef s')).
Proof.
  intros Hs. simpl. rewrite Hs. unfold Hook.scheduleRender. simpl.
  by destruct (Hook.rafRef (Hook.hook w)).
Qed.

Lemma step_render_cells (js : Hook.Engine) (o : Hook.Options) (w : Hook.World)
    (ws : Hook.WsState)
    (perfNow : float) :
  let s := Hook.hook w in
  let s' := Hook.hook (Hook.step js o w (Hook.Render ws perfNow)) in
  Hook.statsRef s' = Hook.statsRef s
  /\ Hook.rateWindowRef s' = Hook.rateWindowRef s
  /\ Hook.markersState s' = Hook.markersState s
  /\ Hook.connectTimeRef s'
     = if Hook.WsState_eqb ws Hook.closed then 0%float
       else if Hook.WsState_eqb ws Hook.open && (Hook.connectTimeRef s =? 0)%float
            then seconds perfNow
            else Hook.connectTimeRef s.
Proof.
  simpl. unfold Hook.trackConnectTime, Hook.ensureBuffers.
  destruct ((0 <? Hook.channelCount o) && _); simpl;
    destruct (Hook.WsState_eqb ws Hook.open && _), (Hook.WsState_eqb ws Hook.closed);
    simpl; auto.
Qed.

(** Nothing but an accepted write touches the rate window. *)
Lemma step_other_rate (js : Hook.Engine) (o : Hook.Options) (w : Hook.World)
    (e : Hook.Event) :
  Hook.isStringStream o = false ->
  acceptedWrite js e = None ->
  Hook.rateWindowRef (Hook.hook (Hook.step js o w e)) = Hook.rateWindowRef (Hook.hook w).
Proof.
  intros Hs Hrej.
  destruct e as [perfNow [[[ts|] [[channels|values]|]]|]|ws perfNow| |];
    try (simpl; rewrite ?Hs; done).
  - by destruct (step_render_cells js o w ws perfNow) as (_ & -> & _).
  - simpl. by destruct (frames_keep (Hook.hook w) (Hook.rafPending w)) as (_ & _ & -> & _).
  - simpl. unfold Hook.disconnect. by destruct (Hook.rafRef (Hook.hook w)).
Qed.

(** The window holds the arrivals that are not before the cutoff of the
    latest one. *)
Lemma rate_window_after_history (js : Hook.Engine) (o : Hook.Options)
    (es : list Hook.Event) :
  Hook.isStringStream o = false ->
  StronglySorted f64_le (arrivalTimes js es) ->
  StronglySorted f64_le (cutoffOf <$> arrivalTimes js es) ->
  Hook.rateWindowRef (Hook.hook (Hook.run js o Hook.mount es))
  = match last (arrivalTimes js es) with
    | Some now => filter (fun t => (t <? cutoffOf now)%float = false) (arrivalTimes js es)
    | None => []
    end.
Proof.
  intros Hs. induction es as [|e es IH] using rev_ind; intros Hnows Hcuts; [done|].
  rewrite run_snoc. unfold arrivalTimes, writesOf in *. rewrite omap_snoc in *.
  destruct (acceptedWrite js e) as [a|] eqn:He.
  2:{ rewrite app_nil_r in *. rewrite step_other_rate by done. by apply IH. }
  rewrite (acceptedWrite_step js o _ e a Hs He).
  rewrite !fmap_app in *.
  change ((fun a => seconds (arrivedAt a)) <$> [a]) with [seconds (arrivedAt a)] in *.
  change (cutoffOf <$> [seconds (arrivedAt a)]) with [cutoffOf (seconds (arrivedAt a))] in *.
  destruct (step_numeric_rate js o (Hook.run js o Hook.mount es) a Hs) as [-> _].
  rewrite IH by (by eapply StronglySorted_app_1_l).
  set (nows := (fun a => seconds (arrivedAt a)) <$> omap (acceptedWrite js) es) in *.
  set (now := seconds (arrivedAt a)) in *.
  rewrite last_snoc.
  assert (filter (fun t => (t <? cutoffOf now)%float = false)
            (match last nows with
             | Some m => filter (fun t => (t <? cutoffOf m)%float = false) nows
             | None => []
             end)
          = filter (fun t => (t <? cutoffOf now)%float = false) nows) as Hkeep.
  { destruct (last nows) as [m|] eqn:Hlast.
    - apply list_filter_filter_l. intros t Ht.
      destruct (t <? cutoffOf m)%float eqn:Hm; [|done].
      assert (f64_le (cutoffOf m) (cutoffOf now)) as Hle.
      { eapply (StronglySorted_app_1_elem_of f64_le);
          [exact Hcuts| |apply list_elem_of_singleton; reflexivity].
        apply (list_elem_of_fmap_2 cutoffOf). by apply last_Some_elem_of. }
      by rewrite (F64.ltb_leb_trans _ _ _ Hm Hle) in Ht.
    - apply last_None in Hlast. by rewrite Hlast. }
  rewrite evict_sorted.
  - rewrite !filter_app. by rewrite Hkeep.
  - apply StronglySorted_app in Hnows as (Hcross & Hl & Hr).
    apply StronglySorted_app_2;
      [|destruct (last nows); [by apply StronglySorted_filter|constructor]|done].
    intros x1 x2 Hx1. apply Hcross.
    destruct (last nows); [|by apply not_elem_of_nil in Hx1].
    by apply list_elem_of_filter in Hx1 as [_ ?].
Qed.

(** C7.  After an accepted write, actualSampleRate is the number of accepted
    writes of the whole history whose arrival is not before the current
    arrival minus one second, for a clock whose readings, and the cutoffs
    computed from them, never decrease. *)
Theorem rate_counts_trailing_second (js : Hook.Engine) (o : Hook.Options)
    (es : list Hook.Event)
    (current : Arrival float) :
  Hook.isStringStream o = false ->
  let history := es ++ [numericEvent current] in
  let now := seconds (arrivedAt current) in
  nondecreasing (arrivalTimes js history) = true ->
  nondecreasing (cutoffOf <$> arrivalTimes js history) = true ->
  Hook.actualSampleRate (Hook.statsRef (Hook.hook (Hook.run js o Hook.mount history)))
  = Z.of_nat (length (filter (fun t => (t <? cutoffOf now)%float = false)
                        (arrivalTimes js history))).
Proof.
  intros Hs. cbv zeta. intros Hnows Hcuts.
  apply F64.nondecreasing_sorted in Hnows, Hcuts.
  pose proof (rate_window_after_history js o (es ++ [numericEvent current]) Hs Hnows Hcuts)
    as Hq.
  rewrite run_snoc in Hq |- *.
  destruct (step_numeric_rate js o (Hook.run js o Hook.mount es) current Hs) as [_ ->].
  rewrite Hq. unfold arrivalTimes, writesOf. rewrite omap_snoc, fmap_app. simpl.
  by rewrite last_snoc.
Qed.

Lemma rate_counts_trailing_second_witness :
  Hook.actualSampleRate
    (Hook.statsRef
       (Hook.hook (Hook.run plain numeric_stream Hook.mount
                     (nine_arrivals ++ [numericEvent tenth_arrival]))))
  = 10.
Proof.
  exact (rate_counts_trailing_second plain numeric_stream nine_arrivals tenth_arrival
           eq_refl eq_refl eq_refl).
Defined.

(** ** Statistics and the connection state *)

(** C3, as the code has it.  A render that observes the closed state clears
    the recorded connect time; one that observes connecting or error leaves
    it; no connection state resets the statistics or the rate window. *)
Theorem render_clears_connect_time_only (js : Hook.Engine) (o : Hook.Options)
    (w : Hook.World)
    (ws : Hook.WsState) (perfNow : float) :
  let s := Hook.hook w in
  let s' := Hook.hook (Hook.step js o w (Hook.Render ws perfNow)) in
  Hook.statsRef s' = Hook.statsRef s
  /\ Hook.rateWindowRef s' = Hook.rateWindowRef s
  /\ (ws = Hook.closed -> Hook.connectTimeRef s' = 0%float)
  /\ (ws = Hook.connecting \/ ws = Hook.error ->
      Hook.connectTimeRef s' = Hook.connectTimeRef s).
Proof.
  intros s s'.
  destruct (step_render_cells js o w ws perfNow) as (Hstats & Hrate & _ & Hconn).
  fold s s' in Hstats, Hrate, Hconn.
  split_and!; [done..| |].
  - intros ->. by rewrite Hconn.
  - intros [-> | ->]; by rewrite Hconn.
Qed.

Lemma render_clears_connect_time_only_witness :
  Hook.connectTimeRef (Hook.hook seen_closed) = 0%float
  /\ Hook.connectTimeRef (Hook.hook seen_error) = 10%float.
Proof.
  split.
  - exact (proj1 (proj2 (proj2 (render_clears_connect_time_only plain numeric_stream
             connected_two_samples Hook.closed 14000))) eq_refl).
  - exact (proj2 (proj2 (proj2 (render_clears_connect_time_only plain numeric_stream
             connected_two_samples Hook.error 14000))) (or_intror eq_refl)).
Defined.

(** C3 as stated fails: the connection was seen open and two samples were
    accepted; once it is seen closed the statistics still count them, and
    once it is seen in error the connect time is still recorded. *)
Lemma statistics_survive_disconnect :
  Hook.statsRef (Hook.hook seen_closed) <> Hook.initialStats
  /\ Hook.connectTimeRef (Hook.hook seen_error) <> 0%float.
Proof.
  split; intros H.
  - apply (f_equal Hook.totalSamples) in H. vm_compute in H. discriminate.
  - apply (f_equal (fun x => (x =? 0)%float)) in H. vm_compute in H. discriminate.
Qed.

Lemma step_numeric_uptime (js : Hook.Engine) (o : Hook.Options) (w : Hook.World)
    (a : Arrival float) :
  Hook.isStringStream o = false ->
  let s := Hook.hook w in
  let s' := Hook.hook (Hook.step js o w (numericEvent a)) in
  Hook.connectTimeRef s' = Hook.connectTimeRef s
  /\ Hook.connectionUptime (Hook.statsRef s')
     = if (0 <? Hook.connectTimeRef s)%float
       then (seconds (arrivedAt a) - Hook.connectTimeRef s)%float
       else Hook.connectionUptime (Hook.statsRef s).
Proof.
  intros Hs. simpl. rewrite Hs. unfold Hook.scheduleRender. simpl.
  by destruct (Hook.rafRef (Hook.hook w)).
Qed.

Lemma sinceClosed_snoc (es : list Hook.Event) (e : Hook.Event) :
  sinceClosed (es ++ [e])
  = if observedClosed e then [] else sinceClosed es ++ [e].
Proof.
  induction es as [|e' es IH].
  - simpl. by destruct (observedClosed e).
  - change ((e' :: es) ++ [e]) with (e' :: (es ++ [e])).
    cbn [sinceClosed]. rewrite IH.
    change (e' :: (es ++ [e])) with ((e' :: es) ++ [e]).
    rewrite existsb_app. simpl existsb at 2. rewrite orb_false_r.
    destruct (observedClosed e) eqn:He.
    + rewrite orb_true_r. reflexivity.
    + rewrite orb_false_r. by destruct (existsb observedClosed (e' :: es)).
Qed.

Lemma firstObservedOpen_snoc (es : list Hook.Event) (e : Hook.Event) :
  firstObservedOpen (es ++ [e])
  = if observedClosed e then None
    else match firstObservedOpen es with
         | Some opened => Some opened
         | None => observedOpen e
         end.
Proof.
  unfold firstObservedOpen. rewrite sinceClosed_snoc.
  destruct (observedClosed e); [done|].
  rewrite omap_app. simpl.
  destruct (omap observedOpen (sinceClosed es)); [|done].
  simpl. by destruct (observedOpen e).
Qed.

Lemma SF_ltb_not_eqb a b : SFltb a b = true -> SFeqb b a = false.
Proof. sf_order. Qed.

Lemma F64_ltb_not_eqb (a b : float) :
  (a <? b)%float = true -> (b =? a)%float = false.
Proof. rewrite ltb_spec, FloatAxioms.eqb_spec. apply SF_ltb_not_eqb. Qed.

(** No event but a render touches the connect time. *)
Lemma step_other_connectTime (js : Hook.Engine) (o : Hook.Options) (w : Hook.World)
    (e : Hook.Event) :
  (forall ws perfNow, e <> Hook.Render ws perfNow) ->
  Hook.connectTimeRef (Hook.hook (Hook.step js o w e))
  = Hook.connectTimeRef (Hook.hook w).
Proof.
  intros Hother. destruct e as [perfNow [[[ts|] [payload|]]|]|ws perfNow| |]; simpl;
    try done.
  - destruct (Hook.isStringStream o); [done|].
    unfold Hook.scheduleRender. simpl. by destruct (Hook.rafRef (Hook.hook w)).
  - by destruct (Hother ws perfNow).
  - by destruct (frames_keep (Hook.hook w) (Hook.rafPending w)) as (_ & _ & _ & -> & _).
  - unfold Hook.disconnect. by destruct (Hook.rafRef (Hook.hook w)).
Qed.

(** Over any session, whatever streams were selected in it, the connect
    time is the reading of the render that first observed the connection
    open since it was last observed closed, and 0 when there is none. *)
Lemma connectTime_after_history (js : Hook.Engine) (es : list Session.Event) :
  Forall (fun e => clockRuns (snd e) = true) es ->
  match firstObservedOpen (snd <$> es) with
  | Some opened =>
      Hook.connectTimeRef (Hook.hook (Session.run js Hook.mount es)) = seconds opened
      /\ (0 <? seconds opened)%float = true
  | None =>
      Hook.connectTimeRef (Hook.hook (Session.run js Hook.mount es)) = 0%float
  end.
Proof.
  induction es as [|[o e] es IH] using rev_ind; intros Hclock; [reflexivity|].
  apply Forall_app in Hclock as [Hes He]. rewrite Forall_singleton in He.
  specialize (IH Hes).
  unfold Session.run in *. rewrite fold_left_app. simpl fold_left.
  rewrite fmap_app. change (snd <$> [(o, e)]) with [e].
  rewrite firstObservedOpen_snoc. simpl snd in *.
  set (w := fold_left (Session.step js) es Hook.mount) in *.
  unfold Session.step. simpl fst. simpl snd.
  destruct e as [perfNow data|ws perfNow| |].
  - rewrite step_other_connectTime by done. simpl.
    by destruct (firstObservedOpen (snd <$> es)).
  - destruct (step_render_cells js o w ws perfNow) as (_ & _ & _ & ->).
    simpl in He.
    destruct ws; simpl; destruct (firstObservedOpen (snd <$> es)) as [opened|];
      try done.
    + destruct IH as [Hopened Hpos].
      by rewrite Hopened, (F64_ltb_not_eqb _ _ Hpos).
    + rewrite IH. by split.
  - rewrite step_other_connectTime by done. simpl.
    by destruct (firstObservedOpen (snd <$> es)).
  - rewrite step_other_connectTime by done. simpl.
    by destruct (firstObservedOpen (snd <$> es)).
Qed.

(** C4, as the code has it.  Over any session in which the clock reads a
    positive time at every render: when a render has observed the
    connection open since it was last observed closed, the connect time is
    the reading of the first such render, and an accepted write sets
    connectionUptime to now minus that reading; when none has, no connect
    time is recorded and an accepted write leaves the uptime as it is.  No
    write changes the connect time. *)
Theorem uptime_counts_from_observed_open (js : Hook.Engine) (es : list Session.Event)
    (o : Hook.Options) (a : Arrival float) :
  Hook.isStringStream o = false ->
  Forall (fun e => clockRuns (snd e) = true) es ->
  let s := Hook.hook (Session.run js Hook.mount es) in
  let s' :=
    Hook.hook (Session.step js (Session.run js Hook.mount es) (o, numericEvent a)) in
  Hook.connectTimeRef s' = Hook.connectTimeRef s
  /\ match firstObservedOpen (snd <$> es) with
     | Some opened =>
         Hook.connectTimeRef s = seconds opened
         /\ Hook.connectionUptime (Hook.statsRef s')
            = (seconds (arrivedAt a) - seconds opened)%float
     | None =>
         Hook.connectTimeRef s = 0%float
         /\ Hook.connectionUptime (Hook.statsRef s')
            = Hook.connectionUptime (Hook.statsRef s)
     end.
Proof.
  intros Hs Hclock s s'.
  destruct (step_numeric_uptime js o (Session.run js Hook.mount es) a Hs)
    as [Hconn Hup].
  fold s in Hconn, Hup. unfold s', Session.step. simpl fst. simpl snd.
  split; [exact Hconn|].
  pose proof (connectTime_after_history js es Hclock) as Hinv. fold s in Hinv.
  destruct (firstObservedOpen (snd <$> es)) as [opened|].
  - destruct Hinv as [Hopened Hpos]. split; [exact Hopened|].
    by rewrite Hup, Hopened, Hpos.
  - split; [exact Hinv|]. by rewrite Hup, Hinv.
Qed.

Lemma uptime_counts_from_observed_open_witness :
  let es :=
    Session.under numeric_stream
      [ Hook.Render Hook.connecting 9000;
        Hook.Render Hook.open 10000;
        Hook.Message 12000 (Hook.numeric 100 [5%float]);
        Hook.Render Hook.open 12016 ] in
  let s := Hook.hook (Session.run plain Hook.mount es) in
  let s' :=
    Hook.hook (Session.step plain (Session.run plain Hook.mount es)
                 (numeric_stream, numericEvent second_sample)) in
  Hook.connectTimeRef s' = Hook.connectTimeRef s
  /\ Hook.connectTimeRef s = seconds 10000
  /\ Hook.connectionUptime (Hook.statsRef s') = (seconds 13000 - seconds 10000)%float.
Proof.
  exact (uptime_counts_from_observed_open plain
           (Session.under numeric_stream
              [ Hook.Render Hook.connecting 9000;
                Hook.Render Hook.open 10000;
                Hook.Message 12000 (Hook.numeric 100 [5%float]);
                Hook.Render Hook.open 12016 ])
           numeric_stream second_sample eq_refl
           ltac:(repeat constructor)).
Defined.

(** C4 as stated fails: the connection was seen open at 10 s and the first
    sample was accepted at 12 s; after the sample of 13 s the uptime is 3 s,
    not the 1 s since the first sample. *)
Lemma uptime_is_not_since_first_sample :
  Hook.connectionUptime (Hook.statsRef (Hook.hook connected_two_samples)) = 3%float
  /\ Hook.connectionUptime (Hook.statsRef (Hook.hook connected_two_samples))
     <> (seconds 13000 - seconds 12000)%float.
Proof.
  split; [reflexivity|]. intros H.
  apply (f_equal (fun x => (x =? 1)%float)) in H. vm_compute in H. discriminate.
Qed.

(** ** The marker log *)

Lemma appendMarker_slice (prev : list Hook.Marker) (m : Hook.Marker) :
  Hook.appendMarker prev m = slice_last 500 (prev ++ [m]).
Proof.
  unfold Hook.appendMarker.
  destruct (500 <? length (prev ++ [m]))%nat eqn:Hlen; [reflexivity|].
  apply Nat.ltb_ge in Hlen. symmetry. by apply slice_last_all.
Qed.

Lemma step_marker (js : Hook.Engine) (o : Hook.Options) (a : Arrival string)
    (w : Hook.World) :
  Hook.isStringStream o = true ->
  Hook.markersState (Hook.hook (Hook.step js o w (markerEvent a)))
  = Hook.appendMarker (Hook.markersState (Hook.hook w)) (entryOf a).
Proof. intros Hs. simpl. rewrite Hs. reflexivity. Qed.

(** Nothing but an accepted marker touches the log. *)
Lemma step_other_markers (js : Hook.Engine) (o : Hook.Options) (w : Hook.World)
    (e : Hook.Event) :
  Hook.isStringStream o = true ->
  acceptedMarker js e = None ->
  Hook.markersState (Hook.hook (Hook.step js o w e)) = Hook.markersState (Hook.hook w).
Proof.
  intros Hs Hrej.
  destruct e as [perfNow [[[ts|] [[channels|values]|]]|]|ws perfNow| |];
    try (simpl; rewrite ?Hs; done).
  - by destruct (step_render_cells js o w ws perfNow) as (_ & _ & -> & _).
  - simpl. by destruct (frames_keep (Hook.hook w) (Hook.rafPending w)) as (_ & _ & _ & _ & ->).
  - simpl. unfold Hook.disconnect. by destruct (Hook.rafRef (Hook.hook w)).
Qed.

Lemma markers_after_history (js : Hook.Engine) (o : Hook.Options)
    (es : list Hook.Event) :
  Hook.isStringStream o = true ->
  Hook.markersState (Hook.hook (Hook.run js o Hook.mount es))
  = slice_last 500 (entryOf <$> markersOf js es).
Proof.
  intros Hs. induction es as [|e es IH] using rev_ind; [done|].
  rewrite run_snoc. unfold markersOf in *. rewrite omap_snoc.
  destruct (acceptedMarker js e) as [a|] eqn:He.
  - rewrite (acceptedMarker_step js o _ e a Hs He).
    rewrite step_marker, IH, appendMarker_slice, fmap_app by done.
    apply slice_last_snoc. lia.
  - rewrite app_nil_r, step_other_markers by done. exact IH.
Qed.

(** C8.  After any history of a string stream in which K markers were
    accepted, appended one at a time to the empty log of the mounted hook,
    the log holds exactly the last min(K, 500) entries, oldest first. *)
Theorem marker_log_keeps_last_500 (js : Hook.Engine) (o : Hook.Options)
    (es : list Hook.Event) :
  Hook.isStringStream o = true ->
  let log := Hook.markersState (Hook.hook (Hook.run js o Hook.mount es)) in
  let entries := entryOf <$> markersOf js es in
  log = drop (length entries - 500) entries
  /\ length log = Nat.min (length (markersOf js es)) 500.
Proof.
  intros Hs log entries. subst log.
  rewrite markers_after_history by done.
  split; [reflexivity|].
  rewrite slice_last_length. by rewrite length_fmap.
Qed.

Lemma marker_log_keeps_last_500_witness :
  Hook.markersState (Hook.hook (Hook.run plain string_stream Hook.mount six_hundred))
  = drop 100 (entryOf <$> markersOf plain six_hundred)
  /\ length (Hook.markersState
               (Hook.hook (Hook.run plain string_stream Hook.mount six_hundred)))
     = 500%nat.
Proof.
  exact (marker_log_keeps_last_500 plain string_stream six_hundred eq_refl).
Defined.

(** ** The render scheduler *)

Lemma render_keeps_scheduler (o : Hook.Options) (ws : Hook.WsState) (perfNow : float)
    (s : Hook.State) :
  let s' := fst (Hook.render o ws perfNow s) in
  Hook.rafRef s' = Hook.rafRef s /\ Hook.dirtyRef s' = Hook.dirtyRef s
  /\ Hook.tick s' = Hook.tick s.
Proof.
  simpl. unfold Hook.trackConnectTime, Hook.ensureBuffers.
  destruct ((0 <? Hook.channelCount o) && _); simpl;
    destruct (Hook.WsState_eqb ws Hook.open && _), (Hook.WsState_eqb ws Hook.closed);
    simpl; auto.
Qed.

(** Every event keeps the in-flight flag and the browser in agreement. *)
Lemma frame_in_flight_step (js : Hook.Engine) (o : Hook.Options) (w : Hook.World)
    (e : Hook.Event) :
  frame_in_flight w -> frame_in_flight (Hook.step js o w e).
Proof.
  unfold frame_in_flight. intros Hinv. destruct e as [perfNow data|ws perfNow| |]; simpl.
  - destruct data as [[[ts|] [payload|]]|]; simpl; try exact Hinv;
      destruct (Hook.isStringStream o); simpl; try exact Hinv.
    unfold Hook.scheduleRender. simpl.
    destruct (Hook.rafRef (Hook.hook w)) as [id|] eqn:Hraf; simpl; rewrite ?Hraf;
      [exact Hinv|].
    by rewrite Hinv.
  - destruct (render_keeps_scheduler o ws perfNow (Hook.hook w)) as (Hraf & _ & _).
    simpl in Hraf. by rewrite Hraf.
  - destruct (Hook.rafRef (Hook.hook w)) as [id|] eqn:Hraf; rewrite Hinv; simpl;
      rewrite ?Hraf; done.
  - unfold Hook.disconnect.
    destruct (Hook.rafRef (Hook.hook w)) as [id|] eqn:Hraf; simpl.
    + rewrite Hinv. rewrite filter_cons_False by (intros Hne; by apply Hne). done.
    + by rewrite Hraf.
Qed.

Lemma reachable_frame_in_flight (js : Hook.Engine) (o : Hook.Options) (w : Hook.World) :
  reachable js o w -> frame_in_flight w.
Proof.
  induction 1 as [|w e Hw IH]; [reflexivity|]. by apply frame_in_flight_step.
Qed.

Lemma frame_requested_in_flight (w : Hook.World) :
  frame_requested w -> frame_in_flight w.
Proof. intros (id & Hraf & Hp). unfold frame_in_flight. by rewrite Hraf. Qed.

(** An accepted write requests a frame unless one is in flight. *)
Lemma step_numeric_scheduler (js : Hook.Engine) (o : Hook.Options) (w : Hook.World)
    (a : Arrival float) :
  Hook.isStringStream o = false ->
  frame_in_flight w ->
  frame_requested (Hook.step js o w (numericEvent a)).
Proof.
  intros Hs Hinv. unfold frame_in_flight, frame_requested in *. simpl. rewrite Hs.
  unfold Hook.scheduleRender. simpl.
  destruct (Hook.rafRef (Hook.hook w)) as [id|] eqn:Hraf; simpl.
  - exists id. by rewrite Hraf.
  - exists (Hook.rafNext w). by rewrite Hinv.
Qed.

(** Messages and renders neither run nor request a second frame. *)
Lemma between_frames_step (js : Hook.Engine) (o : Hook.Options) (w : Hook.World)
    (e : Hook.Event) :
  betweenFrames e = true ->
  Hook.tick (Hook.hook (Hook.step js o w e)) = Hook.tick (Hook.hook w)
  /\ (frame_requested w -> frame_requested (Hook.step js o w e)).
Proof.
  intros Hquiet. destruct e as [perfNow data|ws perfNow| |]; try discriminate.
  - destruct data as [[[ts|] [payload|]]|]; simpl; try done;
      destruct (Hook.isStringStream o); simpl; try done.
    unfold Hook.scheduleRender, frame_requested. simpl.
    destruct (Hook.rafRef (Hook.hook w)) as [id|] eqn:Hraf; simpl.
    + split; [done|]. by rewrite Hraf.
    + split; [done|]. by intros (id & [=] & _).
  - destruct (render_keeps_scheduler o ws perfNow (Hook.hook w)) as (Hraf & _ & Htick).
    simpl in *. split; [done|]. unfold frame_requested. simpl. by rewrite Hraf.
Qed.

Lemma between_frames_run (js : Hook.Engine) (o : Hook.Options) (w : Hook.World)
    (es : list Hook.Event) :
  forallb betweenFrames es = true ->
  Hook.tick (Hook.hook (Hook.run js o w es)) = Hook.tick (Hook.hook w)
  /\ (frame_in_flight w -> frame_in_flight (Hook.run js o w es))
  /\ (frame_requested w -> frame_requested (Hook.run js o w es)).
Proof.
  revert w. induction es as [|e es IH]; intros w Hquiet; [done|].
  simpl in Hquiet. apply andb_prop in Hquiet as [He Hes].
  destruct (between_frames_step js o w e He) as [Htick Hreq].
  destruct (IH (Hook.step js o w e) Hes) as (Htick' & Hinv' & Hreq').
  simpl. split_and!.
  - by rewrite Htick'.
  - intros Hinv. by apply Hinv', frame_in_flight_step.
  - intros H. by apply Hreq', Hreq.
Qed.

Lemma omap_split {A B} (f : A -> option B) (l : list A) :
  omap f l <> [] ->
  exists l1 x y l2, l = l1 ++ x :: l2 /\ f x = Some y.
Proof.
  induction l as [|x l IH]; [done|]. simpl.
  destruct (f x) as [y|] eqn:Hx.
  - intros _. by exists [], x, y, l.
  - intros Hne. destruct (IH Hne) as (l1 & x' & y & l2 & -> & Hy).
    by exists (x :: l1), x', y, l2.
Qed.

(** A stretch of messages and renders in which a write is accepted leaves a
    frame requested, exactly one, and runs none. *)
Lemma burst_requests_one_frame (js : Hook.Engine) (o : Hook.Options) (w : Hook.World)
    (es : list Hook.Event) :
  Hook.isStringStream o = false ->
  frame_in_flight w ->
  forallb betweenFrames es = true ->
  writesOf js es <> [] ->
  frame_requested (Hook.run js o w es)
  /\ Hook.tick (Hook.hook (Hook.run js o w es)) = Hook.tick (Hook.hook w).
Proof.
  intros Hs Hinv Hquiet Hwrites.
  destruct (omap_split _ _ Hwrites) as (before & e & a & after & -> & He).
  rewrite forallb_app in Hquiet. apply andb_prop in Hquiet as [Hbefore Hafter].
  simpl in Hafter. apply andb_prop in Hafter as [Hquiet Hafter].
  destruct (between_frames_run js o w before Hbefore) as (Htick0 & Hinv0 & _).
  rewrite run_app. simpl.
  change (fold_left (Hook.step js o) ?l ?x) with (Hook.run js o x l).
  set (w0 := Hook.run js o w before) in *.
  destruct (between_frames_step js o w0 e Hquiet) as [Htick1 _].
  rewrite (acceptedWrite_step js o w0 e a Hs He) in *.
  pose proof (step_numeric_scheduler js o w0 a Hs (Hinv0 Hinv)) as Hreq.
  destruct (between_frames_run js o (Hook.step js o w0 (numericEvent a)) after Hafter)
    as (Htick2 & _ & Hreq2).
  split; [by apply Hreq2|]. congruence.
Qed.

(** The frame that is requested runs its one callback. *)
Lemma requested_frame_runs (w : Hook.World) :
  frame_requested w ->
  Hook.hook (Hook.animationFrame w) = Hook.frameCallback (Hook.hook w)
  /\ Hook.rafPending (Hook.animationFrame w) = [].
Proof. intros (id & _ & Hpending). unfold Hook.animationFrame. by rewrite Hpending. Qed.

(** A message that carries no sample leaves the hook as it is. *)
Lemma step_message_rejected (js : Hook.Engine) (o : Hook.Options) (w : Hook.World)
    (perfNow : float) (data : option Hook.LslSample) :
  acceptedWrite js (Hook.Message perfNow data) = None ->
  Hook.step js o w (Hook.Message perfNow data) = w.
Proof. by destruct data as [[[ts|] [payload|]]|]. Qed.

(** Over messages alone the store of a numeric stream is the fold of the
    accepted writes, whatever arrays it holds. *)
Lemma messages_ring (js : Hook.Engine) (o : Hook.Options) (w : Hook.World)
    (es : list Page.Event) :
  Hook.isStringStream o = false ->
  ring (Hook.hook (Hook.run js o w (messagesOf es)))
  = fold_left (ringWrite o) (writesOf js (messagesOf es)) (ring (Hook.hook w)).
Proof.
  intros Hs. induction es as [|e es IH] using rev_ind; [done|].
  unfold messagesOf, writesOf in *. rewrite omap_app. simpl.
  destruct e as [| |perfNow data| |]; simpl; rewrite ?app_nil_r; try exact IH.
  rewrite run_snoc, omap_snoc.
  destruct (acceptedWrite js (Hook.Message perfNow data)) as [a|] eqn:He.
  - rewrite (acceptedWrite_step js o _ _ a Hs He).
    rewrite step_numeric_ring, IH by done. by rewrite fold_left_app.
  - rewrite app_nil_r, step_message_rejected by done. exact IH.
Qed.

(** The counters after a number of writes. *)
Lemma ringWrite_counters (o : Hook.Options) (writes : list (Arrival float))
    (r : list (list float) * list float * Z * Z) :
  0 < Hook.bufferSize o ->
  0 <= r.1.2 < Hook.bufferSize o ->
  0 <= r.2 <= Hook.bufferSize o ->
  let r' := fold_left (ringWrite o) writes r in
  let N := Z.of_nat (length writes) in
  r'.1.2 = (r.1.2 + N) mod Hook.bufferSize o
  /\ r'.2 = Z.min (r.2 + N) (Hook.bufferSize o)
  /\ length r'.1.1.1 = length r.1.1.1.
Proof.
  intros HC. cbv zeta. induction writes as [|a writes IH] using rev_ind;
    intros Hhead Hcount.
  - simpl. rewrite Z.add_0_r, Z.mod_small by lia. split_and!; [done|lia|done].
  - rewrite fold_left_app, length_app. simpl.
    destruct (IH Hhead Hcount) as (Hh & Hc & Hl).
    destruct (fold_left (ringWrite o) writes r) as [[[buffers ts] head] count].
    simpl in *. subst head count.
    pose proof (Z.mod_pos_bound (r.1.2 + Z.of_nat (length writes))
                  (Hook.bufferSize o) HC).
    split_and!.
    + rewrite Z.rem_mod_nonneg by lia. rewrite Zplus_mod_idemp_l. f_equal. lia.
    + lia.
    + by rewrite writeChannels_length.
Qed.

(** ** The page *)

(** What a render of [App] does to the hook. *)
Lemma render_world (env : Page.Setting) (ws : Hook.WsState) (perfNow : float)
    (vp : Chart.Viewport) (s : Page.State) :
  let s' := Page.render env ws perfNow vp s in
  Page.world s'
  = Hook.step (Page.js env) (Page.optionsOf env (Page.selected s)) (Page.world s)
      (Hook.Render ws perfNow)
  /\ Page.handler s' = Page.optionsOf env (Page.selected s)
  /\ Page.selected s' = Page.selected s.
Proof.
  unfold Page.render.
  destruct (Page.selected s) as [sel|] eqn:Hsel; [|done].
  destruct (Hook.isStringStream _); [done|].
  unfold Page.renderChart. by destruct (Chart.renderChart _ _ _ _ _ _ _).
Qed.

Lemma render_counters_within (o : Hook.Options) (w : Hook.World) (ws : Hook.WsState)
    (perfNow : float) (js : Hook.Engine) :
  0 < Hook.bufferSize o ->
  0 <= Hook.writeHeadRef (Hook.hook w) < Hook.bufferSize o
  /\ 0 <= Hook.sampleCountRef (Hook.hook w) <= Hook.bufferSize o ->
  let w' := Hook.step js o w (Hook.Render ws perfNow) in
  0 <= Hook.writeHeadRef (Hook.hook w') < Hook.bufferSize o
  /\ 0 <= Hook.sampleCountRef (Hook.hook w') <= Hook.bufferSize o.
Proof.
  intros HC Hin. simpl. unfold Hook.trackConnectTime, Hook.ensureBuffers.
  destruct ((0 <? Hook.channelCount o) && _); simpl;
    destruct (Hook.WsState_eqb ws Hook.open && _), (Hook.WsState_eqb ws Hook.closed);
    simpl; try exact Hin; lia.
Qed.

(** What every event keeps true of the page: the in-flight flag and the
    browser agree, the handler in use was made for the capacity of the page,
    and both counters lie within it. *)
Lemma showing_stays_in_step (env : Page.Setting) (s : Page.State) :
  showing env s ->
  frame_in_flight (Page.world s)
  /\ Hook.bufferSize (Page.handler s) = Page.bufferSize env
  /\ (0 < Page.bufferSize env ->
      0 <= Hook.writeHeadRef (Hook.hook (Page.world s)) < Page.bufferSize env
      /\ 0 <= Hook.sampleCountRef (Hook.hook (Page.world s)) <= Page.bufferSize env).
Proof.
  induction 1 as [|s e Hs (Hflight & Hhandler & Hin)].
  - split_and!; [reflexivity|reflexivity|]. simpl. lia.
  - destruct e as [clicked perfNow vp|ws perfNow vp|perfNow data| |c vp];
      cbn [Page.step].
    + unfold Page.select.
      match goal with
      | |- context [Page.render env Hook.closed perfNow vp ?pg] =>
          destruct (render_world env Hook.closed perfNow vp pg) as (Hw & Hh & _)
      end.
      rewrite Hw, Hh. cbn [Page.world Page.selected].
      pose proof (frame_in_flight_step (Page.js env) (Page.handler s) _
                    Hook.Disconnect Hflight) as Hflight'.
      split_and!.
      * by apply frame_in_flight_step.
      * reflexivity.
      * intros HC.
        apply (render_counters_within (Page.optionsOf env _)); [done|].
        specialize (Hin HC). simpl. unfold Hook.disconnect.
        by destruct (Hook.rafRef (Hook.hook (Page.world s))).
    + destruct (render_world env ws perfNow vp s) as (Hw & Hh & _).
      rewrite Hw, Hh. split_and!.
      * by apply frame_in_flight_step.
      * reflexivity.
      * intros HC.
        apply (render_counters_within (Page.optionsOf env _)); [done|].
        by apply Hin.
    + cbn [Page.with_world Page.world Page.handler]. split_and!.
      * apply (frame_in_flight_step _ _ _ (Hook.Message perfNow data) Hflight).
      * exact Hhandler.
      * intros HC. specialize (Hin HC).
        destruct data as [[[ts|] [payload|]]|]; simpl; try exact Hin.
        destruct (Hook.isStringStream (Page.handler s)); [exact Hin|].
        unfold Hook.scheduleRender. simpl. rewrite Hhandler.
        assert (0 <= Z.rem (Hook.writeHeadRef (Hook.hook (Page.world s)) + 1)
                       (Page.bufferSize env) < Page.bufferSize env)
          by (apply Z.rem_bound_pos; lia).
        destruct (Hook.rafRef (Hook.hook (Page.world s))); simpl; rewrite ?Hhandler;
          lia.
    + cbn [Page.with_world Page.world Page.handler]. split_and!.
      * apply (frame_in_flight_step (Page.js env) (Page.handler s) _
                 Hook.AnimationFrame Hflight).
      * exact Hhandler.
      * intros HC. specialize (Hin HC).
        destruct (frames_keep (Hook.hook (Page.world s)) (Hook.rafPending (Page.world s)))
          as (Hring & _). unfold ring in Hring. simpl.
        injection Hring as _ _ -> ->. exact Hin.
    + unfold Page.control.
      destruct (Page.selected s), (Page.chart s); try done.
      unfold Page.renderChart. cbn [Page.world Page.handler Page.chart].
      by destruct (Chart.renderChart _ _ _ _ _ _ _).
Qed.

(** What a render of the chart leaves for the next comparison. *)
Lemma renderChart_rendered (measureText : string -> float) (toFixed1 : float -> string)
    (refs : Chart.PropRefs) (p : Chart.Props) (vp : Chart.Viewport)
    (initialWindow : float) (chart : option Chart.Instance) :
  let c := fst (Chart.renderChart measureText toFixed1 refs p vp initialWindow chart) in
  Chart.rendered c = Chart.depsOf refs p (Chart.view c) (Chart.visibleRef c)
  /\ Chart.namesLength c = length (Chart.channelNames p).
Proof.
  unfold Chart.renderChart.
  destruct chart as [c|]; simpl; [|done].
  by destruct (Chart.namesLength c =? _)%nat.
Qed.

Lemma sameDeps_counters (refs : Chart.PropRefs) (p p' : Chart.Props) (v : Chart.View)
    (visible : Chart.Ref) :
  Chart.sameDeps (Chart.depsOf refs p v visible) (Chart.depsOf refs p' v visible)
  = (Chart.sampleCount p =? Chart.sampleCount p')
    && (Chart.writeHead p =? Chart.writeHead p').
Proof.
  unfold Chart.sameDeps, Chart.depsOf. simpl.
  rewrite !Nat.eqb_refl, eqb_reflx.
  rewrite (proj2 (FloatAxioms.Leibniz.eqb_spec _ _) eq_refl).
  simpl. by rewrite !andb_true_r.
Qed.

Lemma connected_two_samples_reachable
    : reachable plain numeric_stream connected_two_samples.
Proof. apply reachable_step, reachable_run. constructor. Qed.

Lemma messagesOf_between_frames (es : list Page.Event) :
  forallb betweenFrames (messagesOf es) = true.
Proof.
  induction es as [|e es IH]; [done|]. unfold messagesOf. simpl.
  by destruct e.
Qed.

(** A render of [App] with a numeric stream selected leaves the chart on the
    page, rendered with the counters the hook holds and the arrays it holds,
    which are as many as the stream has channels if it has any. *)
Lemma render_numeric (env : Page.Setting) (ws : Hook.WsState) (perfNow : float)
    (vp : Chart.Viewport) (s0 : Page.State) (sel : Page.Selected) :
  Page.selected s0 = Some sel ->
  Hook.isStringStream (Page.optionsOf env (Some sel)) = false ->
  let o := Page.optionsOf env (Some sel) in
  let s := Page.render env ws perfNow vp s0 in
  Page.selected s = Some sel
  /\ Page.handler s = o
  /\ Page.sampleCountProp s = Hook.sampleCountRef (Hook.hook (Page.world s))
  /\ Page.writeHeadProp s = Hook.writeHeadRef (Hook.hook (Page.world s))
  /\ (0 < Hook.channelCount o ->
      Z.of_nat (length (Hook.buffersRef (Hook.hook (Page.world s))))
      = Hook.channelCount o)
  /\ exists chart, Page.chart s = Some chart /\ rendered_as_given sel s chart.
Proof.
  intros Hsel Hnum o s. unfold s, Page.render. cbv zeta. rewrite Hsel, Hnum.
  fold o. unfold Page.renderChart.
  match goal with
  | |- context [Chart.renderChart ?mt ?tf ?refs ?p ?v ?iw ?c] =>
      pose proof (renderChart_rendered mt tf refs p v iw c) as Hc;
      destruct (Chart.renderChart mt tf refs p v iw c) as [c' frames]
  end.
  cbn [fst] in Hc. destruct Hc as [Hdeps Hlen].
  cbn [Page.selected Page.handler Page.sampleCountProp Page.writeHeadProp Page.world
       Page.chart].
  split_and!; try done.
  - intros Hpos.
    assert (0 < Discovery.channelCount (Page.stream sel)) as Hpos' by exact Hpos.
    simpl. unfold Hook.trackConnectTime, Hook.ensureBuffers.
    destruct (Z.eqb_spec (Z.of_nat (length (Hook.buffersRef (Hook.hook (Page.world s0)))))
                (Hook.channelCount o)) as [Heq|Hne].
    + rewrite andb_false_r.
      by destruct (Hook.WsState_eqb ws Hook.open && _),
           (Hook.WsState_eqb ws Hook.closed).
    + rewrite (proj2 (Z.ltb_lt _ _) Hpos). simpl.
      destruct (Hook.WsState_eqb ws Hook.open && _), (Hook.WsState_eqb ws Hook.closed);
        simpl; rewrite length_replicate; lia.
  - exists c'. by split.
Qed.

(** Messages and controls leave the selection, the handler, the arrays'
    identity and the counters given to the chart as they are; the hook sees
    the messages alone; and the chart stays rendered as given. *)
Lemma run_between_renders (env : Page.Setting) (sel : Page.Selected)
    (es : list Page.Event) (s : Page.State) (chart : Chart.Instance) :
  forallb betweenRenders es = true ->
  Page.selected s = Some sel ->
  Page.chart s = Some chart ->
  rendered_as_given sel s chart ->
  let s' := Page.run env s es in
  Page.world s'
  = Hook.run (Page.js env) (Page.handler s) (Page.world s) (messagesOf es)
  /\ Page.selected s' = Some sel
  /\ Page.handler s' = Page.handler s
  /\ Page.storeRef s' = Page.storeRef s
  /\ Page.sampleCountProp s' = Page.sampleCountProp s
  /\ Page.writeHeadProp s' = Page.writeHeadProp s
  /\ (forallb isMessage es = true -> Page.drawn s' = Page.drawn s)
  /\ exists chart', Page.chart s' = Some chart' /\ rendered_as_given sel s' chart'.
Proof.
  revert s chart. induction es as [|e es IH]; intros s chart Hes Hsel Hchart Hgiven.
  - simpl. split_and!; try done. by exists chart.
  - simpl in Hes. apply andb_prop in Hes as [He Hes].
    destruct e as [| |perfNow data| |c vp]; try discriminate.
    + cbn [Page.run fold_left Page.step].
      change (fold_left (Page.step env) es ?x) with (Page.run env x es).
      destruct (IH (Page.with_world s
                      (Hook.onMessage (Page.js env) (Page.handler s) perfNow data
                         (Page.world s))) chart Hes Hsel Hchart Hgiven)
        as (Hw & Hs & Hh & Hst & Hsc & Hwh & Hdr & Hc).
      split_and!; try done.
    + cbn [Page.run fold_left Page.step].
      change (fold_left (Page.step env) es ?x) with (Page.run env x es).
      unfold Page.control. rewrite Hsel, Hchart. unfold Page.renderChart.
      match goal with
      | |- context [Chart.renderChart ?mt ?tf ?refs ?p ?v ?iw ?ch] =>
          pose proof (renderChart_rendered mt tf refs p v iw ch) as Hc;
          destruct (Chart.renderChart mt tf refs p v iw ch) as [chart1 frames]
      end.
      cbn [fst] in Hc.
      match goal with
      | |- context [Page.run env ?pg es] =>
          destruct (IH pg chart1 Hes eq_refl eq_refl Hc)
            as (Hw & Hs & Hh & Hst & Hsc & Hwh & Hdr & Hc')
      end.
      split_and!; try done.
Qed.

(** C5, as the code has it.  At every point at most one callback is pending.
    After a render of [App] with a numeric stream selected, messages that
    carry at least one accepted write, and any use of the controls between
    them, leave exactly one callback pending; the next display refresh runs
    it once and draws nothing, and neither do the messages: the callback
    forces a render.  That render gives the chart the store as all the
    writes left it, and the chart draws in an effect of it: not at all when
    it is paused, and exactly once, from those props, when it is not paused
    and the write head or the sample count is another than at its previous
    render, as it is unless the number of writes is a multiple of the
    capacity and the store was full. *)
Theorem burst_coalesces_into_one_draw (env : Page.Setting) (s0 : Page.State)
    (sel : Page.Selected) (ws0 ws : Hook.WsState) (perfNow0 perfNow : float)
    (vp0 vp : Chart.Viewport) (burst : list Page.Event) :
  0 < Page.bufferSize env ->
  showing env s0 ->
  Page.selected s0 = Some sel ->
  Hook.isStringStream (Page.optionsOf env (Some sel)) = false ->
  forallb betweenRenders burst = true ->
  writesOf (Page.js env) (messagesOf burst) <> [] ->
  let writes := writesOf (Page.js env) (messagesOf burst) in
  let s := Page.step env s0 (Page.Render ws0 perfNow0 vp0) in
  let s1 := Page.run env s burst in
  let s2 := Page.step env s1 Page.AnimationFrame in
  let s3 := Page.step env s2 (Page.Render ws perfNow vp) in
  (length (Hook.rafPending (Page.world s0)) <= 1)%nat
  /\ length (Hook.rafPending (Page.world s1)) = 1%nat
  /\ Hook.tick (Hook.hook (Page.world s1)) = Hook.tick (Hook.hook (Page.world s))
  /\ (forallb isMessage burst = true -> Page.drawn s1 = Page.drawn s)
  /\ Hook.rafPending (Page.world s2) = []
  /\ Hook.tick (Hook.hook (Page.world s2)) = Hook.tick (Hook.hook (Page.world s)) + 1
  /\ Page.drawn s2 = Page.drawn s1
  /\ shownRing (Page.propsOf sel s3)
     = fold_left (ringWrite (Page.optionsOf env (Some sel))) writes
         (ring (Hook.hook (Page.world s)))
  /\ exists chart : Chart.Instance,
       Page.chart s2 = Some chart
       /\ (Chart.paused (Chart.view chart) = true -> Page.drawn s3 = Page.drawn s2)
       /\ (Chart.paused (Chart.view chart) = false ->
           Z.of_nat (length writes) mod Page.bufferSize env <> 0
           \/ Hook.sampleCountRef (Hook.hook (Page.world s)) < Page.bufferSize env ->
           Page.drawn s3
           = Page.drawn s2
             ++ [ Chart.draw (Page.measureText env) (Page.toFixed1 env)
                    (Page.propsOf sel s3) (Chart.view chart) vp ]).
Proof.
  intros HC Hs0 Hsel Hnum Hburst Hsome writes s s1 s2 s3.
  set (o := Page.optionsOf env (Some sel)) in *.
  destruct (showing_stays_in_step env s0 Hs0) as (Hflight0 & _ & _).
  assert (showing env s) as Hs by (by apply showing_step).
  destruct (showing_stays_in_step env s Hs) as (Hflight & _ & Hin).
  specialize (Hin HC).
  destruct (render_numeric env ws0 perfNow0 vp0 s0 sel Hsel Hnum)
    as (Hsel0 & Hhandler & Hcount & Hhead & Halloc & chart0 & Hchart0 & Hgiven0).
  change (Page.render env ws0 perfNow0 vp0 s0) with s in *. fold o in Hhandler, Halloc.
  (* the burst *)
  destruct (run_between_renders env sel burst s chart0 Hburst Hsel0 Hchart0 Hgiven0)
    as (Hw1 & Hsel1 & Hh1 & Hst1 & Hsc1 & Hwh1 & Hdr1 & chart & Hchart & Hdeps & Hnames).
  fold s1 in Hw1, Hsel1, Hh1, Hst1, Hsc1, Hwh1, Hdr1, Hchart, Hdeps.
  rewrite Hhandler in Hw1, Hh1.
  set (w1 := Hook.run (Page.js env) o (Page.world s) (messagesOf burst)) in *.
  destruct (burst_requests_one_frame (Page.js env) o (Page.world s) (messagesOf burst)
              Hnum Hflight (messagesOf_between_frames burst) Hsome) as [Hreq Htick].
  fold w1 in Hreq, Htick.
  pose proof (messages_ring (Page.js env) o (Page.world s) burst Hnum) as Hring.
  fold w1 writes in Hring.
  (* the refresh *)
  destruct (requested_frame_runs w1 Hreq) as [Hframe Hnone].
  assert (s2 = Page.with_world s1 (Hook.animationFrame w1)) as Hs2.
  { unfold s2. cbn [Page.step]. by rewrite Hw1. }
  set (w2 := Hook.animationFrame w1) in *.
  assert (ring (Hook.hook w2) = ring (Hook.hook w1)) as Hring2 by (by rewrite Hframe).
  (* the counters *)
  destruct (ringWrite_counters o writes (ring (Hook.hook (Page.world s))) HC)
    as (Hhead' & Hcount' & Hlen').
  { unfold ring. simpl. apply Hin. }
  { unfold ring. simpl. apply Hin. }
  rewrite <- Hring in Hhead', Hcount', Hlen'. unfold ring in Hhead', Hcount', Hlen'.
  simpl in Hhead', Hcount', Hlen'.
  (* the render *)
  assert (Page.allocates o (Hook.hook w2) = false) as Hkeep.
  { unfold Page.allocates. rewrite Hframe.
    change (Hook.buffersRef (Hook.frameCallback ?x)) with (Hook.buffersRef x).
    rewrite Hlen'.
    destruct (Z.ltb_spec 0 (Hook.channelCount o)) as [Hpos|Hneg]; [|done].
    rewrite (Halloc Hpos), Z.eqb_refl. reflexivity. }
  assert (Hook.ensureBuffers o (Hook.hook w2) = Hook.hook w2) as Hensure.
  { unfold Hook.ensureBuffers. unfold Page.allocates in Hkeep. by rewrite Hkeep. }
  assert (ring (Hook.hook (Hook.step (Page.js env) o w2 (Hook.Render ws perfNow)))
          = ring (Hook.hook w1)) as Hring3.
  { unfold Hook.step, Hook.render. cbn [fst Hook.with_hook Hook.hook].
    rewrite Hensure, <- Hring2. unfold Hook.trackConnectTime.
    by destruct (Hook.WsState_eqb ws Hook.open && _), (Hook.WsState_eqb ws Hook.closed). }
  set (w3 := Hook.step (Page.js env) o w2 (Hook.Render ws perfNow)) in *.
  set (given :=
         {| Page.selected := Some sel; Page.world := w3; Page.handler := o;
            Page.storeRef := Page.storeRef s1;
            Page.sampleCountProp := Hook.sampleCountRef (Hook.hook w3);
            Page.writeHeadProp := Hook.writeHeadRef (Hook.hook w3);
            Page.chart := Some chart; Page.drawn := Page.drawn s1 |}).
  assert (s3 = Page.renderChart env sel vp given) as Hs3.
  { unfold s3. cbn [Page.step]. unfold Page.render. cbv zeta.
    rewrite Hs2. cbn [Page.with_world Page.selected Page.world Page.storeRef
                      Page.chart Page.drawn Page.handler].
    rewrite Hsel1. fold o. rewrite Hnum, Hkeep, Hchart. reflexivity. }
  assert (Chart.renderChart (Page.measureText env) (Page.toFixed1 env)
            (Page.refsOf sel given) (Page.propsOf sel given) vp 5 (Some chart)
          = ({| Chart.view := Chart.view chart; Chart.visibleRef := Chart.visibleRef chart;
                Chart.nextRef := Chart.nextRef chart;
                Chart.namesLength := length (Discovery.channelNames (Page.stream sel));
                Chart.rendered :=
                  Chart.depsOf (Page.refsOf sel given) (Page.propsOf sel given)
                    (Chart.view chart) (Chart.visibleRef chart) |},
             option_list
               (Chart.redraw (Page.measureText env) (Page.toFixed1 env)
                  (Some (Chart.rendered chart))
                  (Chart.depsOf (Page.refsOf sel given) (Page.propsOf sel given)
                     (Chart.view chart) (Chart.visibleRef chart))
                  (Page.propsOf sel given) (Chart.view chart) vp))) as Hrender.
  { unfold Chart.renderChart. simpl. by rewrite Hnames, Nat.eqb_refl. }
  assert (Page.propsOf sel s3 = Page.propsOf sel given) as Hprops.
  { rewrite Hs3. unfold Page.renderChart. change (Page.chart given) with (Some chart).
    by rewrite Hrender. }
  assert (Page.drawn s3
          = Page.drawn s1
            ++ option_list
                 (Chart.redraw (Page.measureText env) (Page.toFixed1 env)
                    (Some (Chart.rendered chart))
                    (Chart.depsOf (Page.refsOf sel given) (Page.propsOf sel given)
                       (Chart.view chart) (Chart.visibleRef chart))
                    (Page.propsOf sel given) (Chart.view chart) vp)) as Hdrawn.
  { rewrite Hs3. unfold Page.renderChart. change (Page.chart given) with (Some chart).
    by rewrite Hrender. }
  assert (Page.drawn s2 = Page.drawn s1) as Hdrawn2 by (by rewrite Hs2).
  split_and!.
  - unfold frame_in_flight in Hflight0.
    destruct (Hook.rafRef (Hook.hook (Page.world s0))); rewrite Hflight0; simpl; lia.
  - rewrite Hw1. destruct Hreq as (id & _ & ->). reflexivity.
  - by rewrite Hw1.
  - exact Hdr1.
  - by rewrite Hs2.
  - rewrite Hs2. cbn [Page.with_world Page.world]. rewrite Hframe. simpl.
    by rewrite Htick.
  - exact Hdrawn2.
  - rewrite Hprops, <- Hring, <- Hring3. reflexivity.
  - exists chart. split; [by rewrite Hs2|].
    rewrite Hprops, Hdrawn, Hdrawn2, Hdeps. unfold Chart.redraw.
    replace (Page.refsOf sel given) with (Page.refsOf sel s1) by reflexivity.
    rewrite sameDeps_counters. split.
    + intros ->. rewrite andb_false_r. simpl. by rewrite app_nil_r.
    + intros -> Hmoved. rewrite andb_true_r.
      assert ((Chart.sampleCount (Page.propsOf sel s1)
               =? Chart.sampleCount (Page.propsOf sel given))
              && (Chart.writeHead (Page.propsOf sel s1)
                  =? Chart.writeHead (Page.propsOf sel given)) = false) as ->;
        [|reflexivity].
      simpl. rewrite Hsc1, Hwh1, Hcount, Hhead.
      unfold ring in Hring3. injection Hring3 as _ _ -> ->.
      rewrite Hhead', Hcount'.
      destruct Hmoved as [Hmod|Hroom].
      * apply andb_false_iff. right. apply Z.eqb_neq. intros Heq.
        apply Hmod.
        assert ((Hook.writeHeadRef (Hook.hook (Page.world s))
                 + Z.of_nat (length writes)
                 - Hook.writeHeadRef (Hook.hook (Page.world s)))
                mod Page.bufferSize env = 0) as Hz.
        { rewrite Zminus_mod, <- Heq.
          rewrite (Z.mod_small (Hook.writeHeadRef _)) by apply Hin.
          rewrite Z.sub_diag. apply Z.mod_0_l. lia. }
        by rewrite Z.add_simpl_l in Hz.
      * apply andb_false_iff. left. apply Z.eqb_neq.
        assert (length writes <> 0%nat) as Hlen.
        { intros Hzero. apply Hsome. by apply nil_length_inv. }
        change (Hook.bufferSize o) with (Page.bufferSize env). lia.
Qed.

Lemma showing_run (env : Page.Setting) (s : Page.State) (es : list Page.Event) :
  showing env s -> showing env (Page.run env s es).
Proof.
  revert s. induction es as [|e es IH]; intros s Hs; [done|].
  simpl. apply IH. by constructor.
Qed.

Lemma burst_coalesces_into_one_draw_witness :
  let burst :=
    [ Page.Message 200 (Hook.numeric 10 [1%float]);
      Page.Control (Chart.SelectLayout false) small_canvas;
      Page.Message 204 (Hook.numeric 11 [2%float]);
      Page.Message 208 (Hook.numeric 12 [3%float]) ] in
  let writes := writesOf (Page.js small_page) (messagesOf burst) in
  let s := Page.step small_page fz_open (Page.Render Hook.open 160 small_canvas) in
  let s1 := Page.run small_page s burst in
  let s2 := Page.step small_page s1 Page.AnimationFrame in
  let s3 := Page.step small_page s2 (Page.Render Hook.open 216 small_canvas) in
  (length (Hook.rafPending (Page.world fz_open)) <= 1)%nat
  /\ length (Hook.rafPending (Page.world s1)) = 1%nat
  /\ Hook.tick (Hook.hook (Page.world s1)) = Hook.tick (Hook.hook (Page.world s))
  /\ (forallb isMessage burst = true -> Page.drawn s1 = Page.drawn s)
  /\ Hook.rafPending (Page.world s2) = []
  /\ Hook.tick (Hook.hook (Page.world s2)) = Hook.tick (Hook.hook (Page.world s)) + 1
  /\ Page.drawn s2 = Page.drawn s1
  /\ shownRing (Page.propsOf fz s3)
     = fold_left (ringWrite (Page.optionsOf small_page (Some fz))) writes
         (ring (Hook.hook (Page.world s)))
  /\ exists chart : Chart.Instance,
       Page.chart s2 = Some chart
       /\ (Chart.paused (Chart.view chart) = true -> Page.drawn s3 = Page.drawn s2)
       /\ (Chart.paused (Chart.view chart) = false ->
           Z.of_nat (length writes) mod Page.bufferSize small_page <> 0
           \/ Hook.sampleCountRef (Hook.hook (Page.world s)) < Page.bufferSize small_page ->
           Page.drawn s3
           = Page.drawn s2
             ++ [ Chart.draw (Page.measureText small_page) (Page.toFixed1 small_page)
                    (Page.propsOf fz s3) (Chart.view chart) small_canvas ]).
Proof.
  refine (burst_coalesces_into_one_draw small_page fz_open fz Hook.open Hook.open
            160%float 216%float small_canvas small_canvas
            [ Page.Message 200 (Hook.numeric 10 [1%float]);
              Page.Control (Chart.SelectLayout false) small_canvas;
              Page.Message 204 (Hook.numeric 11 [2%float]);
              Page.Message 208 (Hook.numeric 12 [3%float]) ]
            eq_refl _ _ eq_refl eq_refl _).
  - apply showing_run. constructor.
  - vm_compute. reflexivity.
  - vm_compute. discriminate.
Defined.

(** C5 as stated fails.  Two writes are accepted between two display
    refreshes and the second refresh runs its callback, yet nothing is drawn
    at that refresh: when the chart is paused; when the two writes fill the
    two slots of a store that was full, so that write head and sample count
    are what they were although the samples are others; and when [App] has
    rendered for another reason after the writes, so that the chart drew
    them then.  And when the stream is deselected after a write,
    [disconnect] cancels the callback: the next refresh runs none, and no
    render is forced. *)
Lemma refresh_without_a_draw :
  (let after := Page.run small_page fz_paused (two_samples_refreshed 200 10) in
   Hook.totalSamples (Hook.statsRef (Hook.hook (Page.world after)))
   = Hook.totalSamples (Hook.statsRef (Hook.hook (Page.world fz_paused))) + 2
   /\ Hook.tick (Hook.hook (Page.world after))
      = Hook.tick (Hook.hook (Page.world fz_paused)) + 1
   /\ Page.drawn after = Page.drawn fz_paused)
  /\ (let after := Page.run small_page fz_full (two_samples_refreshed 300 12) in
      Hook.tsRef (Hook.hook (Page.world fz_full)) = [10; 11]%float
      /\ Hook.tsRef (Hook.hook (Page.world after)) = [12; 13]%float
      /\ Hook.tick (Hook.hook (Page.world after))
         = Hook.tick (Hook.hook (Page.world fz_full)) + 1
      /\ Page.drawn after = Page.drawn fz_full)
  /\ (let early := Page.run small_page fz_open two_samples_rendered_early in
      let after := Page.run small_page early refresh_and_render in
      length (Page.drawn early) = S (length (Page.drawn fz_open))
      /\ Hook.tick (Hook.hook (Page.world after))
         = Hook.tick (Hook.hook (Page.world early)) + 1
      /\ Page.drawn after = Page.drawn early)
  /\ (let after := Page.run small_page fz_open sample_then_click in
      Hook.totalSamples (Hook.statsRef (Hook.hook (Page.world after)))
      = Hook.totalSamples (Hook.statsRef (Hook.hook (Page.world fz_open))) + 1
      /\ Hook.rafPending (Page.world after) = []
      /\ Page.step small_page after Page.AnimationFrame = after).
Proof. vm_compute. repeat split. Qed.


(** ** Label truncation *)

Lemma midpoint_between (lo hi : nat) :
  (lo < hi)%nat -> (lo < Chart.midpoint lo hi <= hi)%nat.
Proof.
  intros Hlt. unfold Chart.midpoint.
  pose proof (Nat.div_mod_eq (lo + hi + 1) 2).
  pose proof (Nat.mod_upper_bound (lo + hi + 1) 2). lia.
Qed.

Lemma candidate_zero (text : string) : Chart.candidate text 0 = Chart.ellipsis.
Proof. unfold Chart.candidate, Chart.slice0. by destruct text. Qed.

Section Truncation.

Variable measureText : string -> float.
Variables (text : string) (maxWidth : float).

Hypothesis monotone :
  forall i j : nat, (i <= j <= String.length text)%nat ->
    (measureText (Chart.candidate text i) <=? measureText (Chart.candidate text j))%float
    = true.

(** Once a prefix does not fit, no longer one does. *)
Lemma fits_downward (i j : nat) :
  (i <= j <= String.length text)%nat ->
  fits measureText maxWidth (Chart.candidate text i) = false ->
  fits measureText maxWidth (Chart.candidate text j) = false.
Proof.
  intros Hij Hi. unfold fits in *.
  destruct (measureText (Chart.candidate text j) <=? maxWidth)%float eqn:Hj; [|done].
  by rewrite (F64.leb_trans _ _ _ (monotone i j Hij) Hj) in Hi.
Qed.

(** The search keeps a fitting candidate at [lo] and only misfits above
    [hi]; it ends on the longest fitting prefix. *)
Lemma fitLoop_longest (lo hi : nat) :
  (lo <= hi <= String.length text)%nat ->
  fits measureText maxWidth (Chart.candidate text lo) = true ->
  (forall j, (hi < j <= String.length text)%nat ->
     fits measureText maxWidth (Chart.candidate text j) = false) ->
  let n := Chart.fitLoop measureText text maxWidth lo hi in
  (lo <= n <= hi)%nat
  /\ fits measureText maxWidth (Chart.candidate text n) = true
  /\ forall j, (n < j <= String.length text)%nat ->
       fits measureText maxWidth (Chart.candidate text j) = false.
Proof.
  cbv zeta. funelim (Chart.fitLoop measureText text maxWidth lo hi).
  - intros Hb Hlo Hhi.
    pose proof (midpoint_between lo hi l) as Hmid.
    destruct (measureText (Chart.candidate text (Chart.midpoint lo hi)) <=? maxWidth)%float
      eqn:Hfit.
    + destruct (H ltac:(lia) Hfit Hhi) as (Hn & Hok & Habove).
      cbn iota. split; [lia|]. split; [exact Hok|exact Habove].
    + destruct (H0 ltac:(lia) Hlo) as (Hn & Hok & Habove).
      { intros j Hj. apply (fits_downward (Chart.midpoint lo hi) j); [lia|exact Hfit]. }
      cbn iota. split; [lia|]. split; [exact Hok|exact Habove].
  - intros Hb Hlo Hhi. split; [lia|]. split; [exact Hlo|].
    intros j Hj. apply Hhi. lia.
Qed.

(** C6, as the code has it.  For widths of prefix-plus-ellipsis that never
    decrease with the prefix length: a budget of zero or less gives the empty
    string; under a positive budget a text that fits is returned unchanged,
    and one that does not is replaced by the empty string when the ellipsis
    alone does not fit, and otherwise by the longest prefix whose width with
    the ellipsis fits, followed by the ellipsis. *)
Theorem fitTextToWidth_longest_prefix :
  ((maxWidth <=? 0)%float = true ->
   Chart.fitTextToWidth measureText text maxWidth = "")
  /\ ((0 <? maxWidth)%float = true ->
      (fits measureText maxWidth text = true ->
       Chart.fitTextToWidth measureText text maxWidth = text)
      /\ (fits measureText maxWidth text = false ->
          fits measureText maxWidth Chart.ellipsis = false ->
          Chart.fitTextToWidth measureText text maxWidth = "")
      /\ (fits measureText maxWidth text = false ->
          fits measureText maxWidth Chart.ellipsis = true ->
          exists n : nat,
            (n <= String.length text)%nat
            /\ Chart.fitTextToWidth measureText text maxWidth
               = String.append (Chart.slice0 text n) Chart.ellipsis
            /\ fits measureText maxWidth
                 (String.append (Chart.slice0 text n) Chart.ellipsis) = true
            /\ forall j : nat, (n < j <= String.length text)%nat ->
                 fits measureText maxWidth
                   (String.append (Chart.slice0 text j) Chart.ellipsis) = false)).
Proof.
  split.
  { intros Hbudget. unfold Chart.fitTextToWidth. by rewrite Hbudget. }
  intros positive.
  pose proof (F64.ltb_not_leb _ _ positive) as Hbudget.
  unfold Chart.fitTextToWidth, fits. rewrite Hbudget.
  split_and!.
  - by intros ->.
  - intros -> Hell. unfold f64_gtb.
    rewrite (F64.not_leb_ltb _ _ 0%float); [done| |exact positive|exact Hell].
    rewrite <- (candidate_zero text). apply monotone. lia.
  - intros -> Hell. unfold f64_gtb. rewrite (F64.leb_not_ltb _ _ Hell).
    destruct (fitLoop_longest 0 (String.length text)) as (Hn & Hok & Habove).
    + lia.
    + unfold fits. by rewrite candidate_zero.
    + intros j Hj. lia.
    + eexists. split; [|split; [reflexivity|split; [exact Hok|exact Habove]]]. lia.
Qed.

End Truncation.

Lemma fixed_pitch_monotone (i j : nat) :
  (i <= j <= String.length "abcdefghij")%nat ->
  (fixed_pitch (Chart.candidate "abcdefghij" i)
   <=? fixed_pitch (Chart.candidate "abcdefghij" j))%float = true.
Proof.
  intros Hij. simpl in Hij.
  do 11 (destruct i as [|i];
         [do 11 (destruct j as [|j]; [first [lia | reflexivity]|]); lia|]).
  lia.
Qed.

Lemma fitTextToWidth_longest_prefix_witness :
  exists n : nat,
    (n <= String.length "abcdefghij")%nat
    /\ Chart.fitTextToWidth fixed_pitch "abcdefghij" 50
       = String.append (Chart.slice0 "abcdefghij" n) Chart.ellipsis
    /\ fits fixed_pitch 50 (String.append (Chart.slice0 "abcdefghij" n) Chart.ellipsis) = true
    /\ forall j : nat, (n < j <= String.length "abcdefghij")%nat ->
         fits fixed_pitch 50 (String.append (Chart.slice0 "abcdefghij" j) Chart.ellipsis)
         = false.
Proof.
  exact (proj2 (proj2 (proj2 (fitTextToWidth_longest_prefix fixed_pitch "abcdefghij" 50
                                fixed_pitch_monotone) eq_refl)) eq_refl eq_refl).
Defined.

(** C6 as stated fails.  With seven units a character (so that widths grow
    with the prefix) and a budget of 10, the label does not fit, yet the
    result is the empty string and not a prefix followed by the ellipsis.
    And with a font that gives every text the width 0 and a budget of 0, the
    label fits, yet the result is the empty string and not the label. *)
Lemma narrow_budget_drops_the_ellipsis :
  ((forall i j : nat, (i <= j <= String.length "abcdefghij")%nat ->
      (fixed_pitch (Chart.slice0 "abcdefghij" i)
       <=? fixed_pitch (Chart.slice0 "abcdefghij" j))%float = true)
   /\ fits fixed_pitch 10 "abcdefghij" = false
   /\ Chart.fitTextToWidth fixed_pitch "abcdefghij" 10 = ""
   /\ forall p : string,
        Chart.fitTextToWidth fixed_pitch "abcdefghij" 10
        <> String.append p Chart.ellipsis)
  /\ (fits zero_width 0 "abc" = true
      /\ Chart.fitTextToWidth zero_width "abc" 0 <> "abc").
Proof.
  split; [split_and!; [|reflexivity|reflexivity|]|split; [reflexivity|discriminate]].
  - intros i j Hij. simpl in Hij.
    do 11 (destruct i as [|i];
           [do 11 (destruct j as [|j]; [first [lia | reflexivity]|]); lia|]).
    lia.
  - intros p H. change (Chart.fitTextToWidth fixed_pitch "abcdefghij" 10) with "" in H.
    by destruct p.
Qed.

(** ** Auto-ranging of a stacked lane *)

(** One step of the scan leaves the least and the greatest of the finite
    values seen so far. *)
Lemma scanStep_extremes (buf : list float) (idx : option Z) (lo hi : float)
    (seen : list float) :
  Forall (fun x => is_finite x = true) seen ->
  is_finite (f64_at buf idx) = true ->
  lo ∈ seen -> hi ∈ seen ->
  Forall (fun x => f64_le lo x /\ f64_le x hi) seen ->
  let acc := Chart.scanStep buf (lo, hi) idx in
  fst acc ∈ seen ++ [f64_at buf idx]
  /\ snd acc ∈ seen ++ [f64_at buf idx]
  /\ Forall (fun x => f64_le (fst acc) x /\ f64_le x (snd acc))
       (seen ++ [f64_at buf idx]).
Proof.
  intros Hfin Hv Hlo Hhi Hbounds. unfold Chart.scanStep, f64_gtb. simpl.
  set (v := f64_at buf idx) in *.
  pose proof (finite_not_nan v Hv) as Hnum.
  assert (is_nan lo = false) as Hlonum.
  { apply finite_not_nan. by apply (proj1 (Forall_forall _ _) Hfin). }
  assert (is_nan hi = false) as Hhinum.
  { apply finite_not_nan. by apply (proj1 (Forall_forall _ _) Hfin). }
  split_and!.
  - apply elem_of_app.
    destruct (v <? lo)%float; [right; by apply list_elem_of_singleton|by left].
  - apply elem_of_app.
    destruct (hi <? v)%float; [right; by apply list_elem_of_singleton|by left].
  - apply Forall_app. split; [|apply Forall_singleton].
    + eapply Forall_impl; [exact Hbounds|]. intros x [Hlx Hxh]. split.
      * destruct (v <? lo)%float eqn:Hlt; [|exact Hlx].
        eapply F64.leb_trans; [|exact Hlx]. by apply F64_ltb_leb.
      * destruct (hi <? v)%float eqn:Hgt; [|exact Hxh].
        eapply F64.leb_trans; [exact Hxh|]. by apply F64_ltb_leb.
    + split.
      * destruct (v <? lo)%float eqn:Hlt; [by apply F64_leb_refl|].
        by apply F64_not_ltb_leb.
      * destruct (hi <? v)%float eqn:Hgt; [by apply F64_leb_refl|].
        by apply F64_not_ltb_leb.
Qed.

Lemma scan_extremes (buf : list float) (idxs : list (option Z)) (lo hi : float)
    (seen : list float) :
  Forall (fun x => is_finite x = true) seen ->
  Forall (fun x => is_finite x = true) (f64_at buf <$> idxs) ->
  lo ∈ seen -> hi ∈ seen ->
  Forall (fun x => f64_le lo x /\ f64_le x hi) seen ->
  let acc := fold_left (Chart.scanStep buf) idxs (lo, hi) in
  fst acc ∈ seen ++ (f64_at buf <$> idxs)
  /\ snd acc ∈ seen ++ (f64_at buf <$> idxs)
  /\ Forall (fun x => f64_le (fst acc) x /\ f64_le x (snd acc))
       (seen ++ (f64_at buf <$> idxs)).
Proof.
  revert lo hi seen. induction idxs as [|idx idxs IH]; intros lo hi seen Hfin Hvals.
  - simpl. rewrite app_nil_r. auto.
  - intros Hlo Hhi Hbounds. rewrite fmap_cons in Hvals.
    apply Forall_cons in Hvals as [Hv Hvals].
    destruct (scanStep_extremes buf idx lo hi seen Hfin Hv Hlo Hhi Hbounds)
      as (Hlo1 & Hhi1 & Hbounds1).
    rewrite fmap_cons. simpl fold_left.
    destruct (Chart.scanStep buf (lo, hi) idx) as [lo1 hi1] eqn:Hstep.
    simpl in Hlo1, Hhi1, Hbounds1.
    rewrite (cons_middle (f64_at buf idx)), app_assoc.
    apply IH; try done.
    apply Forall_app. split; [done|by apply Forall_singleton].
Qed.

(** The scan of a window of finite values, none missing, ends on the least
    and the greatest of them. *)
Lemma scan_window_extremes (buf : list float) (idxs : list (option Z)) :
  idxs <> [] ->
  Forall (fun x => is_finite x = true) (f64_at buf <$> idxs) ->
  let acc := fold_left (Chart.scanStep buf) idxs (infinity, neg_infinity) in
  fst acc ∈ f64_at buf <$> idxs
  /\ snd acc ∈ f64_at buf <$> idxs
  /\ Forall (fun x => f64_le (fst acc) x /\ f64_le x (snd acc)) (f64_at buf <$> idxs).
Proof.
  destruct idxs as [|idx idxs]; [done|]. intros _ Hvals.
  rewrite fmap_cons in *. pose proof Hvals as Hall.
  apply Forall_cons in Hvals as [Hv Hvals].
  destruct (F64.finite_order _ Hv) as (Hinf & Hninf & _ & _).
  simpl fold_left. unfold Chart.scanStep at 2. unfold f64_gtb. simpl fst. simpl snd.
  rewrite Hinf, Hninf.
  apply (scan_extremes buf idxs _ _ [f64_at buf idx]).
  - by apply Forall_singleton.
  - exact Hvals.
  - by apply list_elem_of_singleton.
  - by apply list_elem_of_singleton.
  - apply Forall_singleton. pose proof (finite_not_nan _ Hv).
    split; by apply F64_leb_refl.
Qed.

(** C2, as the code has it.  A lane with samples in the window, all finite,
    is ranged from its least value lo and its greatest value hi: over
    lo - p .. hi + p with p = (hi - lo) * 0.1 when they differ, and when
    they are equal over (lo - 1) - p .. (hi + 1) + p with
    p = ((hi + 1) - (lo - 1)) * 0.1, the ten-percent padding following the
    widening as it follows any other range.  For samples that all hold the
    same value v that is (v - 1) - p .. (v + 1) + p. *)
Theorem lane_range_widened_then_padded (p : Chart.Props) (startTime : float)
    (buf : list float) :
  let values := windowValues p startTime buf in
  values <> [] ->
  Forall (fun x => is_finite x = true) values ->
  (exists lo hi : float,
     lo ∈ values /\ hi ∈ values
     /\ Forall (fun x => f64_le lo x /\ f64_le x hi) values
     /\ Chart.laneRange p startTime buf
        = Some (if (lo =? hi)%float
                then ((lo - 1 - (hi + 1 - (lo - 1)) * 0.1)%float,
                      (hi + 1 + (hi + 1 - (lo - 1)) * 0.1)%float)
                else ((lo - (hi - lo) * 0.1)%float, (hi + (hi - lo) * 0.1)%float)))
  /\ forall v : float,
       Forall (fun x => x = v) values ->
       Chart.laneRange p startTime buf
       = Some ((v - 1 - (v + 1 - (v - 1)) * 0.1)%float,
               (v + 1 + (v + 1 - (v - 1)) * 0.1)%float).
Proof.
  intros values Hsome Hfin. unfold values, windowValues in *.
  assert (Chart.windowIndices p startTime <> []) as Hidxs.
  { intros Hnil. by rewrite Hnil in Hsome. }
  destruct (scan_window_extremes buf _ Hidxs Hfin) as (Hlo & Hhi & Hbounds).
  assert (exists lo hi : float,
            lo ∈ f64_at buf <$> Chart.windowIndices p startTime
            /\ hi ∈ f64_at buf <$> Chart.windowIndices p startTime
            /\ Forall (fun x => f64_le lo x /\ f64_le x hi)
                 (f64_at buf <$> Chart.windowIndices p startTime)
            /\ Chart.laneRange p startTime buf
               = Some (if (lo =? hi)%float
                       then ((lo - 1 - (hi + 1 - (lo - 1)) * 0.1)%float,
                             (hi + 1 + (hi + 1 - (lo - 1)) * 0.1)%float)
                       else ((lo - (hi - lo) * 0.1)%float,
                             (hi + (hi - lo) * 0.1)%float))) as Hrange.
  { unfold Chart.laneRange, Chart.scan.
    destruct (fold_left _ _ _) as [lo hi]. simpl in Hlo, Hhi, Hbounds.
    exists lo, hi. split_and!; try done.
    assert ((length (Chart.windowIndices p startTime) =? 0)%nat = false) as ->.
    { apply Nat.eqb_neq. by destruct (Chart.windowIndices p startTime). }
    unfold isFinite.
    rewrite (proj1 (Forall_forall _ _) Hfin lo Hlo),
      (proj1 (Forall_forall _ _) Hfin hi Hhi). simpl.
    by destruct (lo =? hi)%float. }
  split; [exact Hrange|].
  intros v Hconst. destruct Hrange as (lo & hi & Hlo' & Hhi' & _ & ->).
  rewrite (proj1 (Forall_forall _ _) Hconst lo Hlo'),
    (proj1 (Forall_forall _ _) Hconst hi Hhi').
  assert (is_finite v = true) as Hv.
  { rewrite <- (proj1 (Forall_forall _ _) Hconst lo Hlo').
    by apply (proj1 (Forall_forall _ _) Hfin). }
  destruct (F64.finite_order v Hv) as (_ & _ & _ & ->). reflexivity.
Qed.

Lemma lane_range_widened_then_padded_witness :
  let values :=
    windowValues five_writes_props (Chart.startTimeOf five_writes_props five_second_lanes)
      [7; 9; 5]%float in
  (exists lo hi : float,
     lo ∈ values /\ hi ∈ values
     /\ Forall (fun x => f64_le lo x /\ f64_le x hi) values
     /\ Chart.laneRange five_writes_props
          (Chart.startTimeOf five_writes_props five_second_lanes) [7; 9; 5]%float
        = Some (if (lo =? hi)%float
                then ((lo - 1 - (hi + 1 - (lo - 1)) * 0.1)%float,
                      (hi + 1 + (hi + 1 - (lo - 1)) * 0.1)%float)
                else ((lo - (hi - lo) * 0.1)%float, (hi + (hi - lo) * 0.1)%float)))
  /\ forall v : float,
       Forall (fun x => x = v) values ->
       Chart.laneRange five_writes_props
         (Chart.startTimeOf five_writes_props five_second_lanes) [7; 9; 5]%float
       = Some ((v - 1 - (v + 1 - (v - 1)) * 0.1)%float,
               (v + 1 + (v + 1 - (v - 1)) * 0.1)%float).
Proof.
  refine (lane_range_widened_then_padded five_writes_props
            (Chart.startTimeOf five_writes_props five_second_lanes)
            [7; 9; 5]%float _ _).
  - vm_compute. discriminate.
  - vm_compute. repeat constructor.
Defined.

(** C2 as stated fails: for the constant 5.0 the lane is ranged over
    3.8 .. 6.2, not 4.0 .. 6.0. *)
Lemma constant_five_range_is_padded :
  Chart.laneRange constant_five (Chart.startTimeOf constant_five five_second_lanes)
    [5; 5; 5; 0]%float
  = Some (3.8, 6.2)%float
  /\ Chart.laneRange constant_five (Chart.startTimeOf constant_five five_second_lanes)
       [5; 5; 5; 0]%float
     <> Some (4, 6)%float.
Proof.
  split; [reflexivity|]. intros H.
  apply (f_equal (fun r => match r with
                           | Some (lo, _) => (lo <? 4)%float
                           | None => false
                           end)) in H.
  vm_compute in H. discriminate.
Qed.

(** ** Empty states of the chart *)




(** * Further properties of the code *)

(** ** The store between renders *)

Lemma writeChannels_Forall_length (buffers : list (list float)) (channels : list float)
    (head : Z) (n : nat) :
  Forall (fun buf => length buf = n) buffers ->
  Forall (fun buf => length buf = n) (Hook.writeChannels buffers channels head).
Proof.
  revert channels.
  induction buffers as [|buf buffers IH]; intros [|v channels] Hall; simpl;
    try done.
  apply Forall_cons in Hall as [Hbuf Hall].
  constructor; [by rewrite f64_set_length|by apply IH].
Qed.

Lemma fresh_allocated (o : Hook.Options) (s : Hook.State) :
  0 < Hook.bufferSize o -> fresh o s -> allocated o s.
Proof.
  unfold fresh, ring, allocated. intros HC [= -> -> -> ->]. unfold Float64Array.
  rewrite !length_replicate. split_and!; try done; try lia.
  apply Forall_replicate. apply length_replicate.
Qed.

(** Every event keeps an allocated store allocated. *)
Lemma step_allocated (js : Hook.Engine) (o : Hook.Options) (w : Hook.World)
    (e : Hook.Event) :
  0 < Hook.bufferSize o ->
  allocated o (Hook.hook w) -> allocated o (Hook.hook (Hook.step js o w e)).
Proof.
  intros HC Hinv.
  destruct e as [perfNow [[[ts|] [payload|]]|]|ws perfNow| |]; simpl; try exact Hinv.
  - destruct (Hook.isStringStream o); [exact Hinv|].
    destruct Hinv as (Hn & Hbufs & Hts & Hhead & Hcount).
    pose proof (Z.rem_bound_pos (Hook.writeHeadRef (Hook.hook w) + 1)
                  (Hook.bufferSize o) ltac:(lia) HC) as Hrem.
    unfold Hook.scheduleRender. simpl.
    destruct (Hook.rafRef (Hook.hook w)); unfold allocated; simpl;
      rewrite writeChannels_length, f64_set_length;
      (split_and!; [done|by apply writeChannels_Forall_length|done|lia..]).
  - unfold Hook.ensureBuffers.
    destruct ((0 <? Hook.channelCount o) && _) eqn:Hre.
    + apply andb_prop in Hre as [Hpos Hne]. apply Z.ltb_lt in Hpos.
      apply negb_true_iff, Z.eqb_neq in Hne. destruct Hinv as (Hn & _). lia.
    + unfold Hook.trackConnectTime.
      by destruct (Hook.WsState_eqb ws Hook.open && _), (Hook.WsState_eqb ws Hook.closed).
  - destruct (frames_keep (Hook.hook w) (Hook.rafPending w)) as [Hring _].
    unfold ring in Hring. injection Hring as H1 H2 H3 H4.
    unfold allocated. by rewrite H1, H2, H3, H4.
  - unfold Hook.disconnect. by destruct (Hook.rafRef (Hook.hook w)).
Qed.

Lemma run_allocated (js : Hook.Engine) (o : Hook.Options) (w : Hook.World)
    (es : list Hook.Event) :
  0 < Hook.bufferSize o ->
  allocated o (Hook.hook w) -> allocated o (Hook.hook (Hook.run js o w es)).
Proof.
  intros HC. revert w. induction es as [|e es IH]; intros w Hinv; [exact Hinv|].
  simpl. apply IH. by apply step_allocated.
Qed.

Lemma rendered_allocated (js : Hook.Engine) (o : Hook.Options) (ws : Hook.WsState)
    (perfNow : float) (es : list Hook.Event) :
  0 < Hook.channelCount o -> 0 < Hook.bufferSize o ->
  allocated o (Hook.hook (Hook.run js o Hook.mount (Hook.Render ws perfNow :: es))).
Proof.
  intros Hn HC.
  change (Hook.run js o Hook.mount (Hook.Render ws perfNow :: es))
    with (Hook.run js o (Hook.step js o Hook.mount (Hook.Render ws perfNow)) es).
  apply run_allocated; [done|].
  apply fresh_allocated; [done|]. by apply (first_render_fresh js).
Qed.

(** X1.  From the first render of a stream with at least one channel and a
    positive capacity on, whatever happens to the hook: the store holds one
    array for every channel, every array and the timestamps have the
    capacity's length, the write head lies in [0, capacity) and the sample
    count in [0, capacity]. *)
Theorem store_keeps_its_shape (js : Hook.Engine) (o : Hook.Options) (ws : Hook.WsState)
    (perfNow : float) (es : list Hook.Event) :
  0 < Hook.channelCount o -> 0 < Hook.bufferSize o ->
  let s := Hook.hook (Hook.run js o Hook.mount (Hook.Render ws perfNow :: es)) in
  length (Hook.buffersRef s) = Z.to_nat (Hook.channelCount o)
  /\ (forall ch buf, Hook.buffersRef s !! ch = Some buf ->
        length buf = Z.to_nat (Hook.bufferSize o))
  /\ length (Hook.tsRef s) = Z.to_nat (Hook.bufferSize o)
  /\ 0 <= Hook.writeHeadRef s < Hook.bufferSize o
  /\ 0 <= Hook.sampleCountRef s <= Hook.bufferSize o.
Proof.
  intros Hn HC s.
  destruct (rendered_allocated js o ws perfNow es Hn HC) as (H1 & H2 & H3 & H4 & H5).
  fold s in H1, H2, H3, H4, H5. split_and!; try done; try lia.
  intros ch buf Hbuf. by eapply Forall_lookup_1 in H2.
Qed.

Lemma store_keeps_its_shape_witness :
  let s :=
    Hook.hook (Hook.run plain two_channels Hook.mount
                 (Hook.Render Hook.connecting 0 :: five_writes)) in
  length (Hook.buffersRef s) = Z.to_nat (Hook.channelCount two_channels)
  /\ (forall ch buf, Hook.buffersRef s !! ch = Some buf ->
        length buf = Z.to_nat (Hook.bufferSize two_channels))
  /\ length (Hook.tsRef s) = Z.to_nat (Hook.bufferSize two_channels)
  /\ 0 <= Hook.writeHeadRef s < Hook.bufferSize two_channels
  /\ 0 <= Hook.sampleCountRef s <= Hook.bufferSize two_channels.
Proof.
  exact (store_keeps_its_shape plain two_channels Hook.connecting 0%float five_writes
           eq_refl eq_refl).
Defined.

(** X2.  On every path from the first render of a stream with channels and
    a positive capacity, each index [draw] computes for a valid sample, and
    the index of the latest one, lies inside the timestamps and inside every
    channel array the hook returns: no read of [draw] falls outside them. *)
Theorem draw_reads_inside_the_store (js : Hook.Engine) (o : Hook.Options)
    (ws ws' : Hook.WsState) (perfNow : float) (es : list Hook.Event)
    (names : list string) (srate : float) :
  0 < Hook.channelCount o -> 0 < Hook.bufferSize o ->
  let s := Hook.hook (Hook.run js o Hook.mount (Hook.Render ws perfNow :: es)) in
  let p := chartProps (Hook.result ws' s) names srate in
  inside p (Chart.latestIdx p)
  /\ forall i : Z, 0 <= i < Chart.sampleCount p -> inside p (Chart.sampleIndex p i).
Proof.
  intros Hn HC s p.
  destruct (rendered_allocated js o ws perfNow es Hn HC) as (H1 & H2 & H3 & H4 & H5).
  fold s in H1, H2, H3, H4, H5.
  assert (forall idx, 0 <= idx < Hook.bufferSize o -> inside p (Some idx)) as Hin.
  { intros idx Hidx. exists idx. unfold p, chartProps. simpl. rewrite H3.
    split_and!; [done|lia..|].
    eapply Forall_impl; [exact H2|]. simpl. intros buf ->. lia. }
  assert (forall x, 0 <= x -> inside p (js_rem x (Hook.bufferSize o))) as Hrem.
  { intros x Hx. unfold js_rem. rewrite (proj2 (Z.eqb_neq _ 0)) by lia.
    apply Hin. apply Z.rem_bound_pos; lia. }
  split.
  - unfold Chart.latestIdx, p, chartProps. simpl. rewrite H3, Z2Nat.id by lia.
    apply Hrem. lia.
  - intros i Hi. unfold Chart.sampleIndex, p, chartProps in *. simpl in *.
    rewrite H3, Z2Nat.id by lia. apply Hrem. lia.
Qed.

Lemma draw_reads_inside_the_store_witness :
  let s :=
    Hook.hook (Hook.run plain two_channels Hook.mount
                 (Hook.Render Hook.connecting 0 :: five_writes)) in
  let p := chartProps (Hook.result Hook.open s) ["Fz"; "Cz"] 100 in
  inside p (Chart.latestIdx p)
  /\ forall i : Z, 0 <= i < Chart.sampleCount p -> inside p (Chart.sampleIndex p i).
Proof.
  exact (draw_reads_inside_the_store plain two_channels Hook.connecting Hook.open
           0%float five_writes ["Fz"; "Cz"] 100%float eq_refl eq_refl).
Defined.

(** ** Statistics over histories *)

Lemma step_numeric_totals (js : Hook.Engine) (o : Hook.Options) (w : Hook.World)
    (a : Arrival float) :
  Hook.isStringStream o = false ->
  let st := Hook.statsRef (Hook.hook w) in
  let st' := Hook.statsRef (Hook.hook (Hook.step js o w (numericEvent a))) in
  Hook.totalSamples st' = Hook.totalSamples st + 1
  /\ Hook.latestTimestamp st' = stamp a.
Proof.
  intros Hs. simpl. rewrite Hs. unfold Hook.scheduleRender. simpl.
  by destruct (Hook.rafRef (Hook.hook w)).
Qed.

(** Nothing but an accepted write of a numeric stream touches the
    statistics. *)
Lemma step_other_stats (js : Hook.Engine) (o : Hook.Options) (w : Hook.World)
    (e : Hook.Event) :
  Hook.isStringStream o = true \/ acceptedWrite js e = None ->
  Hook.statsRef (Hook.hook (Hook.step js o w e)) = Hook.statsRef (Hook.hook w).
Proof.
  intros Hrej.
  destruct e as [perfNow [[[ts|] [payload|]]|]|ws perfNow| |]; try done.
  - destruct Hrej as [Hs|]; [|done]. simpl. by rewrite Hs.
  - by destruct (step_render_cells js o w ws perfNow) as (-> & _).
  - simpl. by destruct (frames_keep (Hook.hook w) (Hook.rafPending w)) as (_ & -> & _).
  - simpl. unfold Hook.disconnect. by destruct (Hook.rafRef (Hook.hook w)).
Qed.

(** X3.  Over any history of a numeric stream, from any state of the hook,
    totalSamples grows by the number of accepted writes and latestTimestamp
    is the timestamp of the last of them: no render, reallocation, display
    refresh or disconnect resets either. *)
Theorem totals_count_every_accepted_write (js : Hook.Engine) (o : Hook.Options)
    (w0 : Hook.World) (es : list Hook.Event) :
  Hook.isStringStream o = false ->
  let st0 := Hook.statsRef (Hook.hook w0) in
  let st := Hook.statsRef (Hook.hook (Hook.run js o w0 es)) in
  Hook.totalSamples st = Hook.totalSamples st0 + Z.of_nat (length (writesOf js es))
  /\ Hook.latestTimestamp st
     = match last (writesOf js es) with
       | Some a => stamp a
       | None => Hook.latestTimestamp st0
       end.
Proof.
  intros Hs. cbv zeta. induction es as [|e es IH] using rev_ind.
  - simpl. split; [lia|done].
  - rewrite run_snoc. unfold writesOf in *. rewrite omap_snoc.
    destruct (acceptedWrite js e) as [a|] eqn:He.
    + rewrite (acceptedWrite_step js o _ e a Hs He).
      destruct (step_numeric_totals js o (Hook.run js o w0 es) a Hs) as [-> ->].
      rewrite last_snoc, length_app. simpl. split; [|done].
      destruct IH as [-> _]. lia.
    + rewrite app_nil_r, step_other_stats by (by right). exact IH.
Qed.

Lemma totals_count_every_accepted_write_witness :
  let st0 := Hook.statsRef (Hook.hook two_channels_mounted) in
  let st :=
    Hook.statsRef (Hook.hook (Hook.run plain two_channels two_channels_mounted
                                five_writes)) in
  Hook.totalSamples st
  = Hook.totalSamples st0 + Z.of_nat (length (writesOf plain five_writes))
  /\ Hook.latestTimestamp st
     = match last (writesOf plain five_writes) with
       | Some a => stamp a
       | None => Hook.latestTimestamp st0
       end.
Proof.
  exact (totals_count_every_accepted_write plain two_channels two_channels_mounted
           five_writes eq_refl).
Defined.


Lemma step_untouched (js : Hook.Engine) (o : Hook.Options) (w : Hook.World)
    (e : Hook.Event) :
  Hook.isStringStream o = true -> untouched w -> untouched (Hook.step js o w e).
Proof.
  intros Hs Hinv.
  pose proof Hinv as (Hst & Hq & Hcount & Hhead & Hdirty & Hraf & Hp & Ht).
  destruct e as [perfNow [[[ts|] [payload|]]|]|ws perfNow| |]; simpl; rewrite ?Hs;
    try exact Hinv.
  - unfold untouched. simpl.
    destruct (step_render_cells js o w ws perfNow) as (Hst' & Hq' & _).
    destruct (render_keeps_scheduler o ws perfNow (Hook.hook w))
      as (Hraf' & Hdirty' & Ht').
    simpl in Hst', Hq', Hraf', Hdirty', Ht'.
    rewrite Hst', Hq', Hraf', Hdirty', Ht'. split_and!; try done.
    + unfold Hook.trackConnectTime, Hook.ensureBuffers.
      by destruct ((0 <? Hook.channelCount o) && _),
           (Hook.WsState_eqb ws Hook.open && _), (Hook.WsState_eqb ws Hook.closed).
    + unfold Hook.trackConnectTime, Hook.ensureBuffers.
      by destruct ((0 <? Hook.channelCount o) && _),
           (Hook.WsState_eqb ws Hook.open && _), (Hook.WsState_eqb ws Hook.closed).
  - unfold untouched, Hook.animationFrame. simpl. by rewrite Hp.
  - unfold Hook.disconnect. by rewrite Hraf.
Qed.

(** What the events of a string stream leave alone, whatever the hook held:
    the statistics, the rate window, and the count of frames requested. *)
Lemma step_string_stream (js : Hook.Engine) (o : Hook.Options) (w : Hook.World)
    (e : Hook.Event) :
  Hook.isStringStream o = true ->
  let w' := Hook.step js o w e in
  Hook.statsRef (Hook.hook w') = Hook.statsRef (Hook.hook w)
  /\ Hook.rateWindowRef (Hook.hook w') = Hook.rateWindowRef (Hook.hook w)
  /\ Hook.rafNext w' = Hook.rafNext w
  /\ (ring (Hook.hook w') = ring (Hook.hook w)
      \/ (Hook.sampleCountRef (Hook.hook w') = 0 /\ Hook.writeHeadRef (Hook.hook w') = 0)).
Proof.
  intros Hs.
  destruct e as [perfNow [[[ts|] [payload|]]|]|ws perfNow| |]; simpl; rewrite ?Hs;
    try (split_and!; [done..|by left]).
  - destruct (step_render_cells js o w ws perfNow) as (Hst & Hq & _).
    simpl in Hst, Hq. rewrite Hst, Hq. split_and!; [done..|].
    unfold Hook.trackConnectTime, Hook.ensureBuffers.
    destruct ((0 <? Hook.channelCount o) && _);
      destruct (Hook.WsState_eqb ws Hook.open && _), (Hook.WsState_eqb ws Hook.closed);
      simpl; auto.
  - destruct (frames_keep (Hook.hook w) (Hook.rafPending w)) as (Hring & -> & -> & _).
    split_and!; [done..|by left].
  - unfold Hook.disconnect. destruct (Hook.rafRef (Hook.hook w)); simpl;
      (split_and!; [done..|by left]).
Qed.

Lemma run_untouched (js : Hook.Engine) (w : Hook.World) (es : list Session.Event) :
  Forall (fun e => Hook.isStringStream (fst e) = true) es ->
  untouched w -> untouched (Session.run js w es).
Proof.
  intros Hes Hw. induction es as [|[o e] es IH] using rev_ind; [done|].
  apply Forall_app in Hes as [Hes He]. rewrite Forall_singleton in He.
  unfold Session.run. rewrite fold_left_app. simpl.
  apply step_untouched; [exact He|by apply IH].
Qed.

(** X4.  While a string stream is selected no message counts.  Over any
    stretch of a session in which every event is handled under the options
    of a string stream, whatever the hook held at its start: the statistics
    and the rate window stay what they were, so after a numeric stream they
    still show its figures; no frame is requested; and the store is as it
    was unless a render has allocated it anew, empty.  A hook that nothing
    had touched, as at the mount, stays untouched. *)
Theorem marker_stream_never_counts (js : Hook.Engine) (w : Hook.World)
    (es : list Session.Event) :
  Forall (fun e => Hook.isStringStream (fst e) = true) es ->
  let w' := Session.run js w es in
  Hook.statsRef (Hook.hook w') = Hook.statsRef (Hook.hook w)
  /\ Hook.rateWindowRef (Hook.hook w') = Hook.rateWindowRef (Hook.hook w)
  /\ Hook.rafNext w' = Hook.rafNext w
  /\ (ring (Hook.hook w') = ring (Hook.hook w)
      \/ (Hook.sampleCountRef (Hook.hook w') = 0 /\ Hook.writeHeadRef (Hook.hook w') = 0))
  /\ (untouched w -> untouched w').
Proof.
  intros Hes. cbv zeta.
  assert (Hook.statsRef (Hook.hook (Session.run js w es)) = Hook.statsRef (Hook.hook w)
          /\ Hook.rateWindowRef (Hook.hook (Session.run js w es))
             = Hook.rateWindowRef (Hook.hook w)
          /\ Hook.rafNext (Session.run js w es) = Hook.rafNext w
          /\ (ring (Hook.hook (Session.run js w es)) = ring (Hook.hook w)
              \/ (Hook.sampleCountRef (Hook.hook (Session.run js w es)) = 0
                  /\ Hook.writeHeadRef (Hook.hook (Session.run js w es)) = 0)))
    as (Hst & Hq & Hnext & Hring).
  { induction es as [|[o e] es IH] using rev_ind; [by split_and!; try left|].
    apply Forall_app in Hes as [Hes He]. rewrite Forall_singleton in He.
    destruct (IH Hes) as (IHst & IHq & IHnext & IHring).
    unfold Session.run in *. rewrite fold_left_app. simpl.
    destruct (step_string_stream js o (fold_left (Session.step js) es w) e He)
      as (Hst & Hq & Hnext & Hring).
    unfold Session.step at 1 3 5 7 9 11. simpl fst. simpl snd.
    rewrite Hst, Hq, Hnext. split_and!; try done.
    destruct Hring as [Hsame|Hzero]; [|by right].
    destruct IHring as [IHsame|[IHcount IHhead]]; [left; by rewrite Hsame|].
    right. unfold ring in Hsame. by injection Hsame as _ _ -> ->. }
  split_and!; try done. by apply run_untouched.
Qed.

Lemma marker_stream_never_counts_witness :
  let w' :=
    Session.run plain connected_two_samples (Session.under string_stream six_hundred) in
  Hook.statsRef (Hook.hook w') = Hook.statsRef (Hook.hook connected_two_samples)
  /\ Hook.rateWindowRef (Hook.hook w')
     = Hook.rateWindowRef (Hook.hook connected_two_samples)
  /\ Hook.rafNext w' = Hook.rafNext connected_two_samples
  /\ (ring (Hook.hook w') = ring (Hook.hook connected_two_samples)
      \/ (Hook.sampleCountRef (Hook.hook w') = 0 /\ Hook.writeHeadRef (Hook.hook w') = 0))
  /\ (untouched connected_two_samples -> untouched w').
Proof.
  refine (marker_stream_never_counts plain connected_two_samples
            (Session.under string_stream six_hundred) _).
  apply Forall_fmap, Forall_true. reflexivity.
Defined.

(** X5.  A message that is no object, or lacks its timestamp or its
    payload, leaves no trace: every history ends in the world that the
    history without such messages ends in. *)
Theorem malformed_messages_leave_no_trace (js : Hook.Engine) (o : Hook.Options)
    (w : Hook.World) (es : list Hook.Event) :
  Hook.run js o w es
  = Hook.run js o w (filter (fun e => malformed e = false) es).
Proof.
  revert w. induction es as [|e es IH]; intros w; [done|].
  rewrite filter_cons. destruct (decide (malformed e = false)) as [Hok|Hbad].
  - simpl. apply IH.
  - simpl. rewrite <- IH. f_equal.
    destruct e as [perfNow [[[ts|] [payload|]]|]|ws perfNow| |]; try done;
      by destruct Hbad.
Qed.

(** ** Renders and the store *)



(** ** Disconnecting *)

(** X7.  [disconnect] cancels the draw that is pending, if any: afterwards
    no callback is pending and the in-flight flag is clear, so the next
    display refresh forces no re-render and leaves the hook as it is; the
    store and the dirty flag are as before, and on a numeric stream the
    next accepted write requests a frame again. *)
Theorem disconnect_cancels_pending_draw (js : Hook.Engine) (o : Hook.Options)
    (w : Hook.World) :
  reachable js o w ->
  let w' := Hook.step js o w Hook.Disconnect in
  Hook.rafPending w' = []
  /\ Hook.rafRef (Hook.hook w') = None
  /\ Hook.hook (Hook.step js o w' Hook.AnimationFrame) = Hook.hook w'
  /\ ring (Hook.hook w') = ring (Hook.hook w)
  /\ Hook.dirtyRef (Hook.hook w') = Hook.dirtyRef (Hook.hook w)
  /\ (Hook.isStringStream o = false ->
      forall a : Arrival float, frame_requested (Hook.step js o w' (numericEvent a))).
Proof.
  intros Hw w'.
  pose proof (reachable_frame_in_flight js o w Hw) as Hinv.
  assert (Hook.rafPending w' = [] /\ Hook.rafRef (Hook.hook w') = None) as [Hp Hraf].
  { unfold w', frame_in_flight in *. simpl. unfold Hook.disconnect.
    destruct (Hook.rafRef (Hook.hook w)) as [id|] eqn:Hid; simpl.
    - rewrite Hinv. by rewrite filter_cons_False by (intros Hne; by apply Hne).
    - by rewrite Hid. }
  split_and!; try done.
  - simpl. unfold Hook.animationFrame. simpl. by rewrite Hp.
  - unfold w'. simpl. unfold Hook.disconnect.
    by destruct (Hook.rafRef (Hook.hook w)).
  - unfold w'. simpl. unfold Hook.disconnect.
    by destruct (Hook.rafRef (Hook.hook w)).
  - intros Hs a. apply step_numeric_scheduler; [done|].
    apply (frame_in_flight_step js o w Hook.Disconnect Hinv).
Qed.

Lemma disconnect_cancels_pending_draw_witness :
  let w' := Hook.step plain numeric_stream connected_two_samples Hook.Disconnect in
  Hook.rafPending connected_two_samples = [1]
  /\ Hook.rafPending w' = []
  /\ Hook.tick (Hook.hook (Hook.step plain numeric_stream w' Hook.AnimationFrame))
     = Hook.tick (Hook.hook connected_two_samples).
Proof.
  pose proof (disconnect_cancels_pending_draw plain numeric_stream
                connected_two_samples connected_two_samples_reachable) as H.
  cbv zeta in *. split_and!.
  - reflexivity.
  - exact (proj1 H).
  - rewrite (proj1 (proj2 (proj2 H))). reflexivity.
Defined.

(** ** Before a stream with channels *)




(** ** The time window *)

(** X9.  After any history over a freshly allocated store of a numeric
    stream in which a write was accepted, the index [draw] takes for the
    latest sample holds the timestamp of the last accepted write, so the
    window [draw] shows ends at that timestamp and starts [windowSeconds]
    before it. *)
Theorem window_ends_at_newest_sample (js : Hook.Engine) (o : Hook.Options)
    (w0 : Hook.World) (es : list Hook.Event) (ws : Hook.WsState)
    (names : list string) (srate : float) (v : Chart.View) (a : Arrival float) :
  0 < Hook.bufferSize o ->
  Hook.isStringStream o = false ->
  fresh o (Hook.hook w0) ->
  last (writesOf js es) = Some a ->
  let p := chartProps (Hook.result ws (Hook.hook (Hook.run js o w0 es))) names srate in
  f64_at (Chart.timestamps p) (Chart.latestIdx p) = stamp a
  /\ Chart.startTimeOf p v = (stamp a - Chart.windowSeconds v)%float.
Proof.
  intros HC Hs Hfresh Hlast p.
  set (s := Hook.hook (Hook.run js o w0 es)).
  assert (ring s = fold_left (ringWrite o) (writesOf js es) (ring (Hook.hook w0)))
    as Hring.
  { apply run_ring; [done|]. unfold fresh, ring in Hfresh.
    injection Hfresh as -> _ _ _. apply length_replicate. }
  rewrite Hfresh in Hring.
  destruct (ring_after_writes o (writesOf js es) _ _ _ _ HC (eq_sym Hring))
    as (Hhead & _ & Hlen & _ & _ & Hcells).
  apply last_Some in Hlast as [older Hwrites].
  set (C := Hook.bufferSize o) in *.
  set (k := length older).
  assert (Z.of_nat (length (writesOf js es)) = Z.of_nat k + 1) as HW.
  { rewrite Hwrites, length_app. simpl. lia. }
  destruct (Hcells k a) as [Hts _].
  { rewrite Hwrites. by apply list_lookup_middle. }
  { lia. }
  assert (0 <= Z.of_nat k mod C < C) as Hk by (apply Z.mod_pos_bound; lia).
  assert (Chart.latestIdx p = Some (Z.of_nat k mod C)) as Hidx.
  { unfold Chart.latestIdx, p, chartProps, js_rem. simpl. fold s.
    rewrite Hlen, Hhead, HW. rewrite Z2Nat.id by lia. fold C.
    rewrite (proj2 (Z.eqb_neq C 0)) by lia. f_equal.
    pose proof (Z.mod_pos_bound (Z.of_nat k + 1) C HC) as Hm.
    rewrite Z.rem_mod_nonneg by lia.
    pose proof (Z.div_mod (Z.of_nat k + 1) C ltac:(lia)) as Hdm.
    replace ((Z.of_nat k + 1) mod C - 1 + C)
      with (Z.of_nat k + (1 - (Z.of_nat k + 1) / C) * C) by lia.
    apply Z_mod_plus_full. }
  assert (f64_at (Chart.timestamps p) (Chart.latestIdx p) = stamp a) as Hget.
  { rewrite Hidx. unfold f64_at, f64_get, p, chartProps. simpl. fold s.
    destruct (Z.ltb_spec (Z.of_nat k mod C) 0); [lia|]. by rewrite Hts. }
  split; [exact Hget|].
  unfold Chart.startTimeOf. by rewrite <- Hget.
Qed.

Lemma window_ends_at_newest_sample_witness :
  let p := chartProps (Hook.result Hook.open (Hook.hook after_five_writes)) [] 0 in
  f64_at (Chart.timestamps p) (Chart.latestIdx p) = 14%float
  /\ Chart.startTimeOf p five_second_lanes = 9%float.
Proof.
  pose proof (window_ends_at_newest_sample plain two_channels two_channels_mounted
                five_writes Hook.open [] 0%float five_second_lanes
                {| arrivedAt := 1040; stamp := 14; payload := [9; 10]%float |}
                eq_refl eq_refl eq_refl eq_refl) as H.
  split; [exact (proj1 H) | reflexivity].
Defined.

(** ** The order of the lanes *)

Lemma String_leb_trans (s1 s2 s3 : string) :
  String.leb s1 s2 = true -> String.leb s2 s3 = true -> String.leb s1 s3 = true.
Proof.
  revert s2 s3.
  induction s1 as [|c1 s1 IH]; intros [|c2 s2] [|c3 s3]; unfold String.leb; simpl;
    try done.
  unfold Ascii.compare.
  destruct (N.compare_spec (N_of_ascii c1) (N_of_ascii c2)) as [H12|H12|H12];
    destruct (N.compare_spec (N_of_ascii c2) (N_of_ascii c3)) as [H23|H23|H23];
    destruct (N.compare_spec (N_of_ascii c1) (N_of_ascii c3)) as [H13|H13|H13];
    try done; try lia.
  apply IH.
Qed.

Lemma decimal_inj (a b : nat) : decimal a = decimal b -> a = b.
Proof.
  unfold decimal. intros Heq.
  assert (forall n, Nat.to_uint n <> Decimal.Nil) as Hnil.
  { intros n. rewrite <- (Unsigned.of_to n) at 1. rewrite Unsigned.to_of.
    apply unorm_nonnil. }
  apply Unsigned.to_uint_inj.
  pose proof (NilZero.usu _ (Hnil a)) as Ha. pose proof (NilZero.usu _ (Hnil b)) as Hb.
  rewrite Heq in Ha. congruence.
Qed.

Lemma before_total (a b : nat) : before a b \/ before b a.
Proof. apply String.leb_total. Qed.

Lemma before_trans (a b c : nat) : before a b -> before b c -> before a c.
Proof. apply String_leb_trans. Qed.

Lemma before_antisym (a b : nat) : before a b -> before b a -> a = b.
Proof. intros Hab Hba. apply decimal_inj. by apply String.leb_antisym. Qed.

Lemma sort_insert_Permutation (x : nat) (xs : list nat) :
  Chart.sort_insert x xs ≡ₚ x :: xs.
Proof.
  induction xs as [|y ys IH]; [done|]. simpl.
  destruct (Chart.sort_leb x y); [done|]. rewrite IH. apply Permutation_swap.
Qed.

Lemma sort_insert_sorted (x : nat) (xs : list nat) :
  StronglySorted before xs -> StronglySorted before (Chart.sort_insert x xs).
Proof.
  induction 1 as [|y ys Hys IH Hy]; [repeat constructor|]. simpl.
  destruct (Chart.sort_leb x y) eqn:Hxy.
  - constructor; [by constructor|]. constructor; [exact Hxy|].
    eapply Forall_impl; [exact Hy|]. intros z Hyz. by eapply before_trans.
  - constructor; [exact IH|].
    rewrite sort_insert_Permutation. constructor; [|exact Hy].
    destruct (before_total x y) as [H|H]; [|exact H]. unfold before in H. congruence.
Qed.

Lemma sort_Permutation (xs : list nat) : Chart.sort xs ≡ₚ xs.
Proof.
  induction xs as [|x xs IH]; [done|]. simpl.
  by rewrite sort_insert_Permutation, IH.
Qed.

Lemma sort_sorted (xs : list nat) : StronglySorted before (Chart.sort xs).
Proof.
  induction xs as [|x xs IH]; [constructor|]. simpl. by apply sort_insert_sorted.
Qed.

(** Lists with the same members sort to the same list. *)
Lemma sort_unique (xs ys : list nat) : xs ≡ₚ ys -> Chart.sort xs = Chart.sort ys.
Proof.
  intros Hp. apply (StronglySorted_unique_strong before).
  - intros a b _ _. apply before_antisym.
  - apply sort_sorted.
  - apply sort_sorted.
  - by rewrite !sort_Permutation.
Qed.

(** Below ten the order of the decimal forms is the order of the numbers. *)
Lemma before_below_ten (a b : nat) :
  (a < 10)%nat -> (b < 10)%nat -> before a b -> (a <= b)%nat.
Proof.
  unfold before. intros Ha Hb.
  do 10 (destruct a as [|a];
         [do 10 (destruct b as [|b]; [vm_compute; try lia; discriminate|]); lia|]).
  lia.
Qed.

(** X10.  The active channels are the visible channels that the stream
    has, each as often as it is listed, in the order of their decimal forms;
    with at most ten channels that is the ascending order of the indices. *)
Theorem activeChannels_in_string_order (p : Chart.Props) (v : Chart.View) :
  Chart.activeChannels p v
  ≡ₚ filter (fun i => (i < length (Chart.channelBuffers p))%nat)
       (Chart.visibleChannels v)
  /\ StronglySorted before (Chart.activeChannels p v)
  /\ ((length (Chart.channelBuffers p) <= 10)%nat ->
      StronglySorted le (Chart.activeChannels p v)).
Proof.
  unfold Chart.activeChannels.
  set (shown := filter _ (Chart.visibleChannels v)).
  split_and!; [apply sort_Permutation|apply sort_sorted|].
  intros Hten.
  assert (Forall (fun i => (i < 10)%nat) (Chart.sort shown)) as Hsmall.
  { rewrite sort_Permutation. apply Forall_forall. intros i Hi.
    apply list_elem_of_filter in Hi as [Hi _]. lia. }
  pose proof (sort_sorted shown) as Hsorted.
  induction Hsorted as [|x xs Hxs IH Hx]; [constructor|].
  apply Forall_cons in Hsmall as [Hx10 Hsmall].
  constructor; [by apply IH|].
  apply Forall_forall. intros y Hy.
  apply before_below_ten; [done|by eapply Forall_forall in Hsmall|].
  by eapply Forall_forall in Hx.
Qed.

Lemma activeChannels_in_string_order_witness :
  Chart.activeChannels five_writes_props second_first = [0%nat; 1%nat]
  /\ StronglySorted le (Chart.activeChannels five_writes_props second_first).
Proof.
  split; [reflexivity|].
  apply (proj2 (proj2 (activeChannels_in_string_order five_writes_props second_first))).
  vm_compute. lia.
Defined.

Lemma elem_of_activeChannels (p : Chart.Props) (v : Chart.View) (i : nat) :
  i ∈ Chart.activeChannels p v
  <-> i ∈ Chart.visibleChannels v /\ (i < length (Chart.channelBuffers p))%nat.
Proof.
  unfold Chart.activeChannels. rewrite sort_Permutation.
  rewrite list_elem_of_filter. tauto.
Qed.

(** X11.  With more than ten channels the lanes leave the channel order:
    whenever channels 2 and 10 are both visible, channel 10 is listed, and
    its lane drawn, before channel 2, so the active channels are not in
    ascending order. *)
Theorem lanes_leave_channel_order (p : Chart.Props) (v : Chart.View) :
  2%nat ∈ Chart.visibleChannels v ->
  10%nat ∈ Chart.visibleChannels v ->
  (10 < length (Chart.channelBuffers p))%nat ->
  (exists l1 l2 l3 : list nat,
     Chart.activeChannels p v = l1 ++ 10%nat :: l2 ++ 2%nat :: l3)
  /\ ~ StronglySorted le (Chart.activeChannels p v).
Proof.
  intros H2 H10 Hn.
  assert (2%nat ∈ Chart.activeChannels p v) as Ha2
    by (apply elem_of_activeChannels; split; [done|lia]).
  assert (10%nat ∈ Chart.activeChannels p v) as Ha10
    by (apply elem_of_activeChannels; split; [done|lia]).
  pose proof (sort_sorted
                (filter (fun i => (i < length (Chart.channelBuffers p))%nat)
                   (Chart.visibleChannels v))) as Hsorted.
  fold (Chart.activeChannels p v) in Hsorted.
  destruct (list_elem_of_split _ _ Ha10) as (l1 & rest & Hsplit).
  rewrite Hsplit in Ha2, Hsorted.
  apply elem_of_app in Ha2 as [Hl1|Hrest].
  - exfalso.
    assert (before 2 10) as Hb.
    { eapply (StronglySorted_app_1_elem_of before); [exact Hsorted|exact Hl1|].
      apply list_elem_of_here. }
    vm_compute in Hb. discriminate.
  - apply elem_of_cons in Hrest as [Heq|Hrest]; [discriminate|].
    destruct (list_elem_of_split _ _ Hrest) as (l2 & l3 & Hsplit2).
    split.
    + exists l1, l2, l3. by rewrite Hsplit, Hsplit2.
    + rewrite Hsplit. intros Hle.
      apply StronglySorted_app_1_r, StronglySorted_cons in Hle as [Hall _].
      eapply Forall_forall in Hall; [|exact Hrest]. lia.
Qed.

Lemma lanes_leave_channel_order_witness :
  Chart.activeChannels twelve_channels twelve_shown
  = [0; 1; 10; 11; 2; 3; 4; 5; 6; 7; 8; 9]%nat
  /\ ~ StronglySorted le (Chart.activeChannels twelve_channels twelve_shown).
Proof.
  split; [reflexivity|].
  refine (proj2 (lanes_leave_channel_order twelve_channels twelve_shown _ _ _)).
  - apply list_elem_of_In. vm_compute. tauto.
  - apply list_elem_of_In. vm_compute. tauto.
  - vm_compute. lia.
Defined.

(** ** The legend *)

Lemma toggleChannel_NoDup (idx : nat) (prev : list nat) :
  NoDup prev -> NoDup (Chart.toggleChannel idx prev).
Proof.
  intros Hnd. unfold Chart.toggleChannel. case_bool_decide as Hin.
  - by apply NoDup_filter.
  - apply NoDup_app. split_and!; [done| |apply NoDup_singleton].
    intros x Hx Hx'. apply list_elem_of_singleton in Hx'. by subst.
Qed.

(** Clicking a legend button twice leaves the members as they were. *)
Lemma toggleChannel_twice (idx : nat) (prev : list nat) :
  NoDup prev ->
  Chart.toggleChannel idx (Chart.toggleChannel idx prev) ≡ₚ prev.
Proof.
  intros Hnd. unfold Chart.toggleChannel at 2. case_bool_decide as Hin.
  - unfold Chart.toggleChannel. rewrite bool_decide_eq_false_2.
    2:{ intros Hf. apply list_elem_of_filter in Hf as [Hne _]. by apply Hne. }
    apply NoDup_Permutation; [|done|].
    { apply NoDup_app. split_and!; [by apply NoDup_filter| |apply NoDup_singleton].
      intros x Hx Hx'. apply list_elem_of_singleton in Hx'. subst.
      apply list_elem_of_filter in Hx as [Hne _]. by apply Hne. }
    intros x. rewrite elem_of_app, list_elem_of_filter, list_elem_of_singleton.
    destruct (decide (x = idx)) as [->|Hne]; [tauto|]. tauto.
  - unfold Chart.toggleChannel. rewrite bool_decide_eq_true_2.
    2:{ apply elem_of_app. right. apply list_elem_of_here. }
    rewrite filter_app, filter_cons_False, filter_nil, app_nil_r
      by (intros Hne; by apply Hne).
    rewrite filter_all; [done|].
    apply Forall_forall. intros x Hx ->. by apply Hin.
Qed.

Lemma controls_NoDup (names : list string) (initialWindow : float)
    (cs : list Chart.Control) :
  NoDup (Chart.visibleChannels
           (fold_left Chart.control cs (Chart.initialView names initialWindow))).
Proof.
  induction cs as [|c cs IH] using rev_ind; [apply NoDup_seq|].
  rewrite fold_left_app. simpl.
  destruct c; simpl; try exact IH. by apply toggleChannel_NoDup.
Qed.

(** [draw] reads of the view the active channels, the window and the layout. *)
Lemma draw_view (measureText : string -> float) (toFixed1 : float -> string)
    (p : Chart.Props) (v v' : Chart.View) (vp : Chart.Viewport) :
  Chart.activeChannels p v' = Chart.activeChannels p v ->
  Chart.windowSeconds v' = Chart.windowSeconds v ->
  Chart.stacked v' = Chart.stacked v ->
  Chart.draw measureText toFixed1 p v' vp = Chart.draw measureText toFixed1 p v vp.
Proof.
  intros Hact Hw Hst.
  unfold Chart.draw, Chart.startTimeOf, Chart.drawLane, Chart.drawOverlay,
    Chart.timeAxis, Chart.xOf.
  by rewrite Hact, Hw, Hst.
Qed.

(** X12.  In a chart brought from its first render to any view by its
    controls, clicking one legend button twice restores the members of the
    visible set, hence the active channels and all that [draw] paints. *)
Theorem legend_click_twice_restores_chart (measureText : string -> float)
    (toFixed1 : float -> string) (p : Chart.Props) (vp : Chart.Viewport)
    (names : list string) (initialWindow : float) (cs : list Chart.Control)
    (idx : nat) :
  let v := fold_left Chart.control cs (Chart.initialView names initialWindow) in
  let v2 :=
    Chart.control (Chart.control v (Chart.LegendClick idx)) (Chart.LegendClick idx) in
  Chart.visibleChannels v2 ≡ₚ Chart.visibleChannels v
  /\ Chart.activeChannels p v2 = Chart.activeChannels p v
  /\ Chart.draw measureText toFixed1 p v2 vp = Chart.draw measureText toFixed1 p v vp.
Proof.
  intros v v2.
  assert (Chart.visibleChannels v2 ≡ₚ Chart.visibleChannels v) as Hperm.
  { unfold v2. simpl. apply toggleChannel_twice. apply controls_NoDup. }
  assert (Chart.activeChannels p v2 = Chart.activeChannels p v) as Hact.
  { unfold Chart.activeChannels. apply sort_unique. by rewrite Hperm. }
  split_and!; [done..|]. by apply draw_view.
Qed.




(** ** Labels *)

(** The search ends on the prefix length it started from or on one whose
    candidate it measured within the budget. *)
Lemma fitLoop_tested (measureText : string -> float) (text : string)
    (maxWidth : float) (lo hi : nat) :
  let n := Chart.fitLoop measureText text maxWidth lo hi in
  (lo <= n <= Nat.max lo hi)%nat
  /\ (n = lo \/ fits measureText maxWidth (Chart.candidate text n) = true).
Proof.
  cbv zeta. funelim (Chart.fitLoop measureText text maxWidth lo hi).
  - pose proof (midpoint_between lo hi l) as Hmid.
    destruct (fits measureText maxWidth (Chart.candidate text (Chart.midpoint lo hi)))
      eqn:Hfit; unfold fits in Hfit; rewrite Hfit; cbn iota.
    + destruct H as (Hn & [->|Hok]); split; try lia; right; [exact Hfit|exact Hok].
    + destruct H0 as (Hn & Hok). split; [lia|exact Hok].
  - split; [lia|by left].
Qed.

(** X14.  Whatever widths the font reports, [fitTextToWidth] returns the
    empty string, the text itself, or a prefix of the text followed by the
    ellipsis; and what it returns is empty, or was measured within the
    budget, or is the bare ellipsis where the budget or the width of the
    ellipsis is NaN. *)
Theorem fitTextToWidth_within_budget (measureText : string -> float) (text : string)
    (maxWidth : float) :
  let r := Chart.fitTextToWidth measureText text maxWidth in
  (r = "" \/ r = text
   \/ exists n : nat, (n <= String.length text)%nat /\ r = Chart.candidate text n)
  /\ (r = "" \/ fits measureText maxWidth r = true
      \/ (r = Chart.ellipsis
          /\ (is_nan maxWidth || is_nan (measureText Chart.ellipsis)) = true)).
Proof.
  cbv zeta. unfold Chart.fitTextToWidth, fits.
  destruct (maxWidth <=? 0)%float; [by split; left|].
  destruct (measureText text <=? maxWidth)%float eqn:Htext;
    [by split; right; left|].
  unfold f64_gtb.
  destruct (maxWidth <? measureText Chart.ellipsis)%float eqn:Hwide; [by split; left|].
  destruct (fitLoop_tested measureText text maxWidth 0 (String.length text))
    as (Hn & Hok).
  set (n := Chart.fitLoop measureText text maxWidth 0 (String.length text)) in *.
  split.
  - right. right. exists n. split; [lia|done].
  - destruct Hok as [Hzero|Hok]; [|by right; left].
    rewrite Hzero, candidate_zero.
    destruct (measureText Chart.ellipsis <=? maxWidth)%float eqn:Hfit; [by right; left|].
    right. right. split; [done|].
    destruct (is_nan maxWidth) eqn:Hb; [done|].
    destruct (is_nan (measureText Chart.ellipsis)) eqn:He; [done|].
    by rewrite (F64_not_ltb_leb _ _ Hb He Hwide) in Hfit.
Qed.

Lemma Math_max_lower (a b : float) :
  is_nan (Math_max a b) = true
  \/ ((a <=? Math_max a b)%float = true /\ (b <=? Math_max a b)%float = true
      /\ is_nan (Math_max a b) = false).
Proof.
  unfold Math_max.
  destruct (is_nan a) eqn:Ha; [by left|]. destruct (is_nan b) eqn:Hb; [by left|].
  simpl. right.
  destruct (a <? b)%float eqn:Hab.
  { split_and!; [by apply F64_ltb_leb|by apply F64_leb_refl|done]. }
  destruct (b <? a)%float eqn:Hba.
  { split_and!; [by apply F64_leb_refl|by apply F64_ltb_leb|done]. }
  destruct (get_sign a).
  - split_and!; [by apply F64_not_ltb_leb|by apply F64_leb_refl|done].
  - split_and!; [by apply F64_leb_refl|by apply F64_not_ltb_leb|done].
Qed.

Lemma Math_min_upper (a b : float) :
  is_nan (Math_min a b) = true
  \/ ((Math_min a b <=? a)%float = true
      /\ (Math_min a b = a \/ Math_min a b = b)).
Proof.
  unfold Math_min.
  destruct (is_nan a) eqn:Ha; [by left|]. destruct (is_nan b) eqn:Hb; [by left|].
  simpl. right.
  destruct (a <? b)%float eqn:Hab.
  { split; [by apply F64_leb_refl|by left]. }
  destruct (b <? a)%float eqn:Hba.
  { split; [by apply F64_ltb_leb|by right]. }
  destruct (get_sign a).
  - split; [by apply F64_leb_refl|by left].
  - split; [by apply F64_not_ltb_leb|by right].
Qed.

(** X15.  The left gutter is never narrower than 90 nor wider than 240,
    whatever the labels measure: it lies in [90, 240] or, where a width is
    no number, it is NaN. *)
Theorem leftGutter_between_90_and_240 (measureText : string -> float)
    (p : Chart.Props) (active : list nat) :
  let g := Chart.leftGutter measureText p active in
  is_nan g = true \/ ((90 <=? g)%float = true /\ (g <=? 240)%float = true).
Proof.
  cbv zeta. unfold Chart.leftGutter.
  set (z := Math_ceil _).
  destruct (Math_min_upper 240 (Math_max 90 z)) as [Hnan|[Hle [Heq|Heq]]]; [by left|..].
  - right. split; [|exact Hle]. by rewrite Heq.
  - destruct (Math_max_lower 90 z) as [Hnan|(H90 & _ & _)].
    + left. by rewrite Heq.
    + right. split; [|exact Hle]. by rewrite Heq.
Qed.

(** ** The marker timeline *)

Lemma slice_last_slice_last {A} (n m : nat) (xs : list A) :
  (n <= m)%nat -> slice_last n (slice_last m xs) = slice_last n xs.
Proof.
  intros Hnm. unfold slice_last. rewrite length_drop, drop_drop. f_equal. lia.
Qed.

Lemma imap_keys {A} (g : nat -> nat) (time value : A -> string) (l : list A) :
  Timeline.key
    <$> imap (fun i m =>
                {| Timeline.key := g i; Timeline.time := time m;
                   Timeline.value := value m |}) l
  = g <$> seq 0 (length l).
Proof.
  revert g. induction l as [|x l IH]; intros g; [done|].
  simpl. f_equal. rewrite <- fmap_S_seq, <- list_fmap_compose. apply (IH (g ∘ S)).
Qed.

(** X16.  For a string stream the timeline is built from the markers
    received since the mount: none gives the empty state; otherwise the
    heading counts min(K, 500) of the K received and the list shows the last
    min(K, 100), newest first, under keys that are pairwise distinct. *)
Theorem timeline_lists_last_hundred (toFixed3 : float -> string) (js : Hook.Engine)
    (o : Hook.Options) (es : list Hook.Event) :
  Hook.isStringStream o = true ->
  let received := entryOf <$> markersOf js es in
  let total := Nat.min (length received) 500 in
  let shown :=
    Timeline.EventMarkerTimeline toFixed3
      (Hook.markersState (Hook.hook (Hook.run js o Hook.mount es))) in
  shown
  = match received with
    | [] => Timeline.NoMarkers
    | _ :: _ =>
        Timeline.Markers total
          (imap
             (fun i m =>
                {| Timeline.key := (total - i)%nat;
                   Timeline.time := toFixed3 (Hook.timestamp m);
                   Timeline.value := Hook.value m |})
             (reverse (slice_last 100 received)))
    end
  /\ length (itemsOf shown) = Nat.min (length received) 100
  /\ NoDup (Timeline.key <$> itemsOf shown).
Proof.
  intros Hs received total shown.
  assert (shown
          = match received with
            | [] => Timeline.NoMarkers
            | _ :: _ =>
                Timeline.Markers total
                  (imap
                     (fun i m =>
                        {| Timeline.key := (total - i)%nat;
                           Timeline.time := toFixed3 (Hook.timestamp m);
                           Timeline.value := Hook.value m |})
                     (reverse (slice_last 100 received)))
            end) as Hshown.
  { unfold shown, Timeline.EventMarkerTimeline.
    rewrite markers_after_history by done. fold received.
    rewrite slice_last_length. fold total.
    rewrite slice_last_slice_last by lia.
    destruct received as [|m ms]; [done|].
    destruct (Nat.eqb_spec total 0) as [Hz|_]; [|done].
    unfold total in Hz. simpl in Hz. lia. }
  split; [exact Hshown|]. rewrite Hshown.
  destruct received as [|m ms] eqn:Hrec; [split; [done|constructor]|].
  rewrite <- Hrec in *. simpl itemsOf.
  split.
  - by rewrite length_imap, length_reverse, slice_last_length.
  - rewrite imap_keys, length_reverse, slice_last_length.
    apply NoDup_fmap_2_strong; [|apply NoDup_seq].
    intros i j Hi Hj Heq. apply elem_of_seq in Hi, Hj.
    unfold total in Heq. rewrite Hrec in Hi, Hj. lia.
Qed.

Lemma timeline_lists_last_hundred_witness :
  let shown :=
    Timeline.EventMarkerTimeline no_toFixed3
      (Hook.markersState (Hook.hook (Hook.run plain string_stream Hook.mount
                                       six_hundred))) in
  length (itemsOf shown) = 100%nat
  /\ NoDup (Timeline.key <$> itemsOf shown).
Proof.
  pose proof (timeline_lists_last_hundred no_toFixed3 plain string_stream six_hundred
                eq_refl) as H.
  cbv zeta in H. destruct H as (_ & Hlen & Hkeys).
  split; [|exact Hkeys]. rewrite Hlen. reflexivity.
Defined.

(** ** Connections *)

Lemma sameUrl_eq (a b : option string) : Socket.sameUrl a b = true -> a = b.
Proof.
  destruct a as [u|], b as [v|]; simpl; try done.
  intros H. apply String.eqb_eq in H. by subst.
Qed.

Lemma truthy_Some (url : option string) :
  Socket.truthy url = true -> exists u, url = Some u /\ String.eqb u "" = false.
Proof.
  destruct url as [u|]; [|done]. simpl. intros H. exists u.
  by apply negb_true_iff in H.
Qed.

(** Hanging up retires the current socket. *)
Lemma sockets_ok_abandon (id : nat) (u u' : option string)
    (sockets : list Socket.WebSocket) :
  sockets_ok (Some id) u sockets ->
  sockets_ok None u' (alter Socket.abandon id sockets).
Proof.
  intros Hok id' ws'. rewrite bool_decide_eq_false_2 by done.
  rewrite list_lookup_alter. destruct (decide (id = id')) as [<-|Hne].
  - destruct (sockets !! id) as [ws|] eqn:Hws; [|done]. simpl. intros [= <-].
    specialize (Hok id ws Hws). rewrite bool_decide_eq_true_2 in Hok by done.
    destruct Hok as (_ & Hopen & _). unfold retired, Socket.abandon. simpl.
    destruct (Socket.readyState ws); simpl; try done; by right.
  - intros Hws. specialize (Hok id' ws' Hws).
    rewrite bool_decide_eq_false_2 in Hok; [done|]. by intros [=].
Qed.

Lemma sockets_ok_none (u u' : option string) (sockets : list Socket.WebSocket) :
  sockets_ok None u sockets -> sockets_ok None u' sockets.
Proof.
  intros Hok id ws Hws. specialize (Hok id ws Hws).
  by rewrite bool_decide_eq_false_2 in * by done.
Qed.

Lemma sockets_ok_retired (u : option string) (sockets : list Socket.WebSocket) :
  sockets_ok None u sockets <-> Forall retired sockets.
Proof.
  rewrite Forall_lookup. unfold sockets_ok. split; intros Hok id ws Hws;
    specialize (Hok id ws Hws); by rewrite bool_decide_eq_false_2 in * by done.
Qed.

(** A socket made by [connect] is the current one. *)
Lemma sockets_ok_connect (u : option string) (url : string)
    (sockets : list Socket.WebSocket) :
  sockets_ok None u sockets ->
  sockets_ok (Some (length sockets)) (Some url)
    (sockets
     ++ [ {| Socket.url := url; Socket.readyState := Socket.CONNECTING;
             Socket.onclose := true |} ]).
Proof.
  intros Hok id ws Hws. case_bool_decide as Hid.
  - injection Hid as <-. rewrite list_lookup_middle in Hws by done.
    injection Hws as <-. by simpl.
  - apply lookup_app_Some in Hws as [Hws|[Hge Hws]].
    + specialize (Hok id ws Hws). by rewrite bool_decide_eq_false_2 in Hok by done.
    + destruct (id - length sockets)%nat as [|k] eqn:Hk; [|done].
      exfalso. apply Hid. f_equal. lia.
Qed.

(** A socket that starts closing keeps its place. *)
Lemma sockets_ok_closing (current : option nat) (u : option string) (id : nat)
    (sockets : list Socket.WebSocket) :
  sockets_ok current u sockets ->
  sockets_ok current u
    (alter (fun ws => Socket.set_readyState (Socket.closing (Socket.readyState ws)) ws)
       id sockets).
Proof.
  intros Hok id' ws'. rewrite list_lookup_alter.
  destruct (decide (id = id')) as [<-|Hne]; [|apply Hok].
  destruct (sockets !! id) as [ws|] eqn:Hws; [|done]. simpl. intros [= <-].
  specialize (Hok id ws Hws). simpl.
  case_bool_decide.
  - destruct Hok as (Hon & Hopen & Hurl). split_and!; [done| |done].
    by destruct (Socket.readyState ws).
  - unfold retired in *. simpl.
    destruct Hok as [Hc|[Hc Hoff]]; rewrite Hc; simpl; [by left|by right].
Qed.

(** Only the current socket can open. *)
Lemma sockets_ok_opened (current : option nat) (u : option string) (id : nat)
    (ws : Socket.WebSocket) (sockets : list Socket.WebSocket) :
  sockets_ok current u sockets ->
  sockets !! id = Some ws -> active ws ->
  current = Some id
  /\ sockets_ok current u (alter (Socket.set_readyState Socket.OPEN) id sockets).
Proof.
  intros Hok Hws Hactive.
  assert (current = Some id) as ->.
  { specialize (Hok id ws Hws). case_bool_decide; [done|].
    destruct Hactive as [Ha|Ha], Hok as [Hr|[Hr _]]; congruence. }
  split; [done|]. intros id' ws'. rewrite list_lookup_alter.
  destruct (decide (id = id')) as [<-|Hne]; [|apply Hok].
  rewrite Hws. simpl. intros [= <-].
  specialize (Hok id ws Hws). rewrite bool_decide_eq_true_2 in * by done.
  simpl. destruct Hok as (Hon & _ & Hurl). by split_and!.
Qed.

(** The [close] event finds its handler only on the current socket. *)
Lemma sockets_ok_closed (current : option nat) (u : option string) (id : nat)
    (ws : Socket.WebSocket) (sockets : list Socket.WebSocket) :
  sockets_ok current u sockets ->
  sockets !! id = Some ws -> Socket.readyState ws <> Socket.CLOSED ->
  (Socket.onclose ws = true -> current = Some id)
  /\ (Socket.onclose ws = false -> current <> Some id)
  /\ sockets_ok (if Socket.onclose ws then None else current) u
       (alter (Socket.set_readyState Socket.CLOSED) id sockets).
Proof.
  intros Hok Hws Hopen.
  pose proof (Hok id ws Hws) as Hid.
  case_bool_decide as Hcur.
  - destruct Hid as (Hon & _ & Hurl). rewrite Hon. split_and!; try done.
    intros id' ws'. rewrite bool_decide_eq_false_2 by done.
    rewrite list_lookup_alter. destruct (decide (id = id')) as [<-|Hne].
    + rewrite Hws. simpl. intros [= <-]. by left.
    + intros Hws'. specialize (Hok id' ws' Hws').
      rewrite bool_decide_eq_false_2 in Hok; [done|]. rewrite Hcur. by intros [=].
  - destruct Hid as [Hc|[Hc Hoff]]; [done|]. rewrite Hoff. split_and!; try done.
    intros id' ws'. rewrite list_lookup_alter.
    destruct (decide (id = id')) as [<-|Hne]; [|apply Hok].
    rewrite Hws. simpl. intros [= <-].
    rewrite bool_decide_eq_false_2 by done. by left.
Qed.

(** With nothing connected and nothing scheduled the invariant holds. *)
Lemma idle_one_connection (w : Socket.World) :
  Socket.wsRef (Socket.hook w) = None ->
  Socket.timers w = [] ->
  Forall retired (Socket.sockets w) ->
  (forall u, Socket.committed w = Some u -> Socket.urlRef (Socket.hook w) = u) ->
  one_connection w.
Proof.
  intros Hws Ht Hr Hc. unfold one_connection. rewrite Hws, Ht.
  split_and!; try done.
  - by apply sockets_ok_retired.
  - by intros [|].
  - by left.
  - intros t Hin. by apply elem_of_nil in Hin.
Qed.

(** [connect] in a hook with nothing connected and nothing scheduled. *)
Lemma connect_idle (w : Socket.World) :
  Socket.wsRef (Socket.hook w) = None ->
  Socket.timers w = [] ->
  Forall retired (Socket.sockets w) ->
  (forall u, Socket.committed w = Some u -> Socket.urlRef (Socket.hook w) = u) ->
  Socket.committed w <> None ->
  one_connection (Socket.connect w).
Proof.
  intros Hws Ht Hr Hc Hsome. unfold Socket.connect.
  destruct (Socket.urlRef (Socket.hook w)) as [currentUrl|] eqn:Hurl;
    [|apply idle_one_connection; by rewrite ?Hurl].
  destruct (String.eqb currentUrl "") eqn:Hempty;
    [apply idle_one_connection; by rewrite ?Hurl|].
  unfold Socket.hangUp. rewrite Hws. unfold one_connection. simpl.
  rewrite Hurl, Ht. split_and!; try done.
  - apply (sockets_ok_connect None). by apply (sockets_ok_retired None).
  - intros id [= <-]. rewrite length_app. simpl. lia.
  - intros _. simpl. by rewrite Hempty.
  - by left.
  - intros t Hin. by apply elem_of_nil in Hin.
Qed.

(** Hanging up and clearing the timer leave nothing connected and nothing
    scheduled. *)
Lemma hangUp_clearTimeout (w : Socket.World) :
  sockets_ok (Socket.wsRef (Socket.hook w)) (Socket.urlRef (Socket.hook w))
    (Socket.sockets w) ->
  (Socket.timers w = []
   \/ (Socket.wsRef (Socket.hook w) = None
       /\ exists t, Socket.timers w = [t]
                    /\ Socket.reconnectTimer (Socket.hook w) = Some t)) ->
  let w' := Socket.hangUp (Socket.clearTimeout w) in
  Socket.timers w' = []
  /\ Forall retired (Socket.sockets w')
  /\ length (Socket.sockets w') = length (Socket.sockets w)
  /\ Socket.hook w' = Socket.hook w
  /\ Socket.committed w' = Socket.committed w
  /\ Socket.received w' = Socket.received w
  /\ Socket.sent w' = Socket.sent w.
Proof.
  intros Hok Ht. cbv zeta.
  assert (Socket.timers (Socket.clearTimeout w) = []) as Hcleared.
  { unfold Socket.clearTimeout. destruct Ht as [Ht|(_ & t & Ht & Hrt)].
    - destruct (Socket.reconnectTimer (Socket.hook w)); simpl; by rewrite Ht.
    - rewrite Hrt. simpl. rewrite Ht.
      by rewrite filter_cons_False by (intros Hne; by apply Hne). }
  assert (Socket.hook (Socket.clearTimeout w) = Socket.hook w
          /\ Socket.sockets (Socket.clearTimeout w) = Socket.sockets w
          /\ Socket.committed (Socket.clearTimeout w) = Socket.committed w
          /\ Socket.received (Socket.clearTimeout w) = Socket.received w
          /\ Socket.sent (Socket.clearTimeout w) = Socket.sent w)
    as (Hh & Hs & Hco & Hre & Hse).
  { unfold Socket.clearTimeout. by destruct (Socket.reconnectTimer (Socket.hook w)). }
  unfold Socket.hangUp. rewrite Hh.
  destruct (Socket.wsRef (Socket.hook w)) as [id|] eqn:Hid; simpl;
    rewrite ?Hs, ?Hcleared, ?Hh, ?Hco, ?Hre, ?Hse.
  - split_and!; try done; [|apply length_alter].
    apply (sockets_ok_retired None). by eapply sockets_ok_abandon.
  - split_and!; try done. by apply (sockets_ok_retired (Socket.urlRef (Socket.hook w))).
Qed.

(** The [close] event of a socket that was not closed. *)
Lemma closed_event_keeps (reconnectDelay : Z) (w : Socket.World) (id : nat)
    (ws : Socket.WebSocket) :
  one_connection w ->
  Socket.sockets w !! id = Some ws ->
  Socket.readyState ws <> Socket.CLOSED ->
  one_connection
    (let w1 :=
       Socket.with_sockets w
         (alter (Socket.set_readyState Socket.CLOSED) id (Socket.sockets w)) in
     if Socket.onclose ws then Socket.onclosed reconnectDelay w1 else w1).
Proof.
  intros (Hok & Hcur & Hc & Hurl & Ht & Hfresh) Hws Hr. cbv zeta.
  destruct (sockets_ok_closed _ _ id ws _ Hok Hws Hr) as (Hon & Hoff & Hok').
  destruct (Socket.onclose ws) eqn:Hcl.
  - specialize (Hon eq_refl).
    assert (Socket.timers w = []) as Hnot
      by (destruct Ht as [|[Hn _]]; [done|congruence]).
    destruct (Hurl ltac:(left; congruence)) as [Htruthy Hsome].
    unfold Socket.onclosed. cbn. rewrite Htruthy, andb_true_r.
    destruct (0 <? reconnectDelay); unfold one_connection; cbn;
      rewrite ?length_alter, ?Hnot.
    + split_and!; try done.
      * right. split; [done|]. by eexists.
      * intros t Hin. apply list_elem_of_singleton in Hin. lia.
    + split_and!; try done.
      * by left.
      * intros t Hin. by apply elem_of_nil in Hin.
  - unfold one_connection. cbn. rewrite length_alter. by split_and!.
Qed.

(** Every event keeps the invariant. *)
Lemma one_connection_step (reconnectDelay : Z) (w : Socket.World) (e : Socket.Event) :
  one_connection w -> one_connection (Socket.step reconnectDelay w e).
Proof.
  intros Hinv. pose proof Hinv as (Hok & Hcur & Hc & Hurl & Ht & Hfresh).
  destruct e as [url|id|id data|id|id|id|timer|data|]; simpl.
  - (* Commit *)
    unfold Socket.commit.
    destruct (Socket.committed w) as [last|] eqn:Hlast.
    + destruct (Socket.sameUrl last url) eqn:Hsame; [exact Hinv|].
      destruct (hangUp_clearTimeout
                  {| Socket.hook := Socket.hook w; Socket.committed := Some url;
                     Socket.sockets := Socket.sockets w;
                     Socket.timers := Socket.timers w;
                     Socket.timerNext := Socket.timerNext w;
                     Socket.received := Socket.received w;
                     Socket.sent := Socket.sent w |})
        as (Ht' & Hr' & _ & Hh' & Hco' & _); [exact Hok|exact Ht|].
      unfold Socket.connectEffect, Socket.cleanup.
      set (w1 := Socket.hangUp (Socket.clearTimeout _)) in *.
      simpl in Hh', Hco'.
      destruct (Socket.truthy url).
      * apply connect_idle; [reflexivity|exact Ht'|exact Hr'| |].
        -- intros u. cbn. rewrite Hco'. by intros [= <-].
        -- cbn. by rewrite Hco'.
      * change (Socket.hangUp (Socket.set_urlRef url (Socket.set_wsRef None w1)))
          with (Socket.set_urlRef url (Socket.set_wsRef None w1)).
        apply idle_one_connection; [reflexivity|exact Ht'|exact Hr'|].
        intros u. cbn. rewrite Hco'. by intros [= <-].
    + assert (Socket.wsRef (Socket.hook w) = None /\ Socket.timers w = [])
        as [Hnone Hnot].
      { destruct (Socket.wsRef (Socket.hook w)) eqn:Hw.
        - by destruct (Hurl ltac:(by left)).
        - split; [done|]. destruct (Socket.timers w) eqn:Htm; [done|].
          by destruct (Hurl ltac:(by right)). }
      assert (Forall retired (Socket.sockets w)) as Hret.
      { apply (sockets_ok_retired (Socket.urlRef (Socket.hook w))). by rewrite <- Hnone. }
      unfold Socket.connectEffect. destruct (Socket.truthy url).
      * apply connect_idle; simpl; try done. by intros u [= <-].
      * unfold Socket.hangUp. simpl. rewrite Hnone.
        apply idle_one_connection; simpl; try done. by intros u [= <-].
  - (* Opened *)
    destruct (Socket.sockets w !! id) as [[u r on]|] eqn:Hws; [|exact Hinv].
    destruct r; try exact Hinv.
    destruct (sockets_ok_opened _ _ id _ _ Hok Hws ltac:(by left)) as [Hid Hok'].
    unfold one_connection. simpl. rewrite length_alter. by split_and!.
  - (* Received *)
    destruct (Socket.sockets w !! id) as [[u r on]|] eqn:Hws; [|exact Hinv].
    destruct r; exact Hinv.
  - (* Errored *)
    destruct (Socket.sockets w !! id); exact Hinv.
  - (* Closing *)
    unfold one_connection. simpl. rewrite length_alter. split_and!; try done.
    by apply sockets_ok_closing.
  - (* Closed *)
    destruct (Socket.sockets w !! id) as [ws|] eqn:Hws; [|exact Hinv].
    destruct (Socket.readyState ws) eqn:Hr; try exact Hinv;
      apply (closed_event_keeps reconnectDelay w id ws Hinv Hws); by rewrite Hr.
  - (* Timeout *)
    case_bool_decide as Hin; [|exact Hinv].
    destruct Ht as [Ht|(Hnone & t & Ht & Hrt)];
      [rewrite Ht in Hin; by apply elem_of_nil in Hin|].
    rewrite Ht in Hin. apply list_elem_of_singleton in Hin. subst timer.
    destruct (Hurl ltac:(right; by rewrite Ht)) as [_ Hsome].
    apply connect_idle; simpl; try done.
    + rewrite Ht. by rewrite filter_cons_False by (intros Hne; by apply Hne).
    + apply (sockets_ok_retired (Socket.urlRef (Socket.hook w))). by rewrite <- Hnone.
  - (* Send *)
    unfold Socket.send. destruct (Socket.wsRef (Socket.hook w)) as [id|]; [|exact Hinv].
    destruct (Socket.readyState <$> Socket.sockets w !! id) as [[]|]; exact Hinv.
  - (* Close *)
    unfold Socket.close.
    destruct (hangUp_clearTimeout w Hok Ht) as (Ht' & Hr' & _ & Hh' & Hco' & _).
    apply idle_one_connection; simpl; try done.
    rewrite Hh', Hco'. exact Hc.
Qed.

Lemma live_one_connection (reconnectDelay : Z) (w : Socket.World) :
  live reconnectDelay w -> one_connection w.
Proof.
  induction 1 as [url|w e Hw IH]; [|by apply one_connection_step].
  by apply idle_one_connection.
Qed.

Lemma live_run (reconnectDelay : Z) (w : Socket.World) (es : list Socket.Event) :
  live reconnectDelay w -> live reconnectDelay (Socket.run reconnectDelay w es).
Proof.
  revert w. induction es as [|e es IH]; intros w Hw; [exact Hw|].
  simpl. apply IH. by constructor.
Qed.

(** X17.  A mounted [useWebSocket] has at most one connection: every
    socket that is connecting or open is the one in [wsRef], which was made
    for the non-empty URL of the last commit; [onMessage] is called for
    messages of that socket only; and at most one reconnect timer is
    pending, none while a socket is held. *)
Theorem one_live_connection (reconnectDelay : Z) (w : Socket.World) :
  live reconnectDelay w ->
  (forall id ws, Socket.sockets w !! id = Some ws -> active ws ->
     Socket.wsRef (Socket.hook w) = Some id)
  /\ (forall id, Socket.wsRef (Socket.hook w) = Some id ->
        exists ws, Socket.sockets w !! id = Some ws
                   /\ Socket.committed w = Some (Some (Socket.url ws))
                   /\ Socket.url ws <> "")
  /\ (forall id data,
        Socket.received (Socket.step reconnectDelay w (Socket.Received id data))
        <> Socket.received w ->
        Socket.wsRef (Socket.hook w) = Some id)
  /\ (length (Socket.timers w) <= 1)%nat
  /\ (Socket.timers w <> [] -> Socket.wsRef (Socket.hook w) = None).
Proof.
  intros Hw.
  destruct (live_one_connection _ _ Hw) as (Hok & Hcur & Hc & Hurl & Ht & Hfresh).
  assert (forall id ws, Socket.sockets w !! id = Some ws -> active ws ->
            Socket.wsRef (Socket.hook w) = Some id) as Hactive.
  { intros id ws Hws Ha. specialize (Hok id ws Hws). case_bool_decide; [done|].
    destruct Ha as [Ha|Ha], Hok as [Hr|[Hr _]]; congruence. }
  split_and!.
  - exact Hactive.
  - intros id Hid.
    destruct (lookup_lt_is_Some_2 _ _ (Hcur id Hid)) as [ws Hws].
    exists ws. split; [done|].
    specialize (Hok id ws Hws). rewrite bool_decide_eq_true_2 in Hok by done.
    destruct Hok as (_ & _ & Hu).
    destruct (Hurl ltac:(left; congruence)) as [Htruthy Hsome].
    rewrite Hu in Htruthy. simpl in Htruthy. apply negb_true_iff in Htruthy.
    split; [|by intros Hempty; rewrite Hempty in Htruthy].
    destruct (Socket.committed w) as [u|] eqn:Hco; [|done].
    by rewrite <- (Hc u eq_refl), Hu.
  - intros id data Hnew. simpl in Hnew.
    destruct (Socket.sockets w !! id) as [[u r on]|] eqn:Hws; [|done].
    destruct r; try done. eapply Hactive; [exact Hws|by right].
  - destruct Ht as [->|(_ & t & -> & _)]; simpl; lia.
  - intros Hpending. by destruct Ht as [?|[? _]].
Qed.

Lemma one_live_connection_witness :
  Socket.wsRef (Socket.hook switched_streams) = Some 1%nat
  /\ (exists ws, Socket.sockets switched_streams !! 1%nat = Some ws
                 /\ Socket.committed switched_streams = Some (Some (Socket.url ws))
                 /\ Socket.url ws <> "")
  /\ Socket.readyState <$> Socket.sockets switched_streams
     = [Socket.CLOSING; Socket.OPEN].
Proof.
  pose proof (one_live_connection 3000 switched_streams
                (live_run _ _ _ (live_mount _ _))) as (_ & Hurl & _).
  split_and!; [reflexivity|exact (Hurl 1%nat eq_refl)|reflexivity].
Defined.

(** Nothing but a commit connects a hook that is quiet. *)
Lemma quiet_step (reconnectDelay : Z) (w : Socket.World) (e : Socket.Event) :
  isCommit e = false -> quiet w ->
  quiet (Socket.step reconnectDelay w e)
  /\ length (Socket.sockets (Socket.step reconnectDelay w e)) = length (Socket.sockets w)
  /\ Socket.received (Socket.step reconnectDelay w e) = Socket.received w
  /\ Socket.sent (Socket.step reconnectDelay w e) = Socket.sent w.
Proof.
  intros He (Hws & Ht & Hr & Hst).
  assert (forall id ws, Socket.sockets w !! id = Some ws -> retired ws) as Hret
    by (intros id ws Hl; by eapply Forall_lookup_1 in Hr).
  destruct e as [url|id|id data|id|id|id|timer|data|]; try done; simpl.
  - destruct (Socket.sockets w !! id) as [[u r on]|] eqn:Hl; [|done].
    destruct (Hret _ _ Hl) as [Hc|[Hc _]]; simpl in Hc; by subst r.
  - destruct (Socket.sockets w !! id) as [[u r on]|] eqn:Hl; [|done].
    destruct (Hret _ _ Hl) as [Hc|[Hc _]]; simpl in Hc; by subst r.
  - destruct (Socket.sockets w !! id); [|done].
    split_and!; try done. unfold quiet. simpl. split_and!; try done. by right.
  - rewrite length_alter. split_and!; try done. unfold quiet. simpl.
    split_and!; try done. apply Forall_alter; [done|].
    intros ws Hl [Hc|[Hc Hoff]]; unfold retired; simpl; rewrite Hc; simpl;
      [by left|by right].
  - destruct (Socket.sockets w !! id) as [ws|] eqn:Hl; [|done].
    destruct (Hret _ _ Hl) as [Hc|[Hc Hoff]]; rewrite Hc; [done|]. rewrite Hoff.
    simpl. rewrite length_alter. split_and!; try done. unfold quiet. simpl.
    split_and!; try done. apply Forall_alter; [done|]. intros ws' _ _. by left.
  - rewrite Ht. rewrite bool_decide_eq_false_2 by apply not_elem_of_nil. done.
  - unfold Socket.send. by rewrite Hws.
  - unfold Socket.close, Socket.hangUp, Socket.clearTimeout.
    destruct (Socket.reconnectTimer (Socket.hook w)); simpl; rewrite Hws; simpl;
      rewrite ?Ht; (split_and!; try done); unfold quiet; simpl; rewrite ?Ht;
      split_and!; try done; by left.
Qed.

Lemma quiet_run (reconnectDelay : Z) (w : Socket.World) (es : list Socket.Event) :
  forallb (fun e => negb (isCommit e)) es = true -> quiet w ->
  quiet (Socket.run reconnectDelay w es)
  /\ length (Socket.sockets (Socket.run reconnectDelay w es)) = length (Socket.sockets w)
  /\ Socket.received (Socket.run reconnectDelay w es) = Socket.received w
  /\ Socket.sent (Socket.run reconnectDelay w es) = Socket.sent w.
Proof.
  revert w. induction es as [|e es IH]; intros w Hes Hq; [done|].
  simpl in Hes. apply andb_prop in Hes as [He Hes]. apply negb_true_iff in He.
  destruct (quiet_step reconnectDelay w e He Hq) as (Hq' & Hl & Hr & Hs).
  destruct (IH _ Hes Hq') as (Hq'' & Hl' & Hr' & Hs').
  simpl. split_and!; [done|congruence..].
Qed.

(** X18.  Once the returned [close] is called, or a commit changes [url]
    to [null] or the empty string, the hook stays disconnected until a later
    commit: whatever the old sockets and timers still report, no socket is
    made, no timer is pending, [onMessage] is not called, [send] transmits
    nothing, and the state is "closed" or "error", never "connecting" or
    "open". *)
Theorem close_ends_all_reconnecting (reconnectDelay : Z) (w : Socket.World)
    (e : Socket.Event) (es : list Socket.Event) :
  live reconnectDelay w ->
  hangsUp w e ->
  forallb (fun e => negb (isCommit e)) es = true ->
  let w0 := Socket.step reconnectDelay w e in
  let w' := Socket.run reconnectDelay w0 es in
  Socket.wsRef (Socket.hook w') = None
  /\ Socket.timers w' = []
  /\ length (Socket.sockets w') = length (Socket.sockets w)
  /\ Forall retired (Socket.sockets w')
  /\ Socket.received w' = Socket.received w
  /\ Socket.sent w' = Socket.sent w
  /\ (Socket.state (Socket.hook w') = Hook.closed
      \/ Socket.state (Socket.hook w') = Hook.error).
Proof.
  intros Hw He Hes w0 w'.
  destruct (live_one_connection _ _ Hw) as (Hok & Hcur & Hc & Hurl & Ht & Hfresh).
  assert (quiet w0
          /\ length (Socket.sockets w0) = length (Socket.sockets w)
          /\ Socket.received w0 = Socket.received w
          /\ Socket.sent w0 = Socket.sent w) as (Hq & Hl & Hr & Hs).
  { destruct e as [url| | | | | | | |]; try done; unfold w0; simpl.
    - destruct He as [Hfalsy Hchanged]. unfold Socket.commit, Socket.connectEffect.
      rewrite Hfalsy.
      destruct (Socket.committed w) as [last|] eqn:Hlast.
      + rewrite (Hchanged last eq_refl).
        destruct (hangUp_clearTimeout
                    {| Socket.hook := Socket.hook w; Socket.committed := Some url;
                       Socket.sockets := Socket.sockets w;
                       Socket.timers := Socket.timers w;
                       Socket.timerNext := Socket.timerNext w;
                       Socket.received := Socket.received w;
                       Socket.sent := Socket.sent w |} Hok Ht)
          as (Ht' & Hr' & Hl' & _ & _ & Hre' & Hse').
        unfold Socket.cleanup. set (w1 := Socket.hangUp (Socket.clearTimeout _)) in *.
        change (Socket.hangUp (Socket.set_urlRef url (Socket.set_wsRef None w1)))
          with (Socket.set_urlRef url (Socket.set_wsRef None w1)).
        unfold quiet. cbn. split_and!; try done. by left.
      + assert (Socket.wsRef (Socket.hook w) = None /\ Socket.timers w = [])
          as [Hnone Hnot].
        { destruct (Socket.wsRef (Socket.hook w)) eqn:Hcurrent.
          - by destruct (Hurl ltac:(by left)).
          - split; [done|]. destruct (Socket.timers w) eqn:Htm; [done|].
            by destruct (Hurl ltac:(by right)). }
        unfold Socket.hangUp. cbn. rewrite Hnone. unfold quiet. cbn.
        split_and!; try done; [|by left].
        apply (sockets_ok_retired (Socket.urlRef (Socket.hook w))). by rewrite <- Hnone.
    - destruct (hangUp_clearTimeout w Hok Ht) as (Ht' & Hr' & Hl' & _ & _ & Hre' & Hse').
      unfold Socket.close, quiet. cbn. split_and!; try done. by left. }
  destruct (quiet_run reconnectDelay w0 es Hes Hq)
    as ((H1 & H2 & H3 & H4) & Hl' & Hr' & Hs').
  fold w' in H1, H2, H3, H4, Hl', Hr', Hs'.
  split_and!; try done; congruence.
Qed.

Lemma close_ends_all_reconnecting_witness :
  let w' := Socket.run 3000 (Socket.step 3000 switched_streams Socket.Close) aftermath in
  length (Socket.sockets w') = 2%nat
  /\ Socket.received w' = []
  /\ Socket.sent w' = []
  /\ Socket.state (Socket.hook w') = Hook.error.
Proof.
  pose proof (close_ends_all_reconnecting 3000 switched_streams Socket.Close aftermath
                (live_run _ _ _ (live_mount _ _)) I eq_refl) as H.
  cbv zeta in *. destruct H as (_ & _ & Hl & _ & Hr & Hs & _).
  split_and!; [exact Hl|exact Hr|exact Hs|reflexivity].
Defined.

(** X19.  When the connection the hook holds is lost, the state becomes
    "closed" and no socket is held; with a positive reconnect delay exactly
    one timer is then pending, and when it fires [connect] makes one new
    socket for the same URL, which becomes the current one, in state
    "connecting"; with a delay of zero or less nothing is scheduled. *)
Theorem lost_connection_is_retried (reconnectDelay : Z) (w : Socket.World) (id : nat) :
  live reconnectDelay w ->
  Socket.wsRef (Socket.hook w) = Some id ->
  let w1 := Socket.step reconnectDelay w (Socket.Closed id) in
  Socket.state (Socket.hook w1) = Hook.closed
  /\ Socket.wsRef (Socket.hook w1) = None
  /\ length (Socket.sockets w1) = length (Socket.sockets w)
  /\ (reconnectDelay <= 0 -> Socket.timers w1 = [])
  /\ (0 < reconnectDelay ->
      exists (t : nat) (u : string),
        Socket.timers w1 = [t]
        /\ Socket.url <$> Socket.sockets w !! id = Some u
        /\ let w2 := Socket.step reconnectDelay w1 (Socket.Timeout t) in
           Socket.state (Socket.hook w2) = Hook.connecting
           /\ Socket.wsRef (Socket.hook w2) = Some (length (Socket.sockets w))
           /\ Socket.sockets w2
              = Socket.sockets w1
                ++ [ {| Socket.url := u; Socket.readyState := Socket.CONNECTING;
                        Socket.onclose := true |} ]
           /\ Socket.timers w2 = []).
Proof.
  intros Hw Hid w1.
  destruct (live_one_connection _ _ Hw) as (Hok & Hcur & Hc & Hurl & Ht & Hfresh).
  destruct (lookup_lt_is_Some_2 _ _ (Hcur id Hid)) as [ws Hws].
  pose proof (Hok id ws Hws) as Hcurrent.
  rewrite bool_decide_eq_true_2 in Hcurrent by done.
  destruct Hcurrent as (Hon & Hopen & Hu).
  assert (Socket.timers w = []) as Hnot by (destruct Ht as [|[Hn _]]; [done|congruence]).
  destruct (Hurl ltac:(left; congruence)) as [Htruthy Hsome].
  assert (w1
          = Socket.onclosed reconnectDelay
              (Socket.with_sockets w
                 (alter (Socket.set_readyState Socket.CLOSED) id (Socket.sockets w))))
    as Hw1.
  { unfold w1. simpl. rewrite Hws, Hon. by destruct (Socket.readyState ws). }
  rewrite Hw1. unfold Socket.onclosed. cbn. rewrite Htruthy, andb_true_r.
  destruct (Z.ltb_spec 0 reconnectDelay) as [Hpos|Hneg]; cbn;
    rewrite length_alter, Hnot, ?app_nil_l.
  - split_and!; try done; [lia|]. intros _.
    exists (Socket.timerNext w), (Socket.url ws). split; [done|].
    split; [by rewrite Hws|].
    rewrite bool_decide_eq_true_2 by apply list_elem_of_here.
    rewrite filter_cons_False by (intros Hne; by apply Hne).
    unfold Socket.connect, Socket.hangUp. cbn. rewrite Hu. rewrite Hu in Htruthy.
    simpl in Htruthy. apply negb_true_iff in Htruthy. rewrite Htruthy. cbn.
    by rewrite length_alter.
  - split_and!; try done. lia.
Qed.

Lemma lost_connection_is_retried_witness :
  let w1 := Socket.step 3000 switched_streams (Socket.Closed 1) in
  Socket.state (Socket.hook w1) = Hook.closed
  /\ Socket.timers w1 = [0%nat]
  /\ Socket.wsRef (Socket.hook (Socket.step 3000 w1 (Socket.Timeout 0))) = Some 2%nat.
Proof.
  pose proof (lost_connection_is_retried 3000 switched_streams 1
                (live_run _ _ _ (live_mount _ _)) eq_refl) as H.
  cbv zeta in *. split_and!; [exact (proj1 H)|reflexivity|reflexivity].
Defined.

(** ** The reported connection state *)

Lemma state_has_socket_step (reconnectDelay : Z) (w : Socket.World) (e : Socket.Event) :
  one_connection w -> state_has_socket w ->
  state_has_socket (Socket.step reconnectDelay w e).
Proof.
  intros Hinv Hst. pose proof Hinv as (Hok & Hcur & Hc & Hurl & Ht & Hfresh).
  pose proof Hst as [Hopen Hconn].
  destruct e as [url|id|id data|id|id|id|timer|data|]; simpl.
  - unfold Socket.commit, Socket.connectEffect.
    destruct (Socket.committed w) as [last|].
    + destruct (Socket.sameUrl last url); [done|].
      destruct (Socket.truthy url) eqn:Htruthy; [|by split].
      apply truthy_Some in Htruthy as (u & -> & Hu).
      unfold Socket.connect. cbn. rewrite Hu. split; [done|]. intros _. by eexists.
    + destruct (Socket.truthy url) eqn:Htruthy; [|by split].
      apply truthy_Some in Htruthy as (u & -> & Hu).
      unfold Socket.connect. cbn. rewrite Hu. split; [done|]. intros _. by eexists.
  - destruct (Socket.sockets w !! id) as [[u r on]|] eqn:Hws; [|done].
    destruct r; try done.
    destruct (sockets_ok_opened _ _ id _ _ Hok Hws ltac:(by left)) as [Hid _].
    split; [|done]. intros _. exists id. eexists. cbn.
    split; [done|]. rewrite list_lookup_alter_eq, Hws. simpl. split; [done|by left].
  - destruct (Socket.sockets w !! id) as [[u r on]|]; [|done]. by destruct r.
  - destruct (Socket.sockets w !! id); [|done]. by split.
  - split; [|exact Hconn]. intros Hs. destruct (Hopen Hs) as (id' & ws & Hid & Hws & Hr).
    destruct (decide (id = id')) as [<-|Hne].
    + exists id, (Socket.set_readyState (Socket.closing (Socket.readyState ws)) ws).
      cbn. rewrite list_lookup_alter_eq, Hws. split_and!; [done..|].
      destruct Hr as [-> | ->]; by right.
    + exists id', ws. cbn. by rewrite list_lookup_alter_ne.
  - destruct (Socket.sockets w !! id) as [ws|] eqn:Hws; [|done].
    assert (Socket.readyState ws = Socket.CLOSED \/ Socket.readyState ws <> Socket.CLOSED)
      as [Hr|Hr] by (destruct (Socket.readyState ws); auto).
    { by rewrite Hr. }
    destruct (sockets_ok_closed _ _ id ws _ Hok Hws Hr) as (Hon & Hoff & _).
    assert (state_has_socket
              (let w1 :=
                 Socket.with_sockets w
                   (alter (Socket.set_readyState Socket.CLOSED) id (Socket.sockets w)) in
               if Socket.onclose ws then Socket.onclosed reconnectDelay w1 else w1))
      as Hgoal.
    { cbv zeta. destruct (Socket.onclose ws).
      - unfold Socket.onclosed. cbn.
        destruct ((0 <? reconnectDelay) && _); by split.
      - specialize (Hoff eq_refl). split; [|exact Hconn]. intros Hs.
        destruct (Hopen Hs) as (id' & ws' & Hid & Hws' & Hr').
        exists id', ws'. cbn. rewrite list_lookup_alter_ne; [done|]. congruence. }
    by destruct (Socket.readyState ws).
  - case_bool_decide; [|done]. unfold Socket.connect. cbn.
    destruct (Socket.urlRef (Socket.hook w)) as [u|]; [|done].
    destruct (String.eqb u ""); [done|]. split; [done|]. intros _. by eexists.
  - unfold Socket.send. destruct (Socket.wsRef (Socket.hook w)) as [id|]; [|done].
    by destruct (Socket.readyState <$> Socket.sockets w !! id) as [[]|].
  - by split.
Qed.

(** X20.  The state a mounted [useWebSocket] reports is "open" only while
    it holds a socket that has opened and has not closed, and "connecting"
    only while it holds a socket. *)
Theorem reported_connection_has_a_socket (reconnectDelay : Z) (w : Socket.World) :
  live reconnectDelay w ->
  (Socket.state (Socket.hook w) = Hook.open ->
   exists id ws,
     Socket.wsRef (Socket.hook w) = Some id /\ Socket.sockets w !! id = Some ws
     /\ (Socket.readyState ws = Socket.OPEN \/ Socket.readyState ws = Socket.CLOSING))
  /\ (Socket.state (Socket.hook w) = Hook.connecting ->
      exists id, Socket.wsRef (Socket.hook w) = Some id).
Proof.
  induction 1 as [url|w e Hw IH]; [by split|].
  apply state_has_socket_step; [by eapply live_one_connection|exact IH].
Qed.

Lemma reported_connection_has_a_socket_witness :
  Socket.state (Socket.hook switched_streams) = Hook.open
  /\ exists id ws,
       Socket.wsRef (Socket.hook switched_streams) = Some id
       /\ Socket.sockets switched_streams !! id = Some ws
       /\ (Socket.readyState ws = Socket.OPEN \/ Socket.readyState ws = Socket.CLOSING).
Proof.
  split; [reflexivity|].
  exact (proj1 (reported_connection_has_a_socket 3000 switched_streams
                  (live_run _ _ _ (live_mount _ _))) eq_refl).
Defined.

(** ** Stream discovery *)

(** X21.  Over any sequence of calls of [resolve] and of their requests
    settling, in any interleaving, [streams] is the list of the last
    successful response, or empty before the first: a scan that fails
    keeps the streams found before; and [loading] tells whether the last
    thing to happen was a call of [resolve]. *)
Theorem failed_scan_keeps_streams (es : list Discovery.Event) :
  let s := Discovery.run Discovery.initial es in
  Discovery.streams s = default [] (last (omap fetched es))
  /\ Discovery.loading s
     = match last es with
       | Some Discovery.Resolve => true
       | _ => false
       end.
Proof.
  cbv zeta. induction es as [|e es [IHs IHl]] using rev_ind; [done|].
  unfold Discovery.run in *. rewrite fold_left_app, omap_snoc, last_snoc. simpl.
  destruct e as [|[data|status statusText|[message|]]]; simpl;
    rewrite ?app_nil_r, ?last_snoc; by split.
Qed.

(** ** Backend addresses *)

(** X22.  In a browser the REST base and the WebSocket address name the
    same backend: where [getApiBase] gives "http://localhost:8765",
    [getWsUrl] gives the path on "//localhost:8765"; where it gives the empty
    base, [getWsUrl] gives the path on the page's own host; the scheme is
    "wss:" on an "https:" page and "ws:" on any other.  Without a [window],
    [getApiBase] gives the empty base and [getWsUrl] throws. *)
Theorem backend_addresses_agree (location : Utils.Location) (path : string) :
  let proto :=
    if String.eqb (Utils.protocol location) "https:" then "wss:" else "ws:" in
  ((Utils.getApiBase (Some location) = "http://localhost:8765"
    /\ Utils.getWsUrl (Some location) path
       = Some (String.append proto (String.append "//localhost:8765" path)))
   \/ (Utils.getApiBase (Some location) = ""
       /\ Utils.getWsUrl (Some location) path
          = Some (String.append proto
                    (String.append "//"
                       (String.append (Utils.host location) path)))))
  /\ Utils.getApiBase None = ""
  /\ Utils.getWsUrl None path = None.
Proof.
  cbv zeta. unfold Utils.getApiBase, Utils.getWsUrl.
  split; [|done].
  destruct (Utils.isLocalhost location && String.eqb (Utils.port location) "4321");
    [by left|by right].
Qed.

(** ** Lanes that stay blank *)

Lemma SF_top_stuck m y :
  SFltb m (S754_infinity false) = false -> SFltb m y = false.
Proof. sf_order. Qed.

Lemma SF_bottom_stuck m y :
  SFltb (S754_infinity true) m = false -> SFltb y m = false.
Proof. sf_order. Qed.

Lemma SF_top_not_finite m :
  SFltb m (S754_infinity false) = false ->
  SFeqb m m = false \/ SFeqb (SFabs m) (S754_infinity false) = true.
Proof.
  unfold SFltb, SFeqb, SFcompare.
  destruct m as [[]|[]| |[] ? ?]; simpl; intros; try discriminate; auto.
Qed.

Lemma SF_bottom_not_finite m :
  SFltb (S754_infinity true) m = false ->
  SFeqb m m = false \/ SFeqb (SFabs m) (S754_infinity false) = true.
Proof.
  unfold SFltb, SFeqb, SFcompare.
  destruct m as [[]|[]| |[] ? ?]; simpl; intros; try discriminate; auto.
Qed.

Lemma not_finite (x : float) :
  SFeqb (Prim2SF x) (Prim2SF x) = false
  \/ SFeqb (SFabs (Prim2SF x)) (S754_infinity false) = true ->
  is_finite x = false.
Proof.
  unfold is_finite, is_nan, is_infinity.
  rewrite !FloatAxioms.eqb_spec, FloatAxioms.abs_spec.
  change (Prim2SF infinity) with (S754_infinity false).
  intros [->| ->]; [done|]. apply negb_false_iff, orb_true_r.
Qed.

(** A maximum that plus infinity does not exceed is stuck, and so is plus
    infinity itself. *)
Lemma stuck_above_infinity (m : float) :
  (m <? infinity)%float = false -> stuck_above m.
Proof.
  rewrite ltb_spec. change (Prim2SF infinity) with (S754_infinity false).
  intros Hm. split.
  - by apply not_finite, SF_top_not_finite.
  - intros y. rewrite ltb_spec. by apply SF_top_stuck.
Qed.

Lemma stuck_below_infinity (m : float) :
  (neg_infinity <? m)%float = false -> stuck_below m.
Proof.
  rewrite ltb_spec. change (Prim2SF neg_infinity) with (S754_infinity true).
  intros Hm. split.
  - by apply not_finite, SF_bottom_not_finite.
  - intros y. rewrite ltb_spec. by apply SF_bottom_stuck.
Qed.

Lemma scan_stuck (buf : list float) (indices : list (option Z)) (acc : float * float) :
  (stuck_above (snd acc) ->
   stuck_above (snd (fold_left (Chart.scanStep buf) indices acc)))
  /\ (stuck_below (fst acc) ->
      stuck_below (fst (fold_left (Chart.scanStep buf) indices acc))).
Proof.
  revert acc. induction indices as [|idx indices IH]; intros [lo hi]; [done|].
  simpl. split; intros Hstuck; apply IH; unfold Chart.scanStep, f64_gtb; simpl.
  - by rewrite (proj2 Hstuck).
  - by rewrite (proj2 Hstuck).
Qed.

(** An infinite sample in the window drives the scan to a stuck end. *)
Lemma scan_infinite (buf : list float) (indices : list (option Z)) (acc : float * float)
    (idx : option Z) :
  idx ∈ indices ->
  is_infinity (f64_at buf idx) = true ->
  let '(lo, hi) := fold_left (Chart.scanStep buf) indices acc in
  is_finite lo = false \/ is_finite hi = false.
Proof.
  intros Hin Hinf.
  destruct (list_elem_of_split _ _ Hin) as (l1 & l2 & ->).
  rewrite fold_left_app. simpl.
  set (acc1 := fold_left (Chart.scanStep buf) l1 acc).
  set (v := f64_at buf idx) in *.
  assert (stuck_above (snd (Chart.scanStep buf acc1 idx))
          \/ stuck_below (fst (Chart.scanStep buf acc1 idx))) as Hstuck.
  { unfold Chart.scanStep, f64_gtb. fold v. simpl.
    assert (Prim2SF v = S754_infinity false \/ Prim2SF v = S754_infinity true)
      as [Htop|Hbottom].
    { unfold is_infinity in Hinf.
      rewrite FloatAxioms.eqb_spec, FloatAxioms.abs_spec in Hinf.
      change (Prim2SF infinity) with (S754_infinity false) in Hinf.
      revert Hinf. unfold SFeqb, SFcompare.
      destruct (Prim2SF v) as [[]|[]| |[] ? ?]; simpl; intros; try discriminate; auto. }
    - left. destruct (snd acc1 <? v)%float eqn:Hgt; apply stuck_above_infinity.
      + rewrite ltb_spec, Htop. reflexivity.
      + rewrite ltb_spec in *. by rewrite Htop in Hgt.
    - right. destruct (v <? fst acc1)%float eqn:Hlt; apply stuck_below_infinity.
      + rewrite ltb_spec, Hbottom. reflexivity.
      + rewrite ltb_spec in *. by rewrite Hbottom in Hlt. }
  destruct (scan_stuck buf l2 (Chart.scanStep buf acc1 idx)) as [Habove Hbelow].
  destruct (fold_left (Chart.scanStep buf) l2 (Chart.scanStep buf acc1 idx))
    as [lo hi] eqn:Hend.
  simpl in Habove, Hbelow.
  destruct Hstuck as [H|H]; [right; by apply Habove|left; by apply Hbelow].
Qed.

(** X23.  A stacked lane stays blank, with only its gutter background
    painted and neither label nor trace, when no sample lies in the window
    or when one sample of the channel in the window is infinite. *)
Theorem lane_without_finite_range_is_blank (measureText : string -> float)
    (p : Chart.Props) (v : Chart.View) (vp : Chart.Viewport) (m : Chart.Margin)
    (plotW startTime laneH : float) (laneIdx chIdx : nat) :
  let buf := default [] (Chart.channelBuffers p !! chIdx) in
  Chart.windowIndices p startTime = []
  \/ (exists idx, idx ∈ Chart.windowIndices p startTime
                  /\ is_infinity (f64_at buf idx) = true) ->
  Chart.laneRange p startTime buf = None
  /\ Chart.drawLane measureText p v vp m plotW startTime laneH laneIdx chIdx
     = [ Chart.fillStyle "#0d0d17";
         Chart.fillRect 0 (Chart.margin_top m + f64_of_nat laneIdx * laneH)
           (Chart.margin_left m - 1) laneH ].
Proof.
  intros buf Hblank.
  assert (Chart.laneRange p startTime buf = None) as Hnone.
  { unfold Chart.laneRange, Chart.scan, isFinite.
    destruct Hblank as [->|(idx & Hin & Hinf)]; [done|].
    pose proof (scan_infinite buf _ (infinity, neg_infinity) idx Hin Hinf) as Hscan.
    destruct (fold_left _ _ _) as [lo hi].
    destruct Hscan as [->| ->]; simpl; by rewrite ?orb_true_r. }
  split; [exact Hnone|].
  unfold Chart.drawLane. fold buf. by rewrite Hnone.
Qed.

Lemma lane_without_finite_range_is_blank_witness :
  Chart.laneRange one_infinite 97 [1; infinity; 3]%float = None
  /\ Chart.drawLane fixed_pitch one_infinite five_second_lanes small_canvas plain_margin
       698 97 368 0 0
     = [ Chart.fillStyle "#0d0d17";
         Chart.fillRect 0 (8 + f64_of_nat 0 * 368) (90 - 1) 368 ].
Proof.
  apply (lane_without_finite_range_is_blank fixed_pitch one_infinite five_second_lanes
           small_canvas plain_margin 698%float 97%float 368%float 0 0).
  right. exists (Some 1). split; [|reflexivity].
  apply list_elem_of_In. vm_compute. tauto.
Defined.

(** ** The statistics panel of a marker stream *)

(** X24.  While a string stream is selected the statistics panel never
    moves: over any stretch of a session handled under the options of a
    string stream the hook returns the statistics it held at the start, so
    the panel shows the text and the class it showed then.  After a numeric
    stream these are that stream's last figures.  For a hook that nothing
    had touched, as at the mount, the total and the uptime are zero, the
    text of "Actual Rate" is "Irregular", and against a nominal rate that is
    not positive the rate is classed "stat-ok". *)
Theorem marker_stream_reads_irregular (toFixed1 : float -> string) (js : Hook.Engine)
    (w : Hook.World) (es : list Session.Event) (ws ws' : Hook.WsState)
    (nominalSrate : float) :
  Forall (fun e => Hook.isStringStream (fst e) = true) es ->
  let before := Hook.result ws (Hook.hook w) in
  let after := Hook.result ws' (Hook.hook (Session.run js w es)) in
  Hook.stats after = Hook.stats before
  /\ Stats.actualRate toFixed1 (Hook.stats after)
     = Stats.actualRate toFixed1 (Hook.stats before)
  /\ Stats.rateClass (Hook.stats after) nominalSrate
     = Stats.rateClass (Hook.stats before) nominalSrate
  /\ (untouched w ->
      Stats.actualRate toFixed1 (Hook.stats after) = "Irregular"
      /\ Hook.totalSamples (Hook.stats after) = 0
      /\ Hook.connectionUptime (Hook.stats after) = 0%float
      /\ ((0 <? nominalSrate)%float = false ->
          Stats.rateClass (Hook.stats after) nominalSrate = "stat-ok")).
Proof.
  intros Hes before after.
  assert (Hook.stats after = Hook.stats before) as Hsame.
  { unfold after, before. simpl. clear before after.
    induction es as [|[o e] es IH] using rev_ind; [done|].
    apply Forall_app in Hes as [Hes He]. rewrite Forall_singleton in He.
    unfold Session.run in *. rewrite fold_left_app. simpl.
    destruct (step_string_stream js o (fold_left (Session.step js) es w) e He)
      as (Hst & _).
    unfold Session.step at 1. simpl fst. simpl snd. rewrite Hst. by apply IH. }
  rewrite Hsame. split_and!; try done.
  intros (Hst & _). unfold before. simpl. rewrite Hst. split_and!; try done.
  intros Hnominal. unfold Stats.rateClass, Stats.rateDeviation. by rewrite Hnominal.
Qed.

Lemma marker_stream_reads_irregular_witness :
  let before := Hook.result Hook.closed (Hook.hook connected_two_samples) in
  let after :=
    Hook.result Hook.open
      (Hook.hook (Session.run plain connected_two_samples
                    (Session.under string_stream six_hundred))) in
  Hook.stats after = Hook.stats before
  /\ Stats.actualRate no_toFixed (Hook.stats after)
     = Stats.actualRate no_toFixed (Hook.stats before)
  /\ Stats.rateClass (Hook.stats after) 0 = Stats.rateClass (Hook.stats before) 0
  /\ (untouched connected_two_samples ->
      Stats.actualRate no_toFixed (Hook.stats after) = "Irregular"
      /\ Hook.totalSamples (Hook.stats after) = 0
      /\ Hook.connectionUptime (Hook.stats after) = 0%float
      /\ ((0 <? 0)%float = false -> Stats.rateClass (Hook.stats after) 0 = "stat-ok")).
Proof.
  refine (marker_stream_reads_irregular no_toFixed plain connected_two_samples
            (Session.under string_stream six_hundred) Hook.closed Hook.open 0%float _).
  apply Forall_fmap, Forall_true. reflexivity.
Defined.

(** ** Auto-ranging in overlay mode *)

(** The scans of further channels keep the least and the greatest of all
    the finite values seen. *)
Lemma overlay_extremes (p : Chart.Props) (startTime : float) (chs : list nat)
    (lo hi : float) (seen : list float) :
  Forall (fun x => is_finite x = true) seen ->
  Forall (fun x => is_finite x = true) (overlayValues p startTime chs) ->
  lo ∈ seen -> hi ∈ seen ->
  Forall (fun x => f64_le lo x /\ f64_le x hi) seen ->
  let acc :=
    fold_left
      (fun acc chIdx =>
         Chart.scan p startTime (default [] (Chart.channelBuffers p !! chIdx)) acc)
      chs (lo, hi) in
  fst acc ∈ seen ++ overlayValues p startTime chs
  /\ snd acc ∈ seen ++ overlayValues p startTime chs
  /\ Forall (fun x => f64_le (fst acc) x /\ f64_le x (snd acc))
       (seen ++ overlayValues p startTime chs).
Proof.
  revert lo hi seen. induction chs as [|ch chs IH]; intros lo hi seen Hfin Hvals.
  - simpl. unfold overlayValues. simpl. rewrite app_nil_r. auto.
  - intros Hlo Hhi Hbounds. unfold overlayValues in *. rewrite bind_cons in *.
    apply Forall_app in Hvals as [Hch Hvals]. unfold windowValues in Hch.
    pose proof (scan_extremes _ _ lo hi seen Hfin Hch Hlo Hhi Hbounds) as Hscan.
    fold (Chart.scan p startTime (default [] (Chart.channelBuffers p !! ch)) (lo, hi))
      in Hscan.
    simpl fold_left.
    destruct (Chart.scan p startTime _ (lo, hi)) as [lo1 hi1].
    destruct Hscan as (Hlo1 & Hhi1 & Hbounds1).
    simpl in Hlo1, Hhi1, Hbounds1. rewrite app_assoc.
    apply IH; try done.
    apply Forall_app. split; done.
Qed.

(** X25.  In overlay mode, when the active channels have samples in the
    window, all finite, the shared range is taken from the least value lo
    and the greatest value hi of them all: lo - q .. hi + q with
    q = (hi - lo) * 0.05 when they differ, and when they are equal
    (lo - 1) - q .. (hi + 1) + q with q = ((hi + 1) - (lo - 1)) * 0.05.  For
    samples that all hold the same value v that is (v - 1) - q .. (v + 1) + q:
    the degenerate range is widened by one each way and then padded by five
    percent like any other. *)
Theorem overlay_range_widened_then_padded (p : Chart.Props) (startTime : float)
    (active : list nat) :
  let values := overlayValues p startTime active in
  values <> [] ->
  Forall (fun x => is_finite x = true) values ->
  (exists lo hi : float,
     lo ∈ values /\ hi ∈ values
     /\ Forall (fun x => f64_le lo x /\ f64_le x hi) values
     /\ Chart.overlayRange p startTime active
        = Some (if (lo =? hi)%float
                then ((lo - 1 - (hi + 1 - (lo - 1)) * 0.05)%float,
                      (hi + 1 + (hi + 1 - (lo - 1)) * 0.05)%float)
                else ((lo - (hi - lo) * 0.05)%float, (hi + (hi - lo) * 0.05)%float)))
  /\ forall v : float,
       Forall (fun x => x = v) values ->
       Chart.overlayRange p startTime active
       = Some ((v - 1 - (v + 1 - (v - 1)) * 0.05)%float,
               (v + 1 + (v + 1 - (v - 1)) * 0.05)%float).
Proof.
  intros values Hsome Hfin. unfold values in *. clear values.
  assert (exists lo hi : float,
            lo ∈ overlayValues p startTime active
            /\ hi ∈ overlayValues p startTime active
            /\ Forall (fun x => f64_le lo x /\ f64_le x hi)
                 (overlayValues p startTime active)
            /\ Chart.overlayRange p startTime active
               = Some (if (lo =? hi)%float
                       then ((lo - 1 - (hi + 1 - (lo - 1)) * 0.05)%float,
                             (hi + 1 + (hi + 1 - (lo - 1)) * 0.05)%float)
                       else ((lo - (hi - lo) * 0.05)%float,
                             (hi + (hi - lo) * 0.05)%float))) as Hrange.
  { destruct active as [|ch chs]; [done|].
    assert (Chart.windowIndices p startTime <> []) as Hidxs.
    { intros Hnil. apply Hsome. unfold overlayValues, windowValues. rewrite Hnil.
      clear. generalize (ch :: chs). induction l as [|c l IH]; [done|].
      by rewrite bind_cons, IH. }
    unfold overlayValues in Hfin |- *. rewrite bind_cons in Hfin |- *.
    apply Forall_app in Hfin as [Hch Hrest]. unfold windowValues in Hch.
    pose proof (scan_window_extremes _ _ Hidxs Hch) as Hscan.
    fold (Chart.scan p startTime (default [] (Chart.channelBuffers p !! ch))
            (infinity, neg_infinity)) in Hscan.
    unfold Chart.overlayRange. simpl fold_left.
    destruct (Chart.scan p startTime _ (infinity, neg_infinity)) as [lo1 hi1].
    destruct Hscan as (Hlo1 & Hhi1 & Hbounds1).
    simpl in Hlo1, Hhi1, Hbounds1.
    destruct (overlay_extremes p startTime chs lo1 hi1 _ Hch Hrest Hlo1 Hhi1 Hbounds1)
      as (Hlo & Hhi & Hbounds).
    unfold overlayValues, windowValues in *.
    destruct (fold_left _ chs (lo1, hi1)) as [lo hi]. simpl in Hlo, Hhi, Hbounds.
    exists lo, hi. split_and!; try done.
    unfold isFinite.
    assert (is_finite lo = true) as ->.
    { apply elem_of_app in Hlo as [Hlo|Hlo].
      - by apply (proj1 (Forall_forall _ _) Hch).
      - by apply (proj1 (Forall_forall _ _) Hrest). }
    simpl. by destruct (lo =? hi)%float. }
  split; [exact Hrange|].
  intros v Hconst. destruct Hrange as (lo & hi & Hlo' & Hhi' & _ & ->).
  rewrite (proj1 (Forall_forall _ _) Hconst lo Hlo'),
    (proj1 (Forall_forall _ _) Hconst hi Hhi').
  assert (is_finite v = true) as Hv.
  { rewrite <- (proj1 (Forall_forall _ _) Hconst lo Hlo').
    by apply (proj1 (Forall_forall _ _) Hfin). }
  destruct (F64.finite_order v Hv) as (_ & _ & _ & ->). reflexivity.
Qed.

Lemma overlay_range_widened_then_padded_witness :
  let values :=
    overlayValues five_writes_props
      (Chart.startTimeOf five_writes_props five_second_lanes) [0; 1]%nat in
  (exists lo hi : float,
     lo ∈ values /\ hi ∈ values
     /\ Forall (fun x => f64_le lo x /\ f64_le x hi) values
     /\ Chart.overlayRange five_writes_props
          (Chart.startTimeOf five_writes_props five_second_lanes) [0; 1]%nat
        = Some (if (lo =? hi)%float
                then ((lo - 1 - (hi + 1 - (lo - 1)) * 0.05)%float,
                      (hi + 1 + (hi + 1 - (lo - 1)) * 0.05)%float)
                else ((lo - (hi - lo) * 0.05)%float, (hi + (hi - lo) * 0.05)%float)))
  /\ forall v : float,
       Forall (fun x => x = v) values ->
       Chart.overlayRange five_writes_props
         (Chart.startTimeOf five_writes_props five_second_lanes) [0; 1]%nat
       = Some ((v - 1 - (v + 1 - (v - 1)) * 0.05)%float,
               (v + 1 + (v + 1 - (v - 1)) * 0.05)%float).
Proof.
  refine (overlay_range_widened_then_padded five_writes_props
            (Chart.startTimeOf five_writes_props five_second_lanes) [0; 1]%nat _ _).
  - vm_compute. discriminate.
  - vm_compute. repeat constructor.
Defined.

(** ** The rate window without a clock assumption *)

(** Eviction drops a prefix, and stops at a reading that is not before the
    cutoff. *)
Lemma evict_suffix (q : list float) (cutoff : float) :
  exists k : nat,
    (k <= length q)%nat
    /\ Hook.evict q cutoff = drop k q
    /\ forall t, head (Hook.evict q cutoff) = Some t -> (t <? cutoff)%float = false.
Proof.
  induction q as [|x q (k & Hk & Hdrop & Hhead)].
  - exists 0%nat. by split_and!.
  - simpl. destruct (x <? cutoff)%float eqn:Hx.
    + exists (S k). split_and!; [simpl; lia|done|done].
    + exists 0%nat. split_and!; [lia|done|]. simpl. by intros t [= <-].
Qed.

(** X26.  Whatever the clock reads, the rate window of a numeric stream is
    a suffix of the arrival times of the accepted writes, in their order:
    after the last of them actualSampleRate counts the most recent arrivals
    without a gap, and the oldest arrival still counted is not before the
    cutoff of the last write. *)
Theorem rate_window_is_a_suffix (js : Hook.Engine) (o : Hook.Options)
    (es : list Hook.Event) :
  Hook.isStringStream o = false ->
  let s := Hook.hook (Hook.run js o Hook.mount es) in
  let times := arrivalTimes js es in
  exists k : nat,
    (k <= length times)%nat
    /\ Hook.rateWindowRef s = drop k times
    /\ Hook.actualSampleRate (Hook.statsRef s) = Z.of_nat (length times - k)
    /\ forall now t,
         last times = Some now -> head (Hook.rateWindowRef s) = Some t ->
         (t <? cutoffOf now)%float = false.
Proof.
  intros Hs. cbv zeta.
  induction es as [|e es (k & Hk & Hq & Hrate & Hhead)] using rev_ind.
  - exists 0%nat. by split_and!.
  - rewrite run_snoc. unfold arrivalTimes, writesOf in *. rewrite omap_snoc.
    destruct (acceptedWrite js e) as [a|] eqn:He.
    + rewrite (acceptedWrite_step js o _ e a Hs He).
      destruct (step_numeric_rate js o (Hook.run js o Hook.mount es) a Hs) as [-> ->].
      rewrite fmap_app. simpl.
      set (times := (fun a => seconds (arrivedAt a)) <$> omap (acceptedWrite js) es) in *.
      set (now := seconds (arrivedAt a)).
      rewrite Hq.
      destruct (evict_suffix (drop k times ++ [now]) (cutoffOf now))
        as (k' & Hk' & -> & Hfront).
      rewrite length_app, length_drop in Hk'. simpl in Hk'.
      exists (k + k')%nat. rewrite length_app. simpl.
      assert (drop k' (drop k times ++ [now]) = drop (k + k') (times ++ [now])) as Heq.
      { destruct (decide (k' <= length times - k)%nat) as [Hle|Hgt].
        - rewrite drop_app_le by (rewrite length_drop; lia).
          rewrite drop_app_le by lia. by rewrite drop_drop.
        - rewrite !drop_ge; [done|rewrite length_app; simpl; lia|].
          rewrite length_app, length_drop. simpl. lia. }
      rewrite Heq. split_and!; [lia|done| |].
      * rewrite length_drop, length_app. simpl. lia.
      * intros now' t Hlast. rewrite last_snoc in Hlast. injection Hlast as <-.
        rewrite <- Heq. apply Hfront.
    + rewrite app_nil_r, step_other_rate, step_other_stats by (done || by right).
      by exists k.
Qed.

Lemma rate_window_is_a_suffix_witness :
  let s := Hook.hook (Hook.run plain two_channels Hook.mount five_writes) in
  let times := arrivalTimes plain five_writes in
  exists k : nat,
    (k <= length times)%nat
    /\ Hook.rateWindowRef s = drop k times
    /\ Hook.actualSampleRate (Hook.statsRef s) = Z.of_nat (length times - k)
    /\ forall now t,
         last times = Some now -> head (Hook.rateWindowRef s) = Some t ->
         (t <? cutoffOf now)%float = false.
Proof.
  exact (rate_window_is_a_suffix plain two_channels five_writes eq_refl).
Defined.
